(** * Signal aggregation and threshold optimisation of the stock-signal bot

    A shallow embedding of [signal_generator.py], [backtester.py] and the
    watchlist and thresholds of [config.py], with the properties of the
    signal aggregator, the price-change resolver, the threshold evaluator,
    the threshold sweep and the auto-tuner; and of the ticker matching and
    the deduplication of [news_collector.py], the batch loop of
    [sentiment_analyzer.py] and the pipeline of [main.py], with the network,
    the model and the interpreter's string functions as parameters.

    Python [float] values are kept behind the interface [Arith]: the code
    only adds, subtracts, multiplies, divides, rounds and compares them.
    Two instances are given: exact rationals ([Q], no rounding error and no
    NaN), on which the order-dependent properties are proved, and IEEE
    binary64 ([PrimFloat.float], what CPython computes with), on which the
    concrete scenarios are evaluated. Whatever depends only on the control
    flow is proved for every instance. *)

From Stdlib Require Import QArith Qround Lqa Floats ZArith List Bool Sorted OrderedTypeEx.
From stdpp Require Import gmap strings list fin_maps.

Local Open Scope Z_scope.

(** ** Python results: a value or a raised exception *)

Inductive exn : Type := ValueError | KeyError | IndexError.

Inductive py (A : Type) : Type :=
| Ok (a : A)
| Raise (e : exn).
Arguments Ok {A} a.
Arguments Raise {A} e.

Definition py_bind {A B} (m : py A) (k : A -> py B) : py B :=
  match m with
  | Ok a => k a
  | Raise e => Raise e
  end.

Notation "'let*' x ':=' m 'in' k" := (py_bind m (fun x => k))
  (at level 10, x pattern, m at level 100, k at level 200).

(** [d[k]] on a dict. *)
Definition getitem `{Countable K} {V} (d : gmap K V) (k : K) : py V :=
  match d !! k with
  | Some v => Ok v
  | None => Raise KeyError
  end.

(** [l[i]] on a list, for [i >= 0]. *)
Definition list_getitem {A} (l : list A) (i : nat) : py A :=
  match nth_error l i with
  | Some a => Ok a
  | None => Raise IndexError
  end.

(** [l.index(x)]: the first position of [x], [ValueError] when absent. *)
Fixpoint list_index `{EqDecision A} (l : list A) (x : A) : py nat :=
  match l with
  | [] => Raise ValueError
  | y :: l' => if decide (y = x) then Ok 0%nat
               else let* i := list_index l' x in Ok (S i)
  end.

(** ** Floats *)

Class Arith (F : Type) : Type := {
  (** the float of a decimal literal, of an [int], or of [int / int] *)
  of_Q : Q -> F;
  fadd : F -> F -> F;
  fsub : F -> F -> F;
  fmul : F -> F -> F;
  fdiv : F -> F -> F;
  (** [x < y] and [x == y]; [x > y] is [y < x] *)
  flt : F -> F -> bool;
  feq : F -> F -> bool;
  (** [round(x, ndigits)] *)
  fround : F -> nat -> F
}.

(** *** Exact rationals *)

Definition Qltb (x y : Q) : bool := negb (Qle_bool y x).

(** The integer nearest to [x], ties to the even one. *)
Definition Qround_half_even (x : Q) : Z :=
  let f := Qfloor x in
  match Qcompare (x - inject_Z f) (1 # 2) with
  | Lt => f
  | Gt => f + 1
  | Eq => if Z.even f then f else f + 1
  end.

Definition Qround_digits (x : Q) (n : nat) : Q :=
  Qmake (Qround_half_even (x * inject_Z (10 ^ Z.of_nat n)))
        (Z.to_pos (10 ^ Z.of_nat n)).

#[export] Instance Q_arith : Arith Q := {|
  of_Q q := q;
  fadd := Qplus;
  fsub := Qminus;
  fmul := Qmult;
  fdiv := Qdiv;
  flt := Qltb;
  feq := Qeq_bool;
  fround := Qround_digits
|}.

(** *** IEEE binary64 *)

(** The double nearest to [n / d] (ties to even): what a decimal literal,
    [float(n)] and the true division of two ints evaluate to. *)
Definition float_of_Q (q : Q) : float :=
  match Qnum q with
  | Z0 => PrimFloat.zero
  | Zpos p =>
      SF2Prim (SFdiv prec emax (S754_finite false p 0) (S754_finite false (Qden q) 0))
  | Zneg p =>
      SF2Prim (SFdiv prec emax (S754_finite true p 0) (S754_finite false (Qden q) 0))
  end.

(** [round(x, n)] rounds the exact value of the double to [n] decimals, ties
    to even, and returns the double nearest to that decimal; zeros, infinities
    and NaN are returned as they are. *)
Definition float_round (x : float) (n : nat) : float :=
  match Prim2SF x with
  | S754_finite s m e =>
      let v := (inject_Z (Zpos m) * (if 0 <=? e then inject_Z (2 ^ e)
                                     else / inject_Z (2 ^ (- e))))%Q in
      let z := Qround_half_even (v * inject_Z (10 ^ Z.of_nat n)) in
      if z =? 0 then (if s then PrimFloat.neg_zero else PrimFloat.zero)
      else float_of_Q (Qmake (if s then - z else z) (Z.to_pos (10 ^ Z.of_nat n)))
  | _ => x
  end.

#[export] Instance binary64_arith : Arith float := {|
  of_Q := float_of_Q;
  fadd := PrimFloat.add;
  fsub := PrimFloat.sub;
  fmul := PrimFloat.mul;
  fdiv := PrimFloat.div;
  flt := PrimFloat.ltb;
  feq := PrimFloat.eqb;
  fround := float_round
|}.

(** ** [sorted] and [list.sort] *)

(** Python's sort is stable and only asks [<]. It is modelled by the stable
    insertion sort, which returns the same list whenever [<] is a strict weak
    order. *)
Section Sorting.
Context {A : Type} (lt : A -> A -> bool).

Fixpoint insert_sorted (x : A) (l : list A) : list A :=
  match l with
  | [] => [x]
  | y :: l' => if lt y x then y :: insert_sorted x l' else x :: l
  end.

Definition sorted (l : list A) : list A := foldr insert_sorted [] l.

(** [l.sort(reverse=True)]: reverse, sort, reverse, which keeps the original
    order among equal elements. *)
Definition sort_reverse (l : list A) : list A := rev (sorted (rev l)).
End Sorting.

(** [str] comparison. *)
Definition str_lt (a b : string) : bool := String.ltb a b.
Definition str_le (a b : string) : bool := String.leb a b.

(** Tuples compare on the first component that differs. *)
Definition pair_str_lt (a b : string * string) : bool :=
  if decide (a.1 = b.1) then str_lt a.2 b.2 else str_lt a.1 b.1.

(** ** Data model *)

(** The fields of an article the engine reads. [sentiment] and [confidence]
    are absent until the article is scored; [published] is the timestamp as
    [strftime("%Y-%m-%d")] renders it. *)
Record Article (F : Type) : Type := {
  title : string;
  ticker : string;
  published : string;
  sentiment : option string;
  confidence : option F
}.
Arguments title {F} _.
Arguments ticker {F} _.
Arguments published {F} _.
Arguments sentiment {F} _.
Arguments confidence {F} _.

Record EvaluationRow (F : Type) : Type := {
  row_ticker : string;
  row_date : string;
  sentiment_score : F;
  actual_change_pct : F;
  article_count : Z
}.
Arguments row_ticker {F} _.
Arguments row_date {F} _.
Arguments sentiment_score {F} _.
Arguments actual_change_pct {F} _.
Arguments article_count {F} _.

(** The live thresholds: the module globals of [config.py]. *)
Record ThresholdConfig (F : Type) : Type := {
  BUY_THRESHOLD : F;
  SELL_THRESHOLD : F;
  MIN_ARTICLES : Z
}.
Arguments BUY_THRESHOLD {F} _.
Arguments SELL_THRESHOLD {F} _.
Arguments MIN_ARTICLES {F} _.

Record EvaluationResult (F : Type) : Type := {
  buy_threshold : F;
  sell_threshold : F;
  min_articles : Z;
  accuracy : F;
  total_signals : nat;
  correct : nat;
  tp_buy : nat;
  fp_buy : nat;
  tp_sell : nat;
  fp_sell : nat;
  hold_count : nat
}.
Arguments buy_threshold {F} _.
Arguments sell_threshold {F} _.
Arguments min_articles {F} _.
Arguments accuracy {F} _.
Arguments total_signals {F} _.
Arguments correct {F} _.
Arguments tp_buy {F} _.
Arguments fp_buy {F} _.
Arguments tp_sell {F} _.
Arguments fp_sell {F} _.
Arguments hold_count {F} _.

Inductive SignalKind : Type := BUY | SELL | HOLD.

Record Signal (F : Type) : Type := {
  signal : SignalKind;
  score : F;
  signal_confidence : F;
  signal_article_count : nat;
  top_headline : string;
  display_name : string
}.
Arguments signal {F} _.
Arguments score {F} _.
Arguments signal_confidence {F} _.
Arguments signal_article_count {F} _.
Arguments top_headline {F} _.
Arguments display_name {F} _.

(** ** config.py *)

Definition STOCKS : list string :=
  ["AAPL"; "MSFT"; "GOOG"; "AMZN"; "TSLA"; "NVDA"; "META"; "JPM"; "V"; "JNJ"].
Definition COMMODITIES : list (string * string) :=
  [("Gold", "GC=F"); ("Oil", "CL=F"); ("Silver", "SI=F")].
Definition CRYPTO : list (string * string) :=
  [("BTC", "BTC-USD"); ("ETH", "ETH-USD")].

(** [{**d1, **d2, **d3}]: later entries overwrite earlier ones. *)
Definition dict_of_items {V} (items : list (string * V)) : gmap string V :=
  foldl (fun d kv => <[kv.1 := kv.2]> d) ∅ items.

Definition ASSET_DISPLAY_NAMES : gmap string string :=
  dict_of_items (map (fun s => (s, s)) STOCKS
                 ++ map (fun kv => (kv.2, kv.1)) COMMODITIES
                 ++ map (fun kv => (kv.2, kv.1)) CRYPTO).

Definition ALL_TICKERS : list string :=
  STOCKS ++ map snd COMMODITIES ++ map snd CRYPTO.

Definition default_config `{Arith F} : ThresholdConfig F :=
  {| BUY_THRESHOLD := of_Q (2 # 10);
     SELL_THRESHOLD := of_Q (- 5 # 100);
     MIN_ARTICLES := 1 |}.

(** ** backtester.py *)

Section Backtester.
Context `{Arith F}.

Definition SENTIMENT_SCORES : gmap string F :=
  dict_of_items [("positive", of_Q 1); ("negative", of_Q (- 1)); ("neutral", of_Q 0)].

(** [SENTIMENT_SCORES.get(art.get("sentiment", "neutral"), 0.0)] *)
Definition polarity (art : Article F) : F :=
  default (of_Q 0) (SENTIMENT_SCORES !! default "neutral" (sentiment art)).

(** [art.get("confidence", 0.5)] *)
Definition weight (art : Article F) : F :=
  default (of_Q (5 # 10)) (confidence art).

Definition dict_keys {V} (d : gmap string V) : list string := (map_to_list d).*1.

Definition compute_next_day_change (prices : gmap string F) (date_str : string)
  : py (option F) :=
  let sorted_dates := sorted str_lt (dict_keys prices) in
  let snapped :=
    if bool_decide (date_str ∈ sorted_dates) then Some date_str
    else head (List.filter (fun d => str_le date_str d) sorted_dates) in
  match snapped with
  | None => Ok None
  | Some date_str =>
      let* idx := list_index sorted_dates date_str in
      if (length sorted_dates <=? idx + 1)%nat then Ok None
      else
        let* d_today := list_getitem sorted_dates idx in
        let* price_today := getitem prices d_today in
        let* d_next := list_getitem sorted_dates (idx + 1) in
        let* price_next := getitem prices d_next in
        if feq price_today (of_Q 0) then Ok None
        else Ok (Some (fmul (fdiv (fsub price_next price_today) price_today)
                            (of_Q 100)))
  end.

Definition compute_sentiment_score (articles : list (Article F)) : F :=
  let '(weighted_sum, weight_total) :=
    foldl (fun '(weighted_sum, weight_total) art =>
             (fadd weighted_sum (fmul (polarity art) (weight art)),
              fadd weight_total (weight art)))
          (of_Q 0, of_Q 0) articles in
  if flt (of_Q 0) weight_total then fdiv weighted_sum weight_total else of_Q 0.

(** The counters of [evaluate_thresholds]. *)
Record Counters : Type := {
  c_tp_buy : nat;
  c_fp_buy : nat;
  c_tp_sell : nat;
  c_fp_sell : nat;
  c_hold_count : nat;
  c_total_signals : nat
}.

Definition counters0 : Counters :=
  {| c_tp_buy := 0; c_fp_buy := 0; c_tp_sell := 0; c_fp_sell := 0;
     c_hold_count := 0; c_total_signals := 0 |}.

(** One iteration of the loop over the table. *)
Definition evaluate_row (buy_thresh sell_thresh : F) (min_articles : Z)
    (c : Counters) (row : EvaluationRow F) : Counters :=
  let score := sentiment_score row in
  let change := actual_change_pct row in
  let count := article_count row in
  if count <? min_articles then
    {| c_tp_buy := c_tp_buy c; c_fp_buy := c_fp_buy c;
       c_tp_sell := c_tp_sell c; c_fp_sell := c_fp_sell c;
       c_hold_count := c_hold_count c + 1;
       c_total_signals := c_total_signals c |}
  else if flt buy_thresh score then
    if flt (of_Q 0) change then
      {| c_tp_buy := c_tp_buy c + 1; c_fp_buy := c_fp_buy c;
         c_tp_sell := c_tp_sell c; c_fp_sell := c_fp_sell c;
         c_hold_count := c_hold_count c;
         c_total_signals := c_total_signals c + 1 |}
    else
      {| c_tp_buy := c_tp_buy c; c_fp_buy := c_fp_buy c + 1;
         c_tp_sell := c_tp_sell c; c_fp_sell := c_fp_sell c;
         c_hold_count := c_hold_count c;
         c_total_signals := c_total_signals c + 1 |}
  else if flt score sell_thresh then
    if flt change (of_Q 0) then
      {| c_tp_buy := c_tp_buy c; c_fp_buy := c_fp_buy c;
         c_tp_sell := c_tp_sell c + 1; c_fp_sell := c_fp_sell c;
         c_hold_count := c_hold_count c;
         c_total_signals := c_total_signals c + 1 |}
    else
      {| c_tp_buy := c_tp_buy c; c_fp_buy := c_fp_buy c;
         c_tp_sell := c_tp_sell c; c_fp_sell := c_fp_sell c + 1;
         c_hold_count := c_hold_count c;
         c_total_signals := c_total_signals c + 1 |}
  else
    {| c_tp_buy := c_tp_buy c; c_fp_buy := c_fp_buy c;
       c_tp_sell := c_tp_sell c; c_fp_sell := c_fp_sell c;
       c_hold_count := c_hold_count c + 1;
       c_total_signals := c_total_signals c |}.

Definition evaluate_thresholds (table : list (EvaluationRow F))
    (buy_thresh sell_thresh : F) (min_articles : Z) : EvaluationResult F :=
  let c := foldl (evaluate_row buy_thresh sell_thresh min_articles) counters0 table in
  let correct := (c_tp_buy c + c_tp_sell c)%nat in
  let accuracy :=
    if (0 <? c_total_signals c)%nat
    then of_Q (Qmake (Z.of_nat correct) (Pos.of_nat (c_total_signals c)))
    else of_Q 0 in
  {| buy_threshold := buy_thresh;
     sell_threshold := sell_thresh;
     min_articles := min_articles;
     accuracy := accuracy;
     total_signals := c_total_signals c;
     correct := correct;
     tp_buy := c_tp_buy c;
     fp_buy := c_fp_buy c;
     tp_sell := c_tp_sell c;
     fp_sell := c_fp_sell c;
     hold_count := c_hold_count c |}.

(** [[round(x * 0.05, 2) for x in range(1, 13)]] *)
Definition buy_range : list F :=
  map (fun x => fround (fmul (of_Q (inject_Z x)) (of_Q (5 # 100))) 2) (seqZ 1 12).

(** [[round(-x * 0.05, 2) for x in range(1, 13)]] *)
Definition sell_range : list F :=
  map (fun x => fround (fmul (of_Q (inject_Z (- x))) (of_Q (5 # 100))) 2) (seqZ 1 12).

Definition min_articles_options : list Z := [1; 2; 3; 5].

Definition sweep_thresholds (table : list (EvaluationRow F))
  : list (EvaluationResult F) :=
  min_art ← min_articles_options;
  bt ← buy_range;
  st ← sell_range;
  [evaluate_thresholds table bt st min_art].

(** Grouping by [(ticker, date)] into a [defaultdict(list)]. *)
Definition group_articles (articles : list (Article F))
  : gmap (string * string) (list (Article F)) :=
  foldl (fun groups art =>
           let k := (ticker art, published art) in
           <[k := default [] (groups !! k) ++ [art]]> groups)
        ∅ articles.

(** [sorted(groups.items())]: the keys are distinct, so the items are ordered
    by their keys. *)
Definition sorted_items (groups : gmap (string * string) (list (Article F)))
  : list ((string * string) * list (Article F)) :=
  sorted (fun a b => pair_str_lt a.1 b.1) (map_to_list groups).

Definition build_backtest_table (articles : list (Article F))
    (prices : gmap string (gmap string F)) : py (list (EvaluationRow F)) :=
  foldl (fun acc '((ticker, date_str), arts) =>
           let* table := acc in
           match prices !! ticker with
           | None => Ok table
           | Some series =>
               let* change := compute_next_day_change series date_str in
               match change with
               | None => Ok table
               | Some change =>
                   Ok (table ++ [{| row_ticker := ticker;
                                    row_date := date_str;
                                    sentiment_score := compute_sentiment_score arts;
                                    actual_change_pct := change;
                                    article_count := Z.of_nat (length arts) |}])
               end
           end)
        (Ok []) (sorted_items (group_articles articles)).

(** [r1 < r2] on the sort key [(accuracy, total_signals)]. *)
Definition key_lt (r1 r2 : EvaluationResult F) : bool :=
  if feq (accuracy r1) (accuracy r2)
  then (total_signals r1 <? total_signals r2)%nat
  else flt (accuracy r1) (accuracy r2).

(** The two filters of the selection. *)
Definition viable_results (all_results : list (EvaluationResult F))
  : list (EvaluationResult F) :=
  let viable := List.filter (fun r => (3 <=? total_signals r)%nat) all_results in
  if bool_decide (viable = [])
  then List.filter (fun r => (1 <=? total_signals r)%nat) all_results
  else viable.

(** The selection of [auto_tune] and [main]: [None] stands for "no viable
    thresholds found". *)
Definition select_optimal (all_results : list (EvaluationResult F))
  : py (option (EvaluationResult F)) :=
  let viable := viable_results all_results in
  if bool_decide (viable = []) then Ok None
  else
    let viable := sort_reverse key_lt viable in
    let* optimal := list_getitem viable 0 in
    Ok (Some optimal).

(** What the collaborators hand to one run of [auto_tune]. *)
Record Collaborators : Type := {
  collect_historical_news : list (Article F);
  analyze_sentiment : list (Article F) -> list (Article F);
  fetch_price_data : gset string -> gmap string (gmap string F)
}.

(** [auto_tune] reads and writes the live thresholds: the result is the
    returned boolean and the thresholds after the call. *)
Definition auto_tune (w : Collaborators) (config : ThresholdConfig F)
  : py (bool * ThresholdConfig F) :=
  let articles := collect_historical_news w in
  if bool_decide (articles = []) then Ok (false, config)
  else
    let articles := analyze_sentiment w articles in
    let tickers_with_articles : gset string := list_to_set (map ticker articles) in
    let prices := fetch_price_data w tickers_with_articles in
    let* table := build_backtest_table articles prices in
    if bool_decide (table = []) then Ok (false, config)
    else
      let current := evaluate_thresholds table (BUY_THRESHOLD config)
                       (SELL_THRESHOLD config) (MIN_ARTICLES config) in
      let all_results := sweep_thresholds table in
      let* optimal := select_optimal all_results in
      match optimal with
      | None => Ok (false, config)
      | Some optimal =>
          if flt (accuracy current) (accuracy optimal)
          then Ok (true, {| BUY_THRESHOLD := buy_threshold optimal;
                            SELL_THRESHOLD := sell_threshold optimal;
                            MIN_ARTICLES := min_articles optimal |})
          else Ok (false, config)
      end.
End Backtester.

(** ** signal_generator.py *)

Section SignalGenerator.
Context `{Arith F}.

Definition _empty_signal (ticker : string) : Signal F :=
  {| signal := HOLD;
     score := of_Q 0;
     signal_confidence := of_Q 0;
     signal_article_count := 0;
     top_headline := "No recent news";
     display_name := default ticker (ASSET_DISPLAY_NAMES !! ticker) |}.

(** The loop variables of the weighted average. *)
Record Accumulator : Type := {
  weighted_sum : F;
  weight_total : F;
  best_article : option (Article F);
  best_confidence : F
}.

Definition accumulator0 : Accumulator :=
  {| weighted_sum := of_Q 0; weight_total := of_Q 0;
     best_article := None; best_confidence := of_Q 0 |}.

(** One iteration over the articles of a ticker. *)
Definition accumulate (acc : Accumulator) (art : Article F) : Accumulator :=
  let score := polarity art in
  let conf := weight art in
  if feq score (of_Q 0) && flt conf (of_Q (7 # 10)) then acc
  else
    let better := flt (best_confidence acc) conf in
    {| weighted_sum := fadd (weighted_sum acc) (fmul score conf);
       weight_total := fadd (weight_total acc) conf;
       best_article := if better then Some art else best_article acc;
       best_confidence := if better then conf else best_confidence acc |}.

(** [avg_score] after the loop over the articles of a ticker. *)
Definition avg_score_of (ticker_articles : list (Article F)) : F :=
  let acc := foldl accumulate accumulator0 ticker_articles in
  if flt (of_Q 0) (weight_total acc)
  then fdiv (weighted_sum acc) (weight_total acc) else of_Q 0.

(** The body of the loop over the watchlist, for a ticker with articles. *)
Definition aggregate (config : ThresholdConfig F) (ticker : string)
    (ticker_articles : list (Article F)) : Signal F :=
  let count := length ticker_articles in
  let acc := foldl accumulate accumulator0 ticker_articles in
  let avg_score := avg_score_of ticker_articles in
  let avg_confidence :=
    if (0 <? count)%nat
    then fdiv (weight_total acc) (of_Q (inject_Z (Z.of_nat count))) else of_Q 0 in
  let signal :=
    if flt (BUY_THRESHOLD config) avg_score && (MIN_ARTICLES config <=? Z.of_nat count)
    then BUY
    else if flt avg_score (SELL_THRESHOLD config)
            && (MIN_ARTICLES config <=? Z.of_nat count)
    then SELL
    else HOLD in
  {| signal := signal;
     score := fround avg_score 3;
     signal_confidence := fround (fmul avg_confidence (of_Q 100)) 1;
     signal_article_count := count;
     top_headline := match best_article acc with
                     | Some art => title art
                     | None => EmptyString
                     end;
     display_name := default ticker (ASSET_DISPLAY_NAMES !! ticker) |}.

(** Grouping by ticker into a [defaultdict(list)]. *)
Definition group_by_ticker (articles : list (Article F))
  : gmap string (list (Article F)) :=
  foldl (fun by_ticker art =>
           <[ticker art := default [] (by_ticker !! ticker art) ++ [art]]> by_ticker)
        ∅ articles.

Definition generate_signals (config : ThresholdConfig F)
    (articles : list (Article F)) : gmap string (Signal F) :=
  let by_ticker := group_by_ticker articles in
  foldl (fun signals ticker =>
           let ticker_articles := default [] (by_ticker !! ticker) in
           if (length ticker_articles =? 0)%nat
           then <[ticker := _empty_signal ticker]> signals
           else <[ticker := aggregate config ticker ticker_articles]> signals)
        ∅ ALL_TICKERS.
End SignalGenerator.

(** ** backtester.py: the per-ticker report *)

Section BacktesterReport.
Context `{Arith F}.

(** An entry of [ticker_stats]: the evaluation of the rows of a ticker with
    the key ["ticker"] added. *)
Record TickerStats : Type := {
  stats : EvaluationResult F;
  stats_ticker : string
}.

Definition per_ticker_accuracy (table : list (EvaluationRow F))
    (buy_thresh sell_thresh : F) (min_articles : Z) : gmap string TickerStats :=
  let by_ticker : gmap string (list (EvaluationRow F)) :=
    foldl (fun by_ticker row =>
             <[row_ticker row := default [] (by_ticker !! row_ticker row) ++ [row]]>
               by_ticker)
          ∅ table in
  foldl (fun ticker_stats '(ticker, rows) =>
           let stats := evaluate_thresholds rows buy_thresh sell_thresh min_articles in
           <[ticker := {| stats := stats; stats_ticker := ticker |}]> ticker_stats)
        ∅ (sorted (fun a b => str_lt a.1 b.1) (map_to_list by_ticker)).
End BacktesterReport.

(** ** news_collector.py *)

(** [needle in s] on strings. *)
Fixpoint contains (needle s : string) : bool :=
  String.prefix needle s
  || match s with
     | EmptyString => false
     | String _ s' => contains needle s'
     end.

Module NewsCollector.
Section Collector.
Context {F : Type}.

(** [str.strip], [str.lower] and [str.upper] are the interpreter's; the
    collector is read for any three functions on strings. *)
Variables strip lower upper : string -> string.

Definition keyword_map : list (string * string) :=
  [("GOLD", "GC=F"); ("CRUDE", "CL=F"); ("OIL", "CL=F"); ("SILVER", "SI=F");
   ("BITCOIN", "BTC-USD"); ("BTC", "BTC-USD");
   ("ETHEREUM", "ETH-USD"); ("ETH", "ETH-USD")].

Definition _match_ticker (text : string) : option string :=
  let text_upper := upper text in
  match List.find (fun ticker => contains ticker text_upper) STOCKS with
  | Some ticker => Some ticker
  | None =>
      match List.find (fun kv => contains kv.1 text_upper) keyword_map with
      | Some (_, ticker) => Some ticker
      | None => None
      end
  end.

Definition _deduplicate (articles : list (Article F)) : list (Article F) :=
  (foldl (fun '(seen_titles, unique) art =>
            let normalized := lower (strip (title art)) in
            if bool_decide (normalized <> EmptyString)
               && bool_decide (normalized ∉ seen_titles)
            then ({[normalized]} ∪ seen_titles, unique ++ [art])
            else (seen_titles, unique))
         ((∅ : gset string), []) articles).2.

(** What the three sources return to one call of [collect_all_news]. *)
Record Sources : Type := {
  collect_yahoo_rss : string -> list (Article F);
  collect_bloomberg : list (Article F);
  collect_newsapi : list (Article F)
}.

Definition collect_all_news (w : Sources) : list (Article F) :=
  let all_articles :=
    foldl (fun all_articles ticker => all_articles ++ collect_yahoo_rss w ticker)
          [] ALL_TICKERS in
  let all_articles := all_articles ++ collect_bloomberg w in
  let all_articles := all_articles ++ collect_newsapi w in
  let all_articles :=
    List.filter (fun a => bool_decide (strip (title a) <> EmptyString)) all_articles in
  _deduplicate all_articles.
End Collector.
End NewsCollector.

(** ** sentiment_analyzer.py *)

Module SentimentAnalyzer.
Section Analyzer.
Context `{Arith F}.

(** The tokenizer and the model on the texts of one batch: for every text
    the index of the most probable label and its probability, or an
    exception. *)
Variable classify : list (Article F) -> py (list (Z * F)).

Definition batch_size : nat := 16.

Definition label_map : gmap Z string :=
  <[2 := "neutral"]> (<[1 := "negative"]> (<[0 := "positive"]> ∅)).

(** [art["sentiment"] = label; art["confidence"] = conf] *)
Definition labelled (art : Article F) (label : string) (conf : F) : Article F :=
  {| title := title art; ticker := ticker art; published := published art;
     sentiment := Some label; confidence := Some conf |}.

(** [for j, art in enumerate(batch)], from position [j] on. *)
Fixpoint assign (batch : list (Article F)) (j : nat) (predictions : list (Z * F))
  : py (list (Article F)) :=
  match batch with
  | [] => Ok []
  | art :: batch' =>
      let* prediction := list_getitem predictions j in
      let* label := getitem label_map prediction.1 in
      let* rest := assign batch' (S j) predictions in
      Ok (labelled art label prediction.2 :: rest)
  end.

(** One iteration of the loop over the batches: the [try] block, and the
    [except] block, which overwrites every article of the batch. *)
Definition analyze_batch (batch : list (Article F)) : list (Article F) :=
  match (let* predictions := classify batch in assign batch 0 predictions) with
  | Ok batch' => batch'
  | Raise _ => map (fun art => labelled art "neutral" (of_Q 0)) batch
  end.

(** [range(0, n, step)] for a positive [step]. *)
Definition range_step (n step : nat) : list nat :=
  map (fun k => (k * step)%nat) (seq 0 ((n + step - 1) / step)).

(** The articles are updated in place, one slice [articles[i : i + batch_size]]
    after the other. *)
Definition analyze_sentiment (articles : list (Article F)) : list (Article F) :=
  if bool_decide (articles = []) then articles
  else
    foldl (fun articles i =>
             take i articles
             ++ analyze_batch (take batch_size (drop i articles))
             ++ drop (i + batch_size) articles)
          articles (range_step (length articles) batch_size).
End Analyzer.
End SentimentAnalyzer.

(** ** main.py *)

#[export] Instance SignalKind_eq_dec : EqDecision SignalKind.
Proof. solve_decision. Defined.

Section Pipeline.
Context `{Arith F}.

(** [sum(1 for s in signals.values() if s["signal"] == kind)] *)
Definition count_signals (kind : SignalKind) (signals : gmap string (Signal F)) : nat :=
  length (List.filter (fun s => bool_decide (signal s = kind))
                      (map_to_list signals).*2).

(** What one run of the pipeline leaves: the thresholds after the auto-tune
    step, and the signals with the three counts of the summary line, or
    nothing when no news was collected. *)
Definition run_pipeline (w : @Collaborators F) (collect_all_news : list (Article F))
    (config : ThresholdConfig F)
  : ThresholdConfig F * option (gmap string (Signal F) * (nat * nat * nat)) :=
  let config :=
    match auto_tune w config with
    | Ok (_, config') => config'
    | Raise _ => config
    end in
  let articles := collect_all_news in
  if bool_decide (articles = []) then (config, None)
  else
    let articles := analyze_sentiment w articles in
    let signals := generate_signals config articles in
    let buy_count := count_signals BUY signals in
    let sell_count := count_signals SELL signals in
    let hold_count := count_signals HOLD signals in
    (config, Some (signals, (buy_count, sell_count, hold_count))).
End Pipeline.

(** * Vocabulary of the statements *)

Section EvaluatorVocabulary.
Context `{Arith F}.

(** The branch of the loop body of [evaluate_thresholds] that a row takes. *)
Definition row_class (bt st : F) (m : Z) (row : EvaluationRow F) : SignalKind :=
  if article_count row <? m then HOLD
  else if flt bt (sentiment_score row) then BUY
  else if flt (sentiment_score row) st then SELL
  else HOLD.

Definition is_class (k : SignalKind) (bt st : F) (m : Z) (row : EvaluationRow F)
  : bool :=
  match k, row_class bt st m row with
  | BUY, BUY | SELL, SELL | HOLD, HOLD => true
  | _, _ => false
  end.

Definition went_up (row : EvaluationRow F) : bool :=
  flt (of_Q 0) (actual_change_pct row).
Definition went_down (row : EvaluationRow F) : bool :=
  flt (actual_change_pct row) (of_Q 0).

Definition count_rows (p : EvaluationRow F -> bool) (table : list (EvaluationRow F))
  : nat :=
  length (List.filter p table).
End EvaluatorVocabulary.

Section SortingVocabulary.
Context {A : Type} (lt : A -> A -> bool).

(** One step of keeping the best element seen so far. *)
Definition keep_best (best : option A) (x : A) : option A :=
  match best with
  | None => Some x
  | Some b => if lt b x then Some x else Some b
  end.

(** Python's [max(l)] on a list: the first of the greatest elements. *)
Definition first_max (l : list A) : option A := foldl keep_best None l.

(** Ascending for the sort: no later element is less than an earlier one. *)
Definition ascending : list A -> Prop :=
  StronglySorted (fun y z => lt z y = false).
End SortingVocabulary.

(** Example rows over the rationals. *)
Definition example_row (s change : Q) (count : Z) : EvaluationRow Q :=
  {| row_ticker := "AAPL"; row_date := "2024-01-02";
     sentiment_score := s; actual_change_pct := change; article_count := count |}.

Definition example_table : list (EvaluationRow Q) :=
  [example_row (3 # 10) 1 1; example_row (- 3 # 10) 1 2; example_row 0 (- 1) 3].

(** The thresholds a result was evaluated with. *)
Definition config_of {F} (r : EvaluationResult F) : F * F * Z :=
  (buy_threshold r, sell_threshold r, min_articles r).

(** [(accuracy, total_signals)] of the first result is below that of the
    second, lexicographically. *)
Definition key_below (r1 r2 : EvaluationResult Q) : Prop :=
  (accuracy r1 < accuracy r2)%Q
  \/ ((accuracy r1 == accuracy r2)%Q /\ (total_signals r1 < total_signals r2)%nat).

(** The grid of the sweep, as decimals. *)
Definition buy_grid : list Q :=
  [5 # 100; 10 # 100; 15 # 100; 20 # 100; 25 # 100; 30 # 100;
   35 # 100; 40 # 100; 45 # 100; 50 # 100; 55 # 100; 60 # 100].
Definition sell_grid : list Q :=
  [- 5 # 100; - 10 # 100; - 15 # 100; - 20 # 100; - 25 # 100; - 30 # 100;
   - 35 # 100; - 40 # 100; - 45 # 100; - 50 # 100; - 55 # 100; - 60 # 100].

(** The enumeration as the specification words it: buy within sell within
    min_articles, with the sell thresholds in the order they are listed. *)
Definition sweep_buy_within_sell (table : list (EvaluationRow Q))
  : list (EvaluationResult Q) :=
  min_art ← min_articles_options;
  st ← sell_range;
  bt ← buy_range;
  [evaluate_thresholds table bt st min_art].

(** The same with the sell thresholds in ascending numeric order. *)
Definition sweep_buy_within_sell_numeric (table : list (EvaluationRow Q))
  : list (EvaluationResult Q) :=
  min_art ← min_articles_options;
  st ← rev sell_range;
  bt ← buy_range;
  [evaluate_thresholds table bt st min_art].

(** One always-right BUY row, two rows that are BUY signals only at the
    lowest buy threshold and two that are SELL signals only at the highest
    sell threshold, one right and one wrong of each. *)
Definition tie_table : list (EvaluationRow Q) :=
  [example_row (9 # 10) 1 5;
   example_row (7 # 100) 1 5; example_row (7 # 100) (- 1) 5;
   example_row (- 7 # 100) (- 1) 5; example_row (- 7 # 100) 1 5].

(** The thresholds of a selected result, when there is one. *)
Definition selected_config (o : py (option (EvaluationResult Q)))
  : option (Q * Q * Z) :=
  match o with
  | Ok (Some r) => Some (config_of r)
  | _ => None
  end.

Section ResolverVocabulary.
Context `{Arith F}.

(** [cur] is the earliest known date on or after [ref]; it is [ref] itself
    when [ref] is known. *)
Definition is_snap (prices : gmap string F) (ref cur : string) : Prop :=
  is_Some (prices !! cur)
  /\ str_le ref cur = true
  /\ forall d, is_Some (prices !! d) -> str_le ref d = true -> str_le cur d = true.

(** [nxt] is the known date that follows [cur]. *)
Definition is_next (prices : gmap string F) (cur nxt : string) : Prop :=
  is_Some (prices !! nxt)
  /\ str_lt cur nxt = true
  /\ forall d, is_Some (prices !! d) -> str_lt cur d = true -> str_le nxt d = true.

(** The resolver as the specification words it. *)
Inductive resolves (prices : gmap string F) (ref : string) : option F -> Prop :=
| resolves_no_date :
    (forall d, is_Some (prices !! d) -> str_le ref d = false) ->
    resolves prices ref None
| resolves_last_date cur :
    is_snap prices ref cur ->
    (forall d, is_Some (prices !! d) -> str_le d cur = true) ->
    resolves prices ref None
| resolves_zero_price cur nxt p :
    is_snap prices ref cur -> is_next prices cur nxt ->
    prices !! cur = Some p -> feq p (of_Q 0) = true ->
    resolves prices ref None
| resolves_change cur nxt p q :
    is_snap prices ref cur -> is_next prices cur nxt ->
    prices !! cur = Some p -> prices !! nxt = Some q ->
    feq p (of_Q 0) = false ->
    resolves prices ref (Some (fmul (fdiv (fsub q p) p) (of_Q 100))).

(** The series of the round-trip scenario. *)
Definition two_day_series : gmap string F :=
  <["2024-01-03" := of_Q 102]> (<["2024-01-02" := of_Q 100]> ∅).
End ResolverVocabulary.

Section AutoTuneVocabulary.
Context `{Arith F}.

(** The evaluation table one run of [auto_tune] builds. *)
Definition backtest_table_of (w : @Collaborators F) : py (list (EvaluationRow F)) :=
  let articles := analyze_sentiment w (collect_historical_news w) in
  build_backtest_table articles
    (fetch_price_data w (list_to_set (map ticker articles))).

(** The live thresholds after an update to a result of the sweep. *)
Definition thresholds_of (r : EvaluationResult F) : ThresholdConfig F :=
  {| BUY_THRESHOLD := buy_threshold r;
     SELL_THRESHOLD := sell_threshold r;
     MIN_ARTICLES := min_articles r |}.

Definition scored (t d s : string) (c : Q) : Article F :=
  {| title := "headline"; ticker := t; published := d;
     sentiment := Some s; confidence := Some (of_Q c) |}.

(** Collaborators for one run: three scored articles on two days and three
    days of prices. *)
Definition example_run : @Collaborators F :=
  {| collect_historical_news :=
       [scored "AAPL" "2024-01-02" "positive" (9 # 10);
        scored "AAPL" "2024-01-03" "positive" (65 # 100);
        scored "AAPL" "2024-01-03" "negative" (35 # 100)];
     analyze_sentiment := fun articles => articles;
     fetch_price_data := fun _ =>
       {[ "AAPL" := <["2024-01-04" := of_Q 101]>
                     (<["2024-01-03" := of_Q 102]>
                       (<["2024-01-02" := of_Q 100]> ∅)) ]} |}.

(** Collaborators whose only article is neutral: its row is a HOLD under
    every configuration of the sweep. *)
Definition quiet_run : @Collaborators F :=
  {| collect_historical_news := [scored "AAPL" "2024-01-02" "neutral" (8 # 10)];
     analyze_sentiment := fun articles => articles;
     fetch_price_data := fun _ =>
       {[ "AAPL" := <["2024-01-03" := of_Q 102]>
                     (<["2024-01-02" := of_Q 100]> ∅) ]} |}.

(** Collaborators that return no article. *)
Definition no_news_run : @Collaborators F :=
  {| collect_historical_news := [];
     analyze_sentiment := fun articles => articles;
     fetch_price_data := fun _ => ∅ |}.
End AutoTuneVocabulary.

Section AggregatorVocabulary.
Context `{Arith F}.

(** The articles of one ticker, in the order they arrive. *)
Definition articles_of (t : string) (articles : list (Article F)) : list (Article F) :=
  List.filter (fun a => bool_decide (ticker a = t)) articles.

(** The articles whose ticker is on the watchlist. *)
Definition watched (articles : list (Article F)) : list (Article F) :=
  List.filter (fun a => bool_decide (ticker a ∈ ALL_TICKERS)) articles.

(** What the aggregator reports for a ticker of the watchlist. *)
Definition signal_for (config : ThresholdConfig F) (t : string)
    (articles : list (Article F)) : Signal F :=
  match articles_of t articles with
  | [] => _empty_signal t
  | arts => aggregate config t arts
  end.

(** The single low-confidence neutral article of the dilution scenario. *)
Definition diluted_article : Article F := scored "AAPL" "2024-01-02" "neutral" (4 # 10).

(** A neutral article that passes the dilution filter. *)
Definition neutral_article : Article F := scored "AAPL" "2024-01-02" "neutral" (8 # 10).

(** Thresholds with the sell threshold above the buy threshold. *)
Definition overlapping_config : ThresholdConfig F :=
  {| BUY_THRESHOLD := of_Q (- 5 # 10);
     SELL_THRESHOLD := of_Q (5 # 10);
     MIN_ARTICLES := 1 |}.
End AggregatorVocabulary.

(** * Vocabulary of the further properties *)

Section ScoreVocabulary.
Context `{Arith F}.

(** The dilution filter drops the article. *)
Definition diluted (art : Article F) : bool :=
  feq (polarity art) (of_Q 0) && flt (weight art) (of_Q (7 # 10)).

(** The loop of [compute_sentiment_score], from any two sums. *)
Definition score_sums (sums : F * F) (arts : list (Article F)) : F * F :=
  foldl (fun '(weighted_sum, weight_total) art =>
           (fadd weighted_sum (fmul (polarity art) (weight art)),
            fadd weight_total (weight art)))
        sums arts.

(** A positive article next to a low-confidence neutral one. *)
Definition mixed_articles : list (Article F) :=
  [scored "AAPL" "2024-01-02" "positive" (9 # 10);
   scored "AAPL" "2024-01-02" "neutral" (4 # 10)].

(** Two articles that both pass the dilution filter. *)
Definition opposed_articles : list (Article F) :=
  [scored "AAPL" "2024-01-02" "positive" (9 # 10);
   scored "AAPL" "2024-01-02" "negative" (3 # 10)].
End ScoreVocabulary.

Section TableVocabulary.
Context `{Arith F}.

(** The articles of one ticker published on one day, in the order they
    arrive. *)
Definition group_of (t d : string) (articles : list (Article F)) : list (Article F) :=
  List.filter (fun a => bool_decide ((ticker a, published a) = (t, d))) articles.

Definition row_key (row : EvaluationRow F) : string * string :=
  (row_ticker row, row_date row).

(** The row of a group, when its ticker has prices and the change resolves. *)
Definition row_of (prices : gmap string (gmap string F))
    (item : (string * string) * list (Article F)) : option (EvaluationRow F) :=
  match prices !! item.1.1 with
  | None => None
  | Some series =>
      match compute_next_day_change series item.1.2 with
      | Ok (Some change) =>
          Some {| row_ticker := item.1.1;
                  row_date := item.1.2;
                  sentiment_score := compute_sentiment_score item.2;
                  actual_change_pct := change;
                  article_count := Z.of_nat (length item.2) |}
      | _ => None
      end
  end.
End TableVocabulary.

Section ReportVocabulary.
Context `{Arith F}.

(** The rows of one ticker, in the order of the table. *)
Definition rows_of (t : string) (table : list (EvaluationRow F)) : list (EvaluationRow F) :=
  List.filter (fun row => bool_decide (row_ticker row = t)) table.

(** The entries of the per-ticker report, in the order of their tickers in
    the dict. *)
Definition ticker_entries (ticker_stats : gmap string (TickerStats (F:=F)))
  : list (EvaluationResult F) :=
  map stats (map_to_list ticker_stats).*2.
End ReportVocabulary.

Section CollectorVocabulary.
Context {F : Type}.
Variables strip lower : string -> string.

(** The key by which [_deduplicate] compares two articles. *)
Definition normalized (art : Article F) : string := lower (strip (title art)).

(** An article with a non-empty key that none of the articles before it has. *)
Definition fresh (before : list (Article F)) (art : Article F) : bool :=
  bool_decide (normalized art <> EmptyString)
  && bool_decide (normalized art ∉ map normalized before).

(** The articles of all sources, in the order [collect_all_news] reads
    them, and those of Yahoo alone. *)
Definition yahoo_articles (w : NewsCollector.Sources (F:=F)) : list (Article F) :=
  ticker ← ALL_TICKERS; NewsCollector.collect_yahoo_rss w ticker.

Definition source_articles (w : NewsCollector.Sources (F:=F)) : list (Article F) :=
  yahoo_articles w ++ NewsCollector.collect_bloomberg w ++ NewsCollector.collect_newsapi w.

Definition titled (art : Article F) : bool :=
  bool_decide (strip (title art) <> EmptyString).
End CollectorVocabulary.

(** [str.upper] on ASCII text, for the examples. *)
Definition ascii_upper_char (c : Ascii.ascii) : Ascii.ascii :=
  let n := Ascii.nat_of_ascii c in
  if ((97 <=? n) && (n <=? 122))%nat then Ascii.ascii_of_nat (n - 32) else c.

Fixpoint ascii_upper (s : string) : string :=
  match s with
  | EmptyString => EmptyString
  | String c s' => String (ascii_upper_char c) (ascii_upper s')
  end.

Section AnalyzerVocabulary.
Context `{Arith F}.

(** The slices [articles[i : i + batch_size]] that the loop of
    [analyze_sentiment] reads. *)
Definition slices (articles : list (Article F)) : list (list (Article F)) :=
  map (fun i => take SentimentAnalyzer.batch_size (drop i articles))
      (SentimentAnalyzer.range_step (length articles) SentimentAnalyzer.batch_size).

(** [out] is [art] with one of the three labels and a confidence. *)
Definition analysed (art out : Article F) : Prop :=
  exists (label : string) (conf : F),
    out = SentimentAnalyzer.labelled art label conf
    /\ label ∈ ["positive"; "negative"; "neutral"].

(** A classifier that always fails. *)
Definition failing_classifier (batch : list (Article F)) : py (list (Z * F)) :=
  Raise ValueError.

Definition unlabelled (t h : string) : Article F :=
  {| title := h; ticker := t; published := "2024-01-02";
     sentiment := None; confidence := None |}.
End AnalyzerVocabulary.

(** * Properties *)

(** ** The threshold evaluator *)

Section EvaluatorFacts.
Context `{Arith F}.
Implicit Types (row : EvaluationRow F) (table : list (EvaluationRow F)).
Implicit Types (c : Counters) (bt st : F) (m : Z).

Lemma count_rows_cons p row table :
  count_rows p (row :: table)
  = ((if p row then 1 else 0) + count_rows p table)%nat.
Proof. unfold count_rows. simpl. by destruct (p row). Qed.

Lemma count_rows_le p table : (count_rows p table <= length table)%nat.
Proof.
  induction table as [|row table IH]; [done|].
  rewrite count_rows_cons. simpl. destruct (p row); lia.
Qed.

Lemma count_rows_mono p q table :
  (forall row, p row = true -> q row = true) ->
  (count_rows p table <= count_rows q table)%nat.
Proof.
  intros Hpq. induction table as [|row table IH]; [done|].
  rewrite !count_rows_cons. specialize (Hpq row).
  destruct (p row) eqn:Hp, (q row) eqn:Hq;
    first [lia | specialize (Hpq eq_refl); congruence].
Qed.

Lemma count_rows_split p q table :
  count_rows p table
  = (count_rows (fun r => p r && q r) table
     + count_rows (fun r => p r && negb (q r)) table)%nat.
Proof.
  induction table as [|row table IH]; [done|].
  rewrite !count_rows_cons, IH. destruct (p row), (q row); simpl; lia.
Qed.

Lemma count_rows_classes bt st m table :
  (count_rows (is_class BUY bt st m) table
   + count_rows (is_class SELL bt st m) table
   + count_rows (is_class HOLD bt st m) table = length table)%nat
  /\ (count_rows (fun r => negb (is_class HOLD bt st m r)) table
      = count_rows (is_class BUY bt st m) table
        + count_rows (is_class SELL bt st m) table)%nat.
Proof.
  induction table as [|row table [IH1 IH2]]; [done|].
  rewrite !count_rows_cons. simpl length.
  unfold is_class in *. destruct (row_class bt st m row); simpl; lia.
Qed.

(** Every counter after the loop, started from any counters. *)
Lemma evaluate_rows_counters bt st m table c :
  let c' := foldl (evaluate_row bt st m) c table in
  c_tp_buy c' = (c_tp_buy c
    + count_rows (fun r => is_class BUY bt st m r && went_up r) table)%nat
  /\ c_fp_buy c' = (c_fp_buy c
    + count_rows (fun r => is_class BUY bt st m r && negb (went_up r)) table)%nat
  /\ c_tp_sell c' = (c_tp_sell c
    + count_rows (fun r => is_class SELL bt st m r && went_down r) table)%nat
  /\ c_fp_sell c' = (c_fp_sell c
    + count_rows (fun r => is_class SELL bt st m r && negb (went_down r)) table)%nat
  /\ c_hold_count c' = (c_hold_count c + count_rows (is_class HOLD bt st m) table)%nat
  /\ c_total_signals c' = (c_total_signals c
    + count_rows (fun r => negb (is_class HOLD bt st m r)) table)%nat.
Proof.
  revert c. induction table as [|row table IH]; intros c; simpl.
  { unfold count_rows; simpl. lia. }
  rewrite !count_rows_cons.
  destruct (IH (evaluate_row bt st m c row)) as (H1 & H2 & H3 & H4 & H5 & H6).
  rewrite H1, H2, H3, H4, H5, H6. clear IH H1 H2 H3 H4 H5 H6.
  unfold evaluate_row, is_class, row_class, went_up, went_down.
  destruct (article_count row <? m); simpl; [lia|].
  destruct (flt bt (sentiment_score row)); simpl.
  { destruct (flt (of_Q 0) (actual_change_pct row)); simpl; lia. }
  destruct (flt (sentiment_score row) st); simpl.
  { destruct (flt (actual_change_pct row) (of_Q 0)); simpl; lia. }
  lia.
Qed.

(** The counters of a result, read off the table. *)
Lemma evaluate_thresholds_counts bt st m table :
  let r := evaluate_thresholds table bt st m in
  (tp_buy r + fp_buy r)%nat = count_rows (is_class BUY bt st m) table
  /\ (tp_sell r + fp_sell r)%nat = count_rows (is_class SELL bt st m) table
  /\ hold_count r = count_rows (is_class HOLD bt st m) table
  /\ total_signals r = (count_rows (is_class BUY bt st m) table
                        + count_rows (is_class SELL bt st m) table)%nat
  /\ correct r = (tp_buy r + tp_sell r)%nat.
Proof.
  destruct (evaluate_rows_counters bt st m table counters0)
    as (H1 & H2 & H3 & H4 & H5 & H6).
  destruct (count_rows_classes bt st m table) as [_ Hc].
  unfold evaluate_thresholds.
  cbn [tp_buy fp_buy tp_sell fp_sell hold_count total_signals correct].
  rewrite H1, H2, H3, H4, H5, H6, Hc.
  cbn [counters0 c_tp_buy c_fp_buy c_tp_sell c_fp_sell c_hold_count c_total_signals].
  rewrite (count_rows_split (is_class BUY bt st m) went_up table).
  rewrite (count_rows_split (is_class SELL bt st m) went_down table).
  repeat split; lia.
Qed.

Lemma evaluate_thresholds_accuracy bt st m table :
  let r := evaluate_thresholds table bt st m in
  accuracy r = if (0 <? total_signals r)%nat
               then of_Q (Qmake (Z.of_nat (correct r)) (Pos.of_nat (total_signals r)))
               else of_Q 0.
Proof. reflexivity. Qed.
(** The effect of one row on the counters, by the branch it takes. *)
Lemma evaluate_row_class bt st m c row :
  let c' := evaluate_row bt st m c row in
  match row_class bt st m row with
  | BUY => (c_tp_buy c' + c_fp_buy c' = c_tp_buy c + c_fp_buy c + 1)%nat
           /\ (c_tp_sell c' + c_fp_sell c' = c_tp_sell c + c_fp_sell c)%nat
           /\ c_hold_count c' = c_hold_count c
           /\ c_total_signals c' = (c_total_signals c + 1)%nat
  | SELL => (c_tp_buy c' + c_fp_buy c' = c_tp_buy c + c_fp_buy c)%nat
            /\ (c_tp_sell c' + c_fp_sell c' = c_tp_sell c + c_fp_sell c + 1)%nat
            /\ c_hold_count c' = c_hold_count c
            /\ c_total_signals c' = (c_total_signals c + 1)%nat
  | HOLD => (c_tp_buy c' + c_fp_buy c' = c_tp_buy c + c_fp_buy c)%nat
            /\ (c_tp_sell c' + c_fp_sell c' = c_tp_sell c + c_fp_sell c)%nat
            /\ c_hold_count c' = (c_hold_count c + 1)%nat
            /\ c_total_signals c' = c_total_signals c
  end.
Proof.
  unfold evaluate_row, row_class.
  destruct (article_count row <? m); simpl; [lia|].
  destruct (flt bt (sentiment_score row)); simpl.
  { destruct (flt (of_Q 0) (actual_change_pct row)); simpl; lia. }
  destruct (flt (sentiment_score row) st); simpl; [|lia].
  destruct (flt (actual_change_pct row) (of_Q 0)); simpl; lia.
Qed.

Lemma row_class_hold_mono bt st m1 m2 row :
  m1 <= m2 -> row_class bt st m1 row = HOLD -> row_class bt st m2 row = HOLD.
Proof.
  unfold row_class. intros Hm.
  destruct (Z.ltb_spec (article_count row) m1) as [Hlt|Hge].
  { intros _. destruct (Z.ltb_spec (article_count row) m2); [done|lia]. }
  destruct (article_count row <? m2); [done|]. done.
Qed.
End EvaluatorFacts.

(** A fraction of a positive count lies between 0 and 1. *)
Lemma fraction_bounds (c t : nat) :
  (c <= t)%nat -> (0 < t)%nat ->
  (0 <= Qmake (Z.of_nat c) (Pos.of_nat t) <= 1)%Q.
Proof.
  intros Hle Hpos.
  assert (Hden : Z.pos (Pos.of_nat t) = Z.of_nat t).
  { rewrite <- positive_nat_Z, Nat2Pos.id by lia. done. }
  unfold Qle; cbn [Qnum Qden]. rewrite Hden. lia.
Qed.

(** The accuracy of a result over the rationals is a fraction of the signals. *)
Lemma accuracy_bounds_Q (table : list (EvaluationRow Q)) (bt st : Q) (m : Z) :
  (0 <= accuracy (evaluate_thresholds table bt st m) <= 1)%Q.
Proof.
  destruct (evaluate_thresholds_counts bt st m table) as (Hb & Hs & _ & Ht & Hc).
  pose proof (evaluate_thresholds_accuracy bt st m table) as Ha.
  cbv zeta in Ha, Hb, Hs, Ht, Hc.
  set (r := evaluate_thresholds table bt st m) in *.
  rewrite Ha.
  destruct (Nat.ltb_spec 0 (total_signals r)) as [Hpos|Hz].
  - apply fraction_bounds; lia.
  - split; [apply Qle_refl | discriminate].
Qed.

(** In binary64 the quotients of up to 64 signals stay between 0.0 and 1.0. *)
Lemma accuracy_bounds_binary64_small :
  forallb (fun t : nat =>
             forallb (fun c : nat =>
                        let a := float_of_Q (Qmake (Z.of_nat c) (Pos.of_nat t)) in
                        PrimFloat.leb 0%float a && PrimFloat.leb a 1%float)
                     (seq 0 (S t)))
          (seq 1 64) = true.
Proof. vm_compute. reflexivity. Qed.

(** C2: every row is classified exactly once, [correct] is the sum of the two
    true-positive counts and never exceeds the number of signals, the accuracy
    is [0.0] without signals and the quotient [correct / total_signals]
    otherwise, and that quotient lies between 0 and 1. *)
Theorem evaluate_thresholds_invariants :
  (forall (F : Type) (A : Arith F) (table : list (EvaluationRow F))
          (bt st : F) (m : Z),
      let r := evaluate_thresholds table bt st m in
      (total_signals r + hold_count r = length table)%nat
      /\ total_signals r = (tp_buy r + fp_buy r + tp_sell r + fp_sell r)%nat
      /\ correct r = (tp_buy r + tp_sell r)%nat
      /\ (correct r <= total_signals r)%nat
      /\ accuracy r
         = if (total_signals r =? 0)%nat then of_Q 0
           else of_Q (Qmake (Z.of_nat (correct r)) (Pos.of_nat (total_signals r))))
  /\ (forall (table : list (EvaluationRow Q)) (bt st : Q) (m : Z),
        let r := evaluate_thresholds table bt st m in
        (0 <= accuracy r <= 1)%Q
        /\ (if (total_signals r =? 0)%nat then accuracy r = 0%Q else True)).
Proof.
  split.
  - intros F A table bt st m r.
    destruct (evaluate_thresholds_counts bt st m table) as (Hb & Hs & Hh & Ht & Hc).
    destruct (count_rows_classes bt st m table) as [Hsum _].
    pose proof (evaluate_thresholds_accuracy bt st m table) as Ha.
    cbv zeta in Hb, Hs, Hh, Ht, Hc, Ha. fold r in Hb, Hs, Hh, Ht, Hc, Ha.
    repeat split; try lia.
    rewrite Ha. destruct (total_signals r); reflexivity.
  - intros table bt st m r. split; [apply accuracy_bounds_Q|].
    pose proof (evaluate_thresholds_accuracy bt st m table) as Ha.
    cbv zeta in Ha. fold r in Ha.
    rewrite Ha. destruct (total_signals r); reflexivity || exact I.
Qed.

(** C7: a row adds one to exactly one of the BUY counters, the SELL counters
    and the HOLD counter, so never to BUY and SELL together; a row with enough
    articles whose score is above the buy threshold and below the sell
    threshold is counted as BUY; over a table the BUY signals are the rows with
    enough articles and a score above the buy threshold, whatever the sell
    threshold. *)
Theorem evaluate_row_buy_checked_first (F : Type) (A : Arith F)
    (bt st : F) (m : Z) :
  (forall (c : Counters) (row : EvaluationRow F),
      let c' := evaluate_row bt st m c row in
      let buys x := (c_tp_buy x + c_fp_buy x)%nat in
      let sells x := (c_tp_sell x + c_fp_sell x)%nat in
      ((buys c' = buys c + 1 /\ sells c' = sells c
        /\ c_hold_count c' = c_hold_count c)
       \/ (buys c' = buys c /\ sells c' = sells c + 1
           /\ c_hold_count c' = c_hold_count c)
       \/ (buys c' = buys c /\ sells c' = sells c
           /\ c_hold_count c' = c_hold_count c + 1))%nat
      /\ (m <= article_count row ->
          flt bt (sentiment_score row) = true ->
          flt (sentiment_score row) st = true ->
          (buys c' = buys c + 1 /\ sells c' = sells c
           /\ c_hold_count c' = c_hold_count c)%nat))
  /\ (forall table : list (EvaluationRow F),
        let r := evaluate_thresholds table bt st m in
        (tp_buy r + fp_buy r)%nat
        = length (List.filter
                    (fun row => (m <=? article_count row)
                                && flt bt (sentiment_score row)) table)).
Proof.
  split.
  - intros c row c' buys sells.
    pose proof (evaluate_row_class bt st m c row) as Hc.
    cbv zeta in Hc. subst c' buys sells. cbv beta.
    split.
    + destruct (row_class bt st m row); lia.
    + intros Hm Hb Hs. unfold row_class in Hc.
      destruct (Z.ltb_spec (article_count row) m); [lia|].
      rewrite Hb in Hc. lia.
  - intros table r.
    destruct (evaluate_thresholds_counts bt st m table) as (Hb & _).
    subst r. rewrite Hb. unfold count_rows. f_equal.
    apply filter_ext. intros row. unfold is_class, row_class.
    rewrite Z.leb_antisym.
    destruct (article_count row <? m); simpl; [done|].
    destruct (flt bt (sentiment_score row)); [done|].
    by destruct (flt (sentiment_score row) st).
Qed.

(** C9: with the thresholds fixed, a larger [min_articles] never lowers
    [hold_count] and never raises [total_signals]; a row that is a HOLD stays
    a HOLD. *)
Theorem hold_count_monotone_in_min_articles (F : Type) (A : Arith F)
    (table : list (EvaluationRow F)) (bt st : F) (m1 m2 : Z) :
  m1 <= m2 ->
  (hold_count (evaluate_thresholds table bt st m1)
   <= hold_count (evaluate_thresholds table bt st m2))%nat
  /\ (total_signals (evaluate_thresholds table bt st m2)
      <= total_signals (evaluate_thresholds table bt st m1))%nat
  /\ (forall (c : Counters) (row : EvaluationRow F),
        c_hold_count (evaluate_row bt st m1 c row) = S (c_hold_count c) ->
        c_hold_count (evaluate_row bt st m2 c row) = S (c_hold_count c)).
Proof.
  intros Hm.
  assert (Hmono : (count_rows (is_class HOLD bt st m1) table
                   <= count_rows (is_class HOLD bt st m2) table)%nat).
  { apply count_rows_mono. intros row. unfold is_class.
    pose proof (row_class_hold_mono bt st m1 m2 row Hm) as Hrow.
    destruct (row_class bt st m1 row); try done. by rewrite Hrow. }
  destruct (evaluate_thresholds_counts bt st m1 table) as (_ & _ & Hh1 & Ht1 & _).
  destruct (evaluate_thresholds_counts bt st m2 table) as (_ & _ & Hh2 & Ht2 & _).
  destruct (count_rows_classes bt st m1 table) as [Hs1 _].
  destruct (count_rows_classes bt st m2 table) as [Hs2 _].
  split; [lia|]. split; [lia|].
  intros c row H1.
  pose proof (evaluate_row_class bt st m1 c row) as Hc1.
  pose proof (evaluate_row_class bt st m2 c row) as Hc2.
  cbv zeta in Hc1, Hc2.
  pose proof (row_class_hold_mono bt st m1 m2 row Hm) as Hrow.
  destruct (row_class bt st m1 row); try lia.
  rewrite Hrow in Hc2 by done. lia.
Qed.

(** A row in the overlap of misconfigured thresholds is a BUY. *)
Lemma evaluate_row_buy_checked_first_witness :
  let c' := evaluate_row (F:=Q) (1 # 10) (5 # 10) 1 counters0
              (example_row (3 # 10) 1 1) in
  (c_tp_buy c' + c_fp_buy c' = 1)%nat /\ (c_tp_sell c' + c_fp_sell c' = 0)%nat.
Proof.
  destruct (evaluate_row_buy_checked_first Q Q_arith (1 # 10) (5 # 10) 1) as [Hrow _].
  destruct (Hrow counters0 (example_row (3 # 10) 1 1)) as [_ Hov].
  destruct Hov as (Hb & Hs & _).
  - vm_compute. congruence.
  - reflexivity.
  - reflexivity.
  - split; [exact Hb | exact Hs].
Defined.

Lemma hold_count_monotone_witness :
  1 <= 2
  /\ (hold_count (evaluate_thresholds example_table (2 # 10) (- 2 # 10) 1)
      <= hold_count (evaluate_thresholds example_table (2 # 10) (- 2 # 10) 2))%nat.
Proof.
  split; [lia|].
  apply (hold_count_monotone_in_min_articles Q Q_arith example_table
           (2 # 10) (- 2 # 10) 1 2).
  lia.
Defined.

(** ** Sorting *)

Section SortingFacts.
Context {A : Type} (lt : A -> A -> bool).

Lemma insert_sorted_perm x l : insert_sorted lt x l ≡ₚ x :: l.
Proof.
  induction l as [|y l IH]; simpl; [done|].
  destruct (lt y x); [|done].
  rewrite IH. apply Permutation_swap.
Qed.

Lemma sorted_perm l : sorted lt l ≡ₚ l.
Proof.
  induction l as [|x l IH]; simpl; [done|].
  by rewrite insert_sorted_perm, IH.
Qed.

Lemma sort_reverse_perm l : sort_reverse lt l ≡ₚ l.
Proof.
  unfold sort_reverse.
  rewrite <- Permutation_rev, sorted_perm. symmetry. apply Permutation_rev.
Qed.

Lemma sort_reverse_nil l : sort_reverse lt l = [] -> l = [].
Proof.
  intros Hnil. apply Permutation_nil. by rewrite <- Hnil, sort_reverse_perm.
Qed.

Lemma first_max_snoc l x : first_max lt (l ++ [x]) = keep_best lt (first_max lt l) x.
Proof. unfold first_max. by rewrite foldl_app. Qed.

Lemma first_max_None l : first_max lt l = None -> l = [].
Proof.
  destruct l as [|x l] using rev_ind; [done|].
  rewrite first_max_snoc. by destruct (first_max lt l) as [b|]; simpl; [destruct (lt b x)|].
Qed.

Hypothesis lt_asym : forall a b, lt a b = true -> lt b a = false.
Hypothesis lt_negtrans :
  forall a b c, lt a b = false -> lt b c = false -> lt a c = false.

Lemma lt_trans_l a b c : lt a b = true -> lt b c = true -> lt a c = true.
Proof using lt_asym lt_negtrans.
  intros Hab Hbc. destruct (lt a c) eqn:Hac; [done|].
  apply lt_asym in Hbc.
  by rewrite (lt_negtrans a c b Hac Hbc) in Hab.
Qed.

Lemma lt_le_trans a b c : lt a b = false -> lt a c = true -> lt b c = true.
Proof using lt_negtrans.
  intros Hba Hac. destruct (lt b c) eqn:Hbc; [done|].
  by rewrite (lt_negtrans a b c) in Hac.
Qed.

Lemma insert_sorted_ascending x s :
  ascending lt s -> ascending lt (insert_sorted lt x s).
Proof using lt_asym lt_negtrans.
  unfold ascending. induction 1 as [|y s Hs IH Hy]; simpl.
  { repeat constructor. }
  destruct (lt y x) eqn:Hyx.
  - constructor; [done|].
    rewrite insert_sorted_perm. constructor; [by apply lt_asym | done].
  - constructor; [by constructor|].
    constructor; [done|].
    eapply Forall_impl; [exact Hy|]. intros z Hz. simpl in Hz.
    by apply (lt_negtrans z y x).
Qed.

Lemma sorted_ascending l : ascending lt (sorted lt l).
Proof using lt_asym lt_negtrans.
  induction l as [|x l IH]; simpl; [constructor|].
  by apply insert_sorted_ascending.
Qed.

Lemma insert_sorted_last x s :
  ascending lt s -> last (insert_sorted lt x s) = keep_best lt (last s) x.
Proof using lt_negtrans.
  unfold ascending. induction 1 as [|y s Hs IH Hy]; simpl; [done|].
  destruct (lt y x) eqn:Hyx.
  - destruct s as [|z s]; simpl in *; [by rewrite Hyx|].
    rewrite <- IH. destruct (lt z x); done.
  - destruct (last (y :: s)) as [b|] eqn:Hb; [|by apply last_None in Hb].
    simpl. assert (Hbx : lt b x = false); [|by rewrite Hbx].
    destruct s as [|z s]; [simpl in Hb; by simplify_eq|].
    change (last (y :: z :: s)) with (last (z :: s)) in Hb.
    apply last_Some_elem_of in Hb.
    rewrite Forall_forall in Hy. apply (lt_negtrans b y x); [|done].
    by apply Hy.
Qed.

Lemma head_rev_last (l : list A) : head (rev l) = last l.
Proof.
  induction l as [|x l IH] using rev_ind; [done|].
  by rewrite rev_unit, last_snoc.
Qed.

(** The head of a list sorted in reverse is its first greatest element. *)
Lemma sort_reverse_head l : head (sort_reverse lt l) = first_max lt l.
Proof using lt_asym lt_negtrans.
  unfold sort_reverse. rewrite head_rev_last.
  induction l as [|x l IH] using rev_ind; [done|].
  rewrite rev_unit, first_max_snoc, <- IH. simpl.
  apply insert_sorted_last, sorted_ascending.
Qed.

Lemma first_max_spec l r :
  first_max lt l = Some r ->
  exists l1 l2, l = l1 ++ r :: l2
    /\ Forall (fun y => lt y r = true) l1
    /\ Forall (fun y => lt r y = false) l2.
Proof using lt_asym lt_negtrans.
  revert r. induction l as [|x l IH] using rev_ind; intros r; [done|].
  rewrite first_max_snoc. destruct (first_max lt l) as [b|] eqn:Hb; simpl.
  - destruct (IH b eq_refl) as (l1 & l2 & -> & H1 & H2).
    destruct (lt b x) eqn:Hbx; intros [= <-].
    + exists (l1 ++ b :: l2), []. split; [done|]. split; [|constructor].
      apply Forall_app. split.
      * eapply Forall_impl; [exact H1|]. intros y Hy. simpl in Hy.
        by apply (lt_trans_l y b x).
      * constructor; [done|].
        eapply Forall_impl; [exact H2|]. intros y Hy. simpl in Hy.
        by apply (lt_le_trans b y x).
    + exists l1, (l2 ++ [x]). split; [by rewrite <- app_assoc|]. split; [done|].
      apply Forall_app. split; [done|]. by constructor.
  - intros [= <-]. apply first_max_None in Hb as ->.
    exists [], []. repeat split; constructor.
Qed.
End SortingFacts.

(** A split of a filtered list comes from a split of the list. *)
Lemma filter_split {A} (p : A -> bool) (l : list A) (l1 l2 : list A) (r : A) :
  List.filter p l = l1 ++ r :: l2 ->
  exists l1' l2', l = l1' ++ r :: l2'
    /\ List.filter p l1' = l1 /\ List.filter p l2' = l2 /\ p r = true.
Proof.
  revert l1. induction l as [|x l IH]; intros l1; simpl.
  { by destruct l1. }
  destruct (p x) eqn:Hx.
  - destruct l1 as [|y l1]; simpl.
    + intros [= -> Hl]. exists [], l. by rewrite Hl.
    + intros [= -> Hl]. destruct (IH l1 Hl) as (l1' & l2' & -> & H1 & H2 & Hr).
      exists (y :: l1'), l2'. simpl. rewrite Hx, H1. done.
  - intros Hl. destruct (IH l1 Hl) as (l1' & l2' & -> & H1 & H2 & Hr).
    exists (x :: l1'), l2'. simpl. rewrite Hx. done.
Qed.

(** ** The selection of the optimal thresholds *)

Section SelectionFacts.
Context `{Arith F}.
Implicit Types (all : list (EvaluationResult F)) (r : EvaluationResult F).

Lemma filter_nil_iff {A} (p : A -> bool) (l : list A) :
  List.filter p l = [] <-> forall x, x ∈ l -> p x = false.
Proof.
  induction l as [|y l IH]; simpl.
  { split; [intros _ x Hx; by apply elem_of_nil in Hx | done]. }
  destruct (p y) eqn:Hy.
  - split; [done|]. intros Hall. rewrite Hall in Hy; [done | by left].
  - rewrite IH. split.
    + intros Hall x [->|Hx]%elem_of_cons; auto.
    + intros Hall x Hx. apply Hall. by right.
Qed.

Lemma elem_of_list_filter_bool {A} (p : A -> bool) (l : list A) (x : A) :
  x ∈ List.filter p l <-> x ∈ l /\ p x = true.
Proof. rewrite !list_elem_of_In. apply filter_In. Qed.

(** The strict filter when some result has three signals. *)
Lemma viable_results_strict all :
  (exists r, r ∈ all /\ (3 <= total_signals r)%nat) ->
  viable_results all = List.filter (fun r => (3 <=? total_signals r)%nat) all.
Proof.
  intros (r & Hr & H3). unfold viable_results. case_bool_decide as Hnil; [|done].
  rewrite filter_nil_iff in Hnil. specialize (Hnil r Hr).
  apply Nat.leb_gt in Hnil. lia.
Qed.

(** The relaxed filter when no result has three signals. *)
Lemma viable_results_relaxed all :
  (forall r, r ∈ all -> (total_signals r < 3)%nat) ->
  viable_results all = List.filter (fun r => (1 <=? total_signals r)%nat) all.
Proof.
  intros Hall. unfold viable_results. case_bool_decide as Hnil; [done|].
  destruct Hnil. apply filter_nil_iff. intros r Hr.
  apply Nat.leb_gt. by apply Hall.
Qed.

Lemma viable_results_nil all :
  viable_results all = [] <-> forall r, r ∈ all -> total_signals r = 0%nat.
Proof.
  unfold viable_results. case_bool_decide as Hnil.
  - rewrite filter_nil_iff. split.
    + intros Hall r Hr. specialize (Hall r Hr). apply Nat.leb_gt in Hall. lia.
    + intros Hall r Hr. rewrite (Hall r Hr). done.
  - split; [done|]. intros Hall. destruct Hnil. apply filter_nil_iff.
    intros r Hr. by rewrite (Hall r Hr).
Qed.

Lemma viable_results_elem all r :
  r ∈ viable_results all -> r ∈ all /\ (1 <= total_signals r)%nat.
Proof.
  unfold viable_results. case_bool_decide as Hnil;
    rewrite elem_of_list_filter_bool; intros [Hr Hn]; split; try done;
    apply Nat.leb_le in Hn; lia.
Qed.

(** The selection takes the head of the sorted viable results; it never
    raises. *)
Lemma select_optimal_head all :
  select_optimal all = Ok (head (sort_reverse key_lt (viable_results all))).
Proof.
  unfold select_optimal. case_bool_decide as Hnil.
  { by rewrite Hnil. }
  destruct (sort_reverse key_lt (viable_results all)) as [|r l] eqn:Hs; [|done].
  by apply sort_reverse_nil in Hs.
Qed.

Lemma select_optimal_None all :
  select_optimal all = Ok None <-> forall r, r ∈ all -> total_signals r = 0%nat.
Proof.
  rewrite select_optimal_head, <- viable_results_nil. split.
  - intros [= Hh]. apply (sort_reverse_nil key_lt).
    by destruct (sort_reverse key_lt (viable_results all)).
  - by intros ->.
Qed.

Lemma select_optimal_Some all r :
  select_optimal all = Ok (Some r) -> r ∈ viable_results all.
Proof.
  rewrite select_optimal_head. intros [= Hh].
  rewrite <- (sort_reverse_perm key_lt). apply head_Some_elem_of. done.
Qed.

Lemma select_optimal_total all : exists o, select_optimal all = Ok o.
Proof. rewrite select_optimal_head. eauto. Qed.
End SelectionFacts.

(** *** The sort key over the rationals *)

Lemma Qltb_lt (x y : Q) : Qltb x y = true <-> (x < y)%Q.
Proof.
  unfold Qltb. rewrite negb_true_iff, <- not_true_iff_false, Qle_bool_iff.
  split; [apply Qnot_le_lt | apply Qlt_not_le].
Qed.

Lemma key_lt_below (r1 r2 : EvaluationResult Q) :
  key_lt r1 r2 = true <-> key_below r1 r2.
Proof.
  unfold key_lt, key_below. cbn [feq flt Q_arith].
  destruct (Qeq_bool (accuracy r1) (accuracy r2)) eqn:Heq.
  - apply Qeq_bool_iff in Heq. rewrite Nat.ltb_lt. split.
    + intros Hlt. by right.
    + intros [Hlt|[_ Hlt]]; [|done]. rewrite Heq in Hlt.
      by apply Qlt_irrefl in Hlt.
  - apply Qeq_bool_neq in Heq. rewrite Qltb_lt. split; [by left|].
    by intros [Hlt|[Heq' _]].
Qed.

Lemma key_lt_asym (a b : EvaluationResult Q) :
  key_lt a b = true -> key_lt b a = false.
Proof.
  rewrite <- not_true_iff_false, !key_lt_below. unfold key_below.
  intros [H1|[H1 H2]] [H3|[H3 H4]]; try lra; lia.
Qed.

Lemma key_lt_negtrans (a b c : EvaluationResult Q) :
  key_lt a b = false -> key_lt b c = false -> key_lt a c = false.
Proof.
  rewrite <- !not_true_iff_false, !key_lt_below. unfold key_below.
  intros Hab Hbc Hac.
  assert (accuracy b <= accuracy a)%Q by (apply Qnot_lt_le; tauto).
  assert (accuracy c <= accuracy b)%Q by (apply Qnot_lt_le; tauto).
  destruct Hac as [Hac|[Hac Hn]]; [lra|].
  assert (accuracy a == accuracy b)%Q by lra.
  assert (accuracy b == accuracy c)%Q by lra.
  assert (~ (total_signals a < total_signals b)%nat) by tauto.
  assert (~ (total_signals b < total_signals c)%nat) by tauto.
  lia.
Qed.

(** Over the rationals the selection is the first of the greatest viable
    results. *)
Lemma select_optimal_first_max (all : list (EvaluationResult Q)) :
  select_optimal all = Ok (first_max key_lt (viable_results all)).
Proof.
  rewrite select_optimal_head.
  by rewrite (sort_reverse_head key_lt key_lt_asym key_lt_negtrans).
Qed.

(** The selected result, by its position among all results: the viable
    results before it are strictly below it, none after it is above it. *)
Lemma select_optimal_position (all : list (EvaluationResult Q))
    (r : EvaluationResult Q) :
  select_optimal all = Ok (Some r) ->
  exists before after, all = before ++ r :: after
    /\ r ∈ viable_results all
    /\ (forall r', r' ∈ before -> r' ∈ viable_results all -> key_below r' r)
    /\ (forall r', r' ∈ after -> r' ∈ viable_results all -> ~ key_below r r').
Proof.
  intros Hsel. pose proof (select_optimal_Some all r Hsel) as Hr.
  rewrite select_optimal_first_max in Hsel. injection Hsel as Hmax.
  destruct (first_max_spec key_lt key_lt_asym key_lt_negtrans _ _ Hmax)
    as (l1 & l2 & Hsplit & H1 & H2).
  assert (Hfilter : exists p, viable_results all = List.filter p all).
  { unfold viable_results. case_bool_decide; eauto. }
  destruct Hfilter as [p Hp]. rewrite Hp in Hsplit, Hr |- *.
  destruct (filter_split p all l1 l2 r Hsplit) as (b & a & -> & Hb & Ha & Hpr).
  exists b, a. split; [done|]. split; [done|].
  rewrite Forall_forall in H1, H2. split.
  - intros r' Hin Hv. apply key_lt_below, H1. rewrite <- Hb.
    apply elem_of_list_filter_bool. split; [done|].
    by apply elem_of_list_filter_bool in Hv as [_ ?].
  - intros r' Hin Hv. rewrite <- key_lt_below, not_true_iff_false.
    apply H2. rewrite <- Ha.
    apply elem_of_list_filter_bool. split; [done|].
    by apply elem_of_list_filter_bool in Hv as [_ ?].
Qed.

(** *** The grid *)

Lemma buy_range_Q : buy_range (F:=Q) = buy_grid.
Proof. vm_compute. reflexivity. Qed.

Lemma sell_range_Q : sell_range (F:=Q) = sell_grid.
Proof. vm_compute. reflexivity. Qed.

(** In binary64 the grid holds the doubles nearest to the decimals. *)
Lemma sweep_grid_binary64 :
  buy_range (F:=float) = map float_of_Q buy_grid
  /\ sell_range (F:=float) = map float_of_Q sell_grid.
Proof. split; vm_compute; reflexivity. Qed.

Lemma length_bind_const {A B} (f : A -> list B) (l : list A) (n : nat) :
  (forall x, length (f x) = n) -> length (l ≫= f) = (length l * n)%nat.
Proof.
  intros Hf. induction l as [|x l IH]; [done|].
  rewrite bind_cons, length_app, Hf, IH. done.
Qed.

Lemma sweep_thresholds_length `{Arith F} (table : list (EvaluationRow F)) :
  length (sweep_thresholds table) = 576%nat.
Proof.
  unfold sweep_thresholds.
  rewrite (length_bind_const _ _ 144); [done|]. intros m.
  rewrite (length_bind_const _ _ 12).
  { unfold buy_range. by rewrite length_map, length_seqZ. }
  intros bt. rewrite (length_bind_const _ _ 1); [|done].
  unfold sell_range. by rewrite length_map, length_seqZ.
Qed.

(** C1 (as the code has it): the sweep evaluates the 576 configurations of
    the grid, min_articles outermost, then the buy thresholds 0.05 to 0.60,
    and the sell thresholds -0.05 down to -0.60 innermost; the selection never
    fails, and a selected result is viable, every viable result before it in
    that order has a strictly smaller (accuracy, total_signals), and no viable
    result after it has a greater one. *)
Theorem sweep_selects_first_best (table : list (EvaluationRow Q)) :
  sweep_thresholds table
  = (min_art ← [1; 2; 3; 5]; bt ← buy_grid; st ← sell_grid;
     [evaluate_thresholds table bt st min_art])
  /\ length (sweep_thresholds table) = 576%nat
  /\ (buy_range (F:=float) = map float_of_Q buy_grid
      /\ sell_range (F:=float) = map float_of_Q sell_grid)
  /\ (exists o, select_optimal (sweep_thresholds table) = Ok o)
  /\ (forall r : EvaluationResult Q,
        select_optimal (sweep_thresholds table) = Ok (Some r) ->
        exists before after,
          sweep_thresholds table = before ++ r :: after
          /\ r ∈ viable_results (sweep_thresholds table)
          /\ (forall r', r' ∈ before ->
                r' ∈ viable_results (sweep_thresholds table) -> key_below r' r)
          /\ (forall r', r' ∈ after ->
                r' ∈ viable_results (sweep_thresholds table) -> ~ key_below r r')).
Proof.
  split.
  { unfold sweep_thresholds. by rewrite buy_range_Q, sell_range_Q. }
  split; [apply sweep_thresholds_length|].
  split; [apply sweep_grid_binary64|].
  split; [apply select_optimal_total|].
  intros r. apply select_optimal_position.
Qed.

Lemma sweep_selects_first_best_witness :
  exists r : EvaluationResult Q,
    select_optimal (sweep_thresholds tie_table) = Ok (Some r)
    /\ config_of r = (5 # 100, - 10 # 100, 1)
    /\ exists before after, sweep_thresholds tie_table = before ++ r :: after
         /\ length before = 1%nat.
Proof.
  destruct (sweep_selects_first_best tie_table) as (_ & _ & _ & [o Ho] & Hpos).
  destruct o as [r|]; [|vm_compute in Ho; discriminate Ho].
  exists r. split; [exact Ho|].
  assert (Hr : r = evaluate_thresholds tie_table (5 # 100) (- 10 # 100) 1).
  { vm_compute in Ho. injection Ho as <-. vm_compute. reflexivity. }
  split; [by rewrite Hr|].
  exists [evaluate_thresholds tie_table (5 # 100) (- 5 # 100) 1].
  eexists. split; [|reflexivity].
  rewrite Hr. destruct (sweep_selects_first_best tie_table) as (-> & _).
  reflexivity.
Defined.

(** On [tie_table] the code selects buy 0.05 and sell -0.10; the first best
    configuration in the order "buy within sell" is buy 0.10 and sell -0.05,
    or buy 0.05 and sell -0.60 when the sell thresholds ascend numerically. *)
Lemma tie_break_is_not_buy_within_sell :
  selected_config (select_optimal (sweep_thresholds tie_table))
  = Some (5 # 100, - 10 # 100, 1)
  /\ selected_config (select_optimal (sweep_buy_within_sell tie_table))
     = Some (10 # 100, - 5 # 100, 1)
  /\ selected_config (select_optimal (sweep_buy_within_sell_numeric tie_table))
     = Some (5 # 100, - 60 # 100, 1)
  /\ selected_config (select_optimal (sweep_thresholds tie_table))
     <> selected_config (select_optimal (sweep_buy_within_sell tie_table))
  /\ selected_config (select_optimal (sweep_thresholds tie_table))
     <> selected_config (select_optimal (sweep_buy_within_sell_numeric tie_table)).
Proof.
  repeat split; try (vm_compute; reflexivity); vm_compute; discriminate.
Qed.

(** ** The price-change resolver *)

(** *** The order on strings *)

Lemma str_lt_compare a b : str_lt a b = true <-> String.compare a b = Lt.
Proof. unfold str_lt, String.ltb. by destruct (String.compare a b). Qed.

Lemma str_le_not_lt a b : str_le a b = negb (str_lt b a).
Proof.
  unfold str_le, str_lt, String.leb, String.ltb.
  rewrite (String.compare_antisym b a). by destruct (String.compare a b).
Qed.

Lemma str_lt_irrefl a : str_lt a a = false.
Proof.
  unfold str_lt, String.ltb.
  pose proof (proj2 (String_as_OT.cmp_eq a a) eq_refl) as Hc.
  unfold String_as_OT.cmp in Hc. by rewrite Hc.
Qed.

Lemma str_le_refl a : str_le a a = true.
Proof. by rewrite str_le_not_lt, str_lt_irrefl. Qed.

Lemma str_lt_trans a b c : str_lt a b = true -> str_lt b c = true -> str_lt a c = true.
Proof.
  rewrite !str_lt_compare. intros Hab Hbc.
  apply (String_as_OT.cmp_lt a c).
  apply (String_as_OT.cmp_lt a b) in Hab. apply (String_as_OT.cmp_lt b c) in Hbc.
  by apply (String_as_OT.lt_trans a b c).
Qed.

Lemma str_lt_asym a b : str_lt a b = true -> str_lt b a = false.
Proof.
  intros Hab. destruct (str_lt b a) eqn:Hba; [|done].
  pose proof (str_lt_trans a b a Hab Hba) as Haa.
  by rewrite str_lt_irrefl in Haa.
Qed.

Lemma str_lt_total a b : a <> b -> str_lt a b = true \/ str_lt b a = true.
Proof.
  intros Hne. rewrite !str_lt_compare.
  destruct (String.compare a b) eqn:Hc.
  - by apply String.compare_eq_iff in Hc.
  - by left.
  - right. by rewrite String.compare_antisym, Hc.
Qed.

Lemma str_lt_negtrans a b c :
  str_lt a b = false -> str_lt b c = false -> str_lt a c = false.
Proof.
  intros Hab Hbc. destruct (str_lt a c) eqn:Hac; [|done].
  destruct (decide (b = a)) as [->|Hne]; [congruence|].
  destruct (str_lt_total b a Hne) as [Hba|Hba]; [|congruence].
  by rewrite (str_lt_trans b a c Hba Hac) in Hbc.
Qed.

Lemma str_le_antisym a b : str_le a b = true -> str_le b a = true -> a = b.
Proof.
  rewrite !str_le_not_lt, !negb_true_iff. intros Hba Hab.
  destruct (decide (a = b)) as [|Hne]; [done|].
  destruct (str_lt_total a b Hne); congruence.
Qed.

(** *** Lists in ascending order *)

Lemma ascending_split {A} (lt : A -> A -> bool) (l1 l2 : list A) (x : A) :
  ascending lt (l1 ++ x :: l2) ->
  Forall (fun y => lt x y = false) l1 /\ Forall (fun z => lt z x = false) l2.
Proof.
  unfold ascending. induction l1 as [|a l1 IH]; simpl; intros Hs.
  - apply StronglySorted_inv in Hs as [_ Hx]. split; [constructor | done].
  - apply StronglySorted_inv in Hs as [Hs Ha].
    destruct (IH Hs) as [H1 H2]. split; [|done].
    constructor; [|done].
    rewrite Forall_forall in Ha. apply Ha, elem_of_app. right. by left.
Qed.

Lemma list_index_split `{EqDecision A} (l : list A) (x : A) :
  x ∈ l ->
  exists l1 l2, l = l1 ++ x :: l2 /\ list_index l x = Ok (length l1).
Proof.
  induction l as [|y l IH]; [by intros ?%elem_of_nil|].
  intros Hx. simpl. destruct (decide (y = x)) as [->|Hne].
  { by exists [], l. }
  apply elem_of_cons in Hx as [->|Hx]; [done|].
  destruct (IH Hx) as (l1 & l2 & -> & Hi).
  exists (y :: l1), l2. by rewrite Hi.
Qed.

Lemma sorted_keys_facts `{Arith F} (prices : gmap string F) :
  let ks := sorted str_lt (dict_keys prices) in
  ascending str_lt ks /\ NoDup ks /\ forall d, d ∈ ks <-> is_Some (prices !! d).
Proof.
  intros ks. split; [apply sorted_ascending; [apply str_lt_asym | apply str_lt_negtrans]|].
  assert (Hperm : ks ≡ₚ dict_keys prices) by apply sorted_perm.
  split.
  - rewrite Hperm. apply NoDup_fst_map_to_list.
  - intros d. rewrite Hperm. unfold dict_keys. rewrite list_elem_of_fmap. split.
    + intros ([k v] & -> & Hkv). apply elem_of_map_to_list in Hkv. by exists v.
    + intros [v Hv]. exists (d, v). split; [done|]. by apply elem_of_map_to_list.
Qed.

Lemma nth_error_middle {A} (l1 l2 : list A) (x : A) :
  nth_error (l1 ++ x :: l2) (length l1) = Some x.
Proof. induction l1 as [|y l1 IH]; simpl; done. Qed.

(** *** The resolver *)

Section ResolverFacts.
Context `{Arith F}.
Implicit Types (prices : gmap string F) (ref cur : string).

Lemma snap_present prices ref : is_Some (prices !! ref) -> is_snap prices ref ref.
Proof. intros Hk. split; [done|]. split; [apply str_le_refl | auto]. Qed.

Lemma snap_forward prices ref :
  match head (List.filter (fun d => str_le ref d) (sorted str_lt (dict_keys prices))) with
  | None => forall d, is_Some (prices !! d) -> str_le ref d = false
  | Some cur => is_snap prices ref cur
  end.
Proof.
  destruct (sorted_keys_facts prices) as (Hasc & Hnd & Hin).
  set (ks := sorted str_lt (dict_keys prices)) in *.
  destruct (List.filter _ ks) as [|cur rest] eqn:Hf; simpl.
  - intros d Hd. apply Hin in Hd.
    rewrite filter_nil_iff in Hf. by apply Hf.
  - destruct (filter_split _ ks [] rest cur Hf) as (l1 & l2 & Hks & Hl1 & _ & Hcur).
    split.
    { apply Hin. rewrite Hks. apply elem_of_app. right. by left. }
    split; [done|].
    intros d Hd Hle. apply Hin in Hd. rewrite Hks in Hd, Hasc.
    apply ascending_split in Hasc as [_ H2].
    apply elem_of_app in Hd as [Hd|Hd].
    + rewrite filter_nil_iff in Hl1. by rewrite (Hl1 d Hd) in Hle.
    + apply elem_of_cons in Hd as [->|Hd]; [apply str_le_refl|].
      rewrite Forall_forall in H2. by rewrite str_le_not_lt, (H2 d Hd).
Qed.

(** From the snapped date on: the lookups never raise and the result is the
    one of the specification. *)
Lemma change_from_snap prices ref cur :
  is_snap prices ref cur ->
  exists o,
    (let sorted_dates := sorted str_lt (dict_keys prices) in
     let* idx := list_index sorted_dates cur in
     if (length sorted_dates <=? idx + 1)%nat then Ok None
     else
       let* d_today := list_getitem sorted_dates idx in
       let* price_today := getitem prices d_today in
       let* d_next := list_getitem sorted_dates (idx + 1) in
       let* price_next := getitem prices d_next in
       if feq price_today (of_Q 0) then Ok None
       else Ok (Some (fmul (fdiv (fsub price_next price_today) price_today)
                           (of_Q 100)))) = Ok o
    /\ resolves prices ref o.
Proof.
  intros Hsnap. cbv zeta.
  destruct (sorted_keys_facts prices) as (Hasc & Hnd & Hin).
  set (ks := sorted str_lt (dict_keys prices)) in *.
  assert (Hcur : cur ∈ ks) by apply Hin, Hsnap.
  destruct (list_index_split ks cur Hcur) as (l1 & l2 & Hks & Hidx).
  rewrite Hidx. cbn [py_bind].
  pose proof Hasc as Hasc'. rewrite Hks in Hasc'.
  apply ascending_split in Hasc' as [Hbefore Hafter].
  rewrite Forall_forall in Hbefore, Hafter.
  destruct l2 as [|nxt l2].
  - exists None. split.
    { rewrite Hks, length_app. simpl.
      by rewrite (proj2 (Nat.leb_le _ _)) by lia. }
    apply (resolves_last_date _ _ cur); [done|].
    intros d Hd. apply Hin in Hd. rewrite Hks in Hd.
    apply elem_of_app in Hd as [Hd|Hd].
    + by rewrite str_le_not_lt, (Hbefore d Hd).
    + apply elem_of_cons in Hd as [->|Hd]; [apply str_le_refl | by apply elem_of_nil in Hd].
  - assert (Hlen : (length ks <=? length l1 + 1)%nat = false).
    { apply Nat.leb_gt. rewrite Hks, length_app. simpl. lia. }
    rewrite Hlen.
    assert (Hget1 : list_getitem ks (length l1) = Ok cur).
    { unfold list_getitem. by rewrite Hks, nth_error_middle. }
    assert (Hget2 : list_getitem ks (length l1 + 1) = Ok nxt).
    { unfold list_getitem. rewrite Hks.
      change (l1 ++ cur :: nxt :: l2) with (l1 ++ [cur] ++ nxt :: l2).
      rewrite app_assoc.
      replace (length l1 + 1)%nat with (length (l1 ++ [cur]))
        by (rewrite length_app; simpl; lia).
      by rewrite nth_error_middle. }
    rewrite Hget1, Hget2. cbn [py_bind].
    assert (Hnxt : nxt ∈ ks).
    { rewrite Hks. apply elem_of_app. right. right. by left. }
    destruct (proj1 (Hin cur) Hcur) as [p Hp].
    destruct (proj1 (Hin nxt) Hnxt) as [q Hq].
    unfold getitem. rewrite Hp, Hq. cbn [py_bind].
    assert (Hne : cur <> nxt).
    { intros ->. rewrite Hks in Hnd. apply NoDup_app in Hnd as (_ & _ & Hnd).
      apply NoDup_cons in Hnd as [Hnd _]. apply Hnd. by left. }
    assert (Hlt : str_lt cur nxt = true).
    { destruct (str_lt_total cur nxt Hne) as [|Hgt]; [done|].
      rewrite (Hafter nxt) in Hgt; [done | by left]. }
    assert (Hnext : is_next prices cur nxt).
    { split; [by exists q|]. split; [done|].
      intros d Hd Hcd. apply Hin in Hd. rewrite Hks in Hd.
      apply elem_of_app in Hd as [Hd|Hd].
      { by rewrite (Hbefore d Hd) in Hcd. }
      apply elem_of_cons in Hd as [->|Hd].
      { by rewrite str_lt_irrefl in Hcd. }
      apply elem_of_cons in Hd as [->|Hd]; [apply str_le_refl|].
      rewrite Hks in Hasc.
      change (l1 ++ cur :: nxt :: l2) with (l1 ++ [cur] ++ nxt :: l2) in Hasc.
      rewrite app_assoc in Hasc.
      apply ascending_split in Hasc as [_ Hafter'].
      rewrite Forall_forall in Hafter'.
      by rewrite str_le_not_lt, (Hafter' d Hd). }
    destruct (feq p (of_Q 0)) eqn:Hz.
    + exists None. split; [done|]. by apply (resolves_zero_price _ _ cur nxt p).
    + eexists. split; [done|]. by apply (resolves_change _ _ cur nxt p q).
Qed.

(** The resolver never raises and returns what the specification says. *)
Lemma compute_next_day_change_spec prices ref :
  exists o, compute_next_day_change prices ref = Ok o /\ resolves prices ref o.
Proof.
  unfold compute_next_day_change. cbv zeta.
  destruct (sorted_keys_facts prices) as (Hasc & Hnd & Hin).
  case_bool_decide as Hmem.
  - apply change_from_snap, snap_present. by apply Hin.
  - pose proof (snap_forward prices ref) as Hsnap.
    destruct (head _) as [cur|].
    + by apply change_from_snap.
    + exists None. split; [done|]. by apply resolves_no_date.
Qed.
End ResolverFacts.

(** The snap of a known date is the date itself. *)
Lemma is_snap_known `{Arith F} (prices : gmap string F) (ref cur : string) :
  is_Some (prices !! ref) -> is_snap prices ref cur -> cur = ref.
Proof.
  intros Hk (Hc & Hle & Hmin).
  apply str_le_antisym; [|done]. apply Hmin; [done | apply str_le_refl].
Qed.

(** C3: the resolver never raises; it returns "unresolvable" when no known
    date is on or after the reference date, when the earliest such date (the
    reference date itself when it is known) is the last known date, or when
    the price on that date is 0, and otherwise the change to the next known
    date in percent. On the two-day series the change from 2024-01-02 is 2,
    in binary64 exactly 2.0, and a reference date after the last known date
    is unresolvable. *)
Theorem compute_next_day_change_resolves :
  (forall (F : Type) (A : Arith F) (prices : gmap string F) (ref : string),
      (exists o, compute_next_day_change prices ref = Ok o /\ resolves prices ref o)
      /\ (forall cur, is_Some (prices !! ref) -> is_snap prices ref cur -> cur = ref))
  /\ (exists r : Q,
        compute_next_day_change (F:=Q) two_day_series "2024-01-02" = Ok (Some r)
        /\ (r == 2)%Q)
  /\ compute_next_day_change (F:=float) two_day_series "2024-01-02"
     = Ok (Some 2%float)
  /\ compute_next_day_change (F:=Q) two_day_series "2024-01-04" = Ok None
  /\ compute_next_day_change (F:=float) two_day_series "2024-01-04" = Ok None.
Proof.
  split.
  { intros F A prices ref. split.
    - apply compute_next_day_change_spec.
    - intros cur. apply is_snap_known. }
  split.
  { eexists. split; [vm_compute; reflexivity|]. reflexivity. }
  repeat split; vm_compute; reflexivity.
Qed.

(** A reference date before the series snaps forward to its first date. *)
Lemma compute_next_day_change_resolves_witness :
  exists o,
    compute_next_day_change (F:=Q) two_day_series "2024-01-01" = Ok o
    /\ resolves two_day_series "2024-01-01" o
    /\ (forall cur, is_snap (F:=Q) two_day_series "2024-01-02" cur ->
          cur = "2024-01-02").
Proof.
  destruct compute_next_day_change_resolves as [Hall _].
  destruct (Hall Q Q_arith two_day_series "2024-01-01") as [[o [Ho Hr]] _].
  exists o. split; [exact Ho|]. split; [exact Hr|].
  intros cur.
  destruct (Hall Q Q_arith two_day_series "2024-01-02") as [_ Hk].
  apply Hk. vm_compute. eauto.
Defined.

(** ** The auto-tuner *)

Section AutoTuneFacts.
Context `{Arith F}.
Implicit Types (w : @Collaborators F) (config : ThresholdConfig F).
Implicit Types (table : list (EvaluationRow F)).

(** The table builder never raises. *)
Lemma build_backtest_table_total (articles : list (Article F))
    (prices : gmap string (gmap string F)) :
  exists table, build_backtest_table articles prices = Ok table.
Proof.
  unfold build_backtest_table.
  generalize (sorted_items (group_articles articles)). intros items.
  remember (Ok []) as acc eqn:Hacc.
  assert (Hok : exists table, acc = Ok table) by eauto. clear Hacc.
  revert acc Hok.
  induction items as [|[[t d] arts] items IH]; intros acc [table ->]; simpl; [eauto|].
  apply IH.
  destruct (prices !! t) as [series|]; [|eauto].
  destruct (compute_next_day_change_spec series d) as (o & -> & _).
  cbn [py_bind]. destruct o; eauto.
Qed.

(** Every result of the sweep is the evaluation of its own thresholds. *)
Lemma sweep_thresholds_elem table (r : EvaluationResult F) :
  r ∈ sweep_thresholds table ->
  r = evaluate_thresholds table (buy_threshold r) (sell_threshold r) (min_articles r).
Proof.
  unfold sweep_thresholds. intros Hr.
  apply list_elem_of_bind in Hr as (m & Hr & _).
  apply list_elem_of_bind in Hr as (bt & Hr & _).
  apply list_elem_of_bind in Hr as (st & Hr & _).
  apply elem_of_cons in Hr as [->|Hr]; [done | by apply elem_of_nil in Hr].
Qed.

(** [auto_tune] never raises; its result by the stage at which it stops. *)
Lemma auto_tune_spec w config :
  exists (b : bool) (config' : ThresholdConfig F),
    auto_tune w config = Ok (b, config')
    /\ match collect_historical_news w with
       | [] => b = false /\ config' = config
       | _ :: _ =>
           exists table, backtest_table_of w = Ok table
             /\ match table with
                | [] => b = false /\ config' = config
                | _ :: _ =>
                    exists o, select_optimal (sweep_thresholds table) = Ok o
                      /\ match o with
                         | None => b = false /\ config' = config
                         | Some optimal =>
                             let current :=
                               evaluate_thresholds table (BUY_THRESHOLD config)
                                 (SELL_THRESHOLD config) (MIN_ARTICLES config) in
                             b = flt (accuracy current) (accuracy optimal)
                             /\ config' = if b then thresholds_of optimal else config
                         end
                end
       end.
Proof.
  unfold auto_tune, backtest_table_of.
  destruct (collect_historical_news w) as [|a arts] eqn:Hnews.
  { exists false, config. by rewrite bool_decide_eq_true_2. }
  rewrite bool_decide_eq_false_2 by done.
  destruct (build_backtest_table_total (analyze_sentiment w (a :: arts))
              (fetch_price_data w
                 (list_to_set (map ticker (analyze_sentiment w (a :: arts))))))
    as [table Htable].
  rewrite Htable. cbn [py_bind].
  destruct table as [|row table].
  { exists false, config. rewrite bool_decide_eq_true_2 by done.
    split; [done|]. by exists []. }
  rewrite bool_decide_eq_false_2 by done.
  destruct (select_optimal_total (sweep_thresholds (row :: table))) as [o Ho].
  rewrite Ho. cbn [py_bind]. destruct o as [optimal|].
  - destruct (flt _ (accuracy optimal)) eqn:Hb.
    + exists true, (thresholds_of optimal). split; [done|].
      exists (row :: table). split; [done|]. exists (Some optimal).
      split; [done|]. cbv zeta. by rewrite Hb.
    + exists false, config. split; [done|].
      exists (row :: table). split; [done|]. exists (Some optimal).
      split; [done|]. cbv zeta. by rewrite Hb.
  - exists false, config. split; [done|].
    exists (row :: table). split; [done|]. by exists None.
Qed.
End AutoTuneFacts.

(** Over the rationals an update changes the thresholds. *)
Lemma auto_tune_changes (w : @Collaborators Q) (config : ThresholdConfig Q) :
  exists (b : bool) (config' : ThresholdConfig Q),
    auto_tune w config = Ok (b, config')
    /\ if b then config' <> config else config' = config.
Proof.
  destruct (auto_tune_spec w config) as (b & config' & Hrun & Hstage).
  exists b, config'. split; [done|].
  destruct (collect_historical_news w); [by destruct Hstage as [-> ->]|].
  destruct Hstage as (table & _ & Hstage).
  destruct table as [|row table]; [by destruct Hstage as [-> ->]|].
  destruct Hstage as (o & Ho & Hstage).
  destruct o as [optimal|]; [|by destruct Hstage as [-> ->]].
  cbv zeta in Hstage. destruct Hstage as [Hb ->].
  destruct b; [|done]. intros Heq.
  apply select_optimal_Some, viable_results_elem in Ho as [Ho _].
  apply sweep_thresholds_elem in Ho.
  assert (Hcur : evaluate_thresholds (row :: table) (BUY_THRESHOLD config)
                   (SELL_THRESHOLD config) (MIN_ARTICLES config) = optimal).
  { rewrite <- Heq. by cbn [thresholds_of BUY_THRESHOLD SELL_THRESHOLD MIN_ARTICLES]. }
  rewrite Hcur in Hb. symmetry in Hb. apply Qltb_lt in Hb.
  by apply Qlt_irrefl in Hb.
Qed.

(** C4: [auto_tune] never raises. Without articles, without evaluation rows
    or without a viable sweep configuration it returns False and leaves the
    thresholds as they are. Otherwise it returns whether the accuracy of the
    optimum is strictly above the accuracy of the current thresholds, and the
    thresholds are those of the optimum when it returns True and unchanged
    when it returns False; over the rationals the thresholds differ from the
    old ones exactly when it returns True. *)
Theorem auto_tune_updates_iff_better :
  (forall (F : Type) (A : Arith F) (w : @Collaborators F) (config : ThresholdConfig F),
      exists (b : bool) (config' : ThresholdConfig F),
        auto_tune w config = Ok (b, config')
        /\ match collect_historical_news w with
           | [] => b = false /\ config' = config
           | _ :: _ =>
               exists table, backtest_table_of w = Ok table
                 /\ match table with
                    | [] => b = false /\ config' = config
                    | _ :: _ =>
                        exists o, select_optimal (sweep_thresholds table) = Ok o
                          /\ match o with
                             | None => b = false /\ config' = config
                             | Some optimal =>
                                 let current :=
                                   evaluate_thresholds table (BUY_THRESHOLD config)
                                     (SELL_THRESHOLD config) (MIN_ARTICLES config) in
                                 b = flt (accuracy current) (accuracy optimal)
                                 /\ config'
                                    = if b then thresholds_of optimal else config
                             end
                    end
           end)
  /\ (forall (w : @Collaborators Q) (config : ThresholdConfig Q),
        exists (b : bool) (config' : ThresholdConfig Q),
          auto_tune w config = Ok (b, config')
          /\ if b then config' <> config else config' = config)
  /\ auto_tune (F:=Q) example_run default_config
     = Ok (true, {| BUY_THRESHOLD := 30 # 100; SELL_THRESHOLD := - 5 # 100;
                    MIN_ARTICLES := 1 |})
  /\ auto_tune (F:=Q) no_news_run default_config = Ok (false, default_config)
  /\ auto_tune (F:=Q) quiet_run default_config = Ok (false, default_config).
Proof.
  split; [intros F A; apply auto_tune_spec|].
  split; [apply auto_tune_changes|].
  repeat split; vm_compute; reflexivity.
Qed.

(** C8: when some result has three signals the selection keeps the results
    with at least three and selects one of them; when none has three but some
    has one it keeps those with at least one and selects one of them; it
    reports that nothing is viable exactly when no result has a signal, and
    [auto_tune] then returns False with the thresholds unchanged. *)
Theorem selection_relaxes_filter (F : Type) (A : Arith F) :
  (forall all : list (EvaluationResult F),
      (Exists (fun r => (3 <= total_signals r)%nat) all ->
       viable_results all = List.filter (fun r => (3 <=? total_signals r)%nat) all
       /\ exists r, select_optimal all = Ok (Some r)
                    /\ r ∈ all /\ (3 <= total_signals r)%nat)
      /\ (Forall (fun r => (total_signals r < 3)%nat) all ->
          Exists (fun r => (1 <= total_signals r)%nat) all ->
          viable_results all = List.filter (fun r => (1 <=? total_signals r)%nat) all
          /\ exists r, select_optimal all = Ok (Some r)
                       /\ r ∈ all /\ (1 <= total_signals r)%nat)
      /\ (select_optimal all = Ok None
          <-> Forall (fun r => total_signals r = 0%nat) all))
  /\ (forall (w : @Collaborators F) (config : ThresholdConfig F)
             (table : list (EvaluationRow F)),
        collect_historical_news w <> [] ->
        backtest_table_of w = Ok table ->
        select_optimal (sweep_thresholds table) = Ok None ->
        auto_tune w config = Ok (false, config)).
Proof.
  split.
  - intros all.
    assert (Hsel : forall p : EvaluationResult F -> bool,
               viable_results all = List.filter p all ->
               Exists (fun r => (1 <= total_signals r)%nat) all ->
               exists r, select_optimal all = Ok (Some r)
                         /\ r ∈ all /\ p r = true).
    { intros p Hp Hex. destruct (select_optimal_total all) as [[r|] Ho].
      - exists r. split; [done|].
        apply select_optimal_Some in Ho. rewrite Hp in Ho.
        by apply elem_of_list_filter_bool in Ho.
      - exfalso. rewrite select_optimal_None in Ho.
        apply Exists_exists in Hex as (r & Hr & Hn).
        specialize (Ho r Hr). lia. }
    split; [|split].
    + intros Hex. pose proof Hex as Hex'.
      apply Exists_exists in Hex' as (r0 & Hr0 & Hn0).
      assert (Hv := viable_results_strict all (ex_intro _ r0 (conj Hr0 Hn0))).
      split; [done|].
      destruct (Hsel _ Hv) as (r & Hr & Hin & Hp).
      { apply Exists_exists. exists r0. split; [done | lia]. }
      exists r. repeat split; try done. by apply Nat.leb_le.
    + intros Hall Hex. rewrite Forall_forall in Hall.
      assert (Hv := viable_results_relaxed all Hall).
      split; [done|].
      destruct (Hsel _ Hv Hex) as (r & Hr & Hin & Hp).
      exists r. repeat split; try done. by apply Nat.leb_le.
    + by rewrite select_optimal_None, Forall_forall.
  - intros w config table Hnews Htable Hnone.
    destruct (auto_tune_spec w config) as (b & config' & Hrun & Hstage).
    destruct (collect_historical_news w); [done|].
    destruct Hstage as (table' & Htable' & Hstage).
    rewrite Htable in Htable'. injection Htable' as <-.
    destruct table as [|row table]; [by destruct Hstage as [-> ->]|].
    destruct Hstage as (o & Ho & Hstage). rewrite Hnone in Ho.
    injection Ho as <-. by destruct Hstage as [-> ->].
Qed.

(** On [example_table] no configuration has three signals and the selection
    falls back to the configurations with at least one; the only row of
    [quiet_run] is a HOLD everywhere and the thresholds stay. *)
Lemma selection_relaxes_filter_witness :
  (exists r, select_optimal (sweep_thresholds example_table) = Ok (Some r)
             /\ r ∈ sweep_thresholds example_table
             /\ (1 <= total_signals r)%nat)
  /\ auto_tune (F:=Q) quiet_run default_config = Ok (false, default_config).
Proof.
  destruct (selection_relaxes_filter Q Q_arith) as [Hsel Htune].
  split.
  - destruct (Hsel (sweep_thresholds example_table)) as (_ & Hrelaxed & _).
    apply Hrelaxed.
    + apply (bool_decide_unpack _). vm_compute. exact I.
    + apply (bool_decide_unpack _). vm_compute. exact I.
  - apply (Htune quiet_run default_config
             [{| row_ticker := "AAPL"; row_date := "2024-01-02";
                 sentiment_score := 0 # 80; actual_change_pct := 200 # 100;
                 article_count := 1 |}]).
    + discriminate.
    + vm_compute. reflexivity.
    + vm_compute. reflexivity.
Defined.

(** ** The signal aggregator *)

Lemma foldl_ext_eq {A B} (f g : A -> B -> A) (a : A) (l : list B) :
  (forall a x, f a x = g a x) -> foldl f a l = foldl g a l.
Proof.
  intros Hfg. revert a. induction l as [|x l IH]; intros a; simpl; [done|].
  by rewrite Hfg, IH.
Qed.

Lemma foldl_insert_lookup {V} (g : string -> V) (l : list string)
    (m : gmap string V) (k : string) :
  foldl (fun s t => <[t := g t]> s) m l !! k
  = if bool_decide (k ∈ l) then Some (g k) else m !! k.
Proof.
  revert m. induction l as [|x l IH]; intros m; simpl; [done|].
  rewrite IH. destruct (decide (k ∈ l)) as [Hin|Hnin].
  - rewrite !bool_decide_eq_true_2; [done | by right | done].
  - rewrite (bool_decide_eq_false_2 (k ∈ l)) by done.
    destruct (decide (x = k)) as [->|Hne].
    + rewrite bool_decide_eq_true_2 by (by left). apply lookup_insert_eq.
    + rewrite bool_decide_eq_false_2.
      * by apply lookup_insert_ne.
      * intros [->|?]%elem_of_cons; done.
Qed.

Section AggregatorFacts.
Context `{Arith F}.
Implicit Types (config : ThresholdConfig F) (articles : list (Article F)).

Lemma group_by_ticker_lookup articles t :
  default [] (group_by_ticker articles !! t) = articles_of t articles.
Proof.
  unfold group_by_ticker, articles_of.
  assert (Hgen : forall (m : gmap string (list (Article F))),
             default [] (foldl (fun by_ticker art =>
                 <[ticker art := default [] (by_ticker !! ticker art) ++ [art]]>
                   by_ticker) m articles !! t)
             = default [] (m !! t)
               ++ List.filter (fun a => bool_decide (ticker a = t)) articles).
  { induction articles as [|a articles IH]; intros m; simpl.
    { by rewrite app_nil_r. }
    rewrite IH. case_bool_decide as Ht.
    - rewrite <- Ht, lookup_insert_eq. simpl. by rewrite <- app_assoc.
    - by rewrite lookup_insert_ne. }
  by rewrite Hgen, lookup_empty.
Qed.

(** The entry of every ticker. *)
Lemma generate_signals_lookup config articles t :
  generate_signals config articles !! t
  = if bool_decide (t ∈ ALL_TICKERS) then Some (signal_for config t articles)
    else None.
Proof.
  unfold generate_signals. cbv zeta.
  rewrite (foldl_ext_eq _ (fun s t => <[t := signal_for config t articles]> s)).
  { by rewrite foldl_insert_lookup, lookup_empty. }
  intros s k. unfold signal_for. rewrite group_by_ticker_lookup.
  by destruct (articles_of k articles).
Qed.

Lemma articles_of_watched articles t :
  t ∈ ALL_TICKERS -> articles_of t (watched articles) = articles_of t articles.
Proof.
  intros Ht. unfold articles_of, watched.
  induction articles as [|a articles IH]; simpl; [done|].
  destruct (decide (ticker a = t)) as [Heq|Hne].
  - rewrite (bool_decide_eq_true_2 (ticker a ∈ ALL_TICKERS)) by (by rewrite Heq).
    simpl. rewrite IH. done.
  - destruct (bool_decide (ticker a ∈ ALL_TICKERS)); simpl;
      rewrite ?(bool_decide_eq_false_2 (ticker a = t)) by done; done.
Qed.

(** An article that the dilution filter drops leaves the loop variables as
    they are. *)
Lemma accumulate_diluted (acc : Accumulator) (art : Article F) :
  feq (polarity art) (of_Q 0) = true -> flt (weight art) (of_Q (7 # 10)) = true ->
  accumulate acc art = acc.
Proof. intros Hp Hw. unfold accumulate. by rewrite Hp, Hw. Qed.

Lemma foldl_accumulate_diluted (before after : list (Article F)) (art : Article F) :
  feq (polarity art) (of_Q 0) = true -> flt (weight art) (of_Q (7 # 10)) = true ->
  foldl accumulate accumulator0 (before ++ art :: after)
  = foldl accumulate accumulator0 (before ++ after).
Proof.
  intros Hp Hw. rewrite !foldl_app. simpl. by rewrite accumulate_diluted.
Qed.
End AggregatorFacts.

(** C10: the result has exactly the tickers of the watchlist as keys; the
    entry of a ticker is the fixed HOLD placeholder with no article when the
    ticker has no article and the aggregation of its articles otherwise;
    articles of other tickers change nothing. *)
Theorem generate_signals_keys (F : Type) (A : Arith F)
    (config : ThresholdConfig F) (articles : list (Article F)) :
  dom (generate_signals config articles) = list_to_set ALL_TICKERS
  /\ (forall t : string,
        generate_signals config articles !! t
        = if bool_decide (t ∈ ALL_TICKERS)
          then Some (match articles_of t articles with
                     | [] => _empty_signal t
                     | arts => aggregate config t arts
                     end)
          else None)
  /\ (forall t : string,
        signal (_empty_signal (F:=F) t) = HOLD
        /\ signal_article_count (_empty_signal (F:=F) t) = 0%nat
        /\ score (_empty_signal t) = of_Q 0
        /\ signal_confidence (_empty_signal t) = of_Q 0
        /\ top_headline (_empty_signal (F:=F) t) = "No recent news")
  /\ generate_signals config articles = generate_signals config (watched articles).
Proof.
  split; [|split; [|split]].
  - apply set_eq. intros t. rewrite elem_of_dom, generate_signals_lookup.
    rewrite elem_of_list_to_set. case_bool_decide as Ht; split; intros Hs.
    + done.
    + by eexists.
    + by apply is_Some_None in Hs.
    + done.
  - intros t. apply generate_signals_lookup.
  - done.
  - apply map_eq. intros t. rewrite !generate_signals_lookup.
    case_bool_decide as Ht; [|done].
    unfold signal_for. by rewrite articles_of_watched.
Qed.

(** C5: an article with polarity 0.0 and confidence below 0.7 adds nothing to
    the weighted sum and the weight total, and one to the article count. A
    ticker whose only article is neutral with confidence 0.4 gets score 0.0,
    confidence 0.0, no headline, HOLD and article count 1, under any
    thresholds with the buy threshold not below 0 and the sell threshold not
    above 0, and so under the thresholds of [config.py], also in binary64. *)
Theorem dilution_filter_excludes_but_counts :
  (forall (F : Type) (A : Arith F) (config : ThresholdConfig F) (t : string)
          (before after : list (Article F)) (art : Article F),
      feq (polarity art) (of_Q 0) = true ->
      flt (weight art) (of_Q (7 # 10)) = true ->
      foldl accumulate accumulator0 (before ++ art :: after)
      = foldl accumulate accumulator0 (before ++ after)
      /\ avg_score_of (before ++ art :: after) = avg_score_of (before ++ after)
      /\ signal_article_count (aggregate config t (before ++ art :: after))
         = S (signal_article_count (aggregate config t (before ++ after))))
  /\ (forall config : ThresholdConfig Q,
        (0 <= BUY_THRESHOLD config)%Q -> (SELL_THRESHOLD config <= 0)%Q ->
        let s := aggregate config "AAPL" [diluted_article] in
        signal s = HOLD /\ (score s == 0)%Q /\ (signal_confidence s == 0)%Q
        /\ signal_article_count s = 1%nat /\ top_headline s = EmptyString)
  /\ generate_signals (F:=float) default_config [diluted_article] !! "AAPL"
     = Some {| signal := HOLD; score := 0%float; signal_confidence := 0%float;
               signal_article_count := 1; top_headline := EmptyString;
               display_name := "AAPL" |}.
Proof.
  split; [|split].
  - intros F A config t before after art Hp Hw.
    pose proof (foldl_accumulate_diluted before after art Hp Hw) as Hacc.
    split; [done|]. split.
    + unfold avg_score_of. by rewrite Hacc.
    + unfold aggregate. cbn [signal_article_count].
      rewrite !length_app. simpl. lia.
  - intros config Hbuy Hsell s.
    assert (Havg : avg_score_of (F:=Q) [diluted_article] = 0%Q)
      by (vm_compute; reflexivity).
    assert (Hb : Qltb (BUY_THRESHOLD config) 0 = false).
    { apply not_true_iff_false. rewrite Qltb_lt. by apply Qle_not_lt. }
    assert (Hs : Qltb 0 (SELL_THRESHOLD config) = false).
    { apply not_true_iff_false. rewrite Qltb_lt. by apply Qle_not_lt. }
    subst s. unfold aggregate.
    cbn [signal score signal_confidence signal_article_count top_headline].
    rewrite Havg. cbn [flt Q_arith]. rewrite Hb, Hs.
    repeat split; vm_compute; reflexivity.
  - vm_compute. reflexivity.
Qed.

Lemma dilution_filter_excludes_but_counts_witness :
  foldl accumulate accumulator0 [diluted_article (F:=Q)] = accumulator0
  /\ signal (aggregate (F:=Q) default_config "AAPL" [diluted_article]) = HOLD
  /\ signal_article_count (aggregate (F:=Q) default_config "AAPL" [diluted_article])
     = 1%nat.
Proof.
  destruct dilution_filter_excludes_but_counts as (Hdrop & Hhold & _).
  destruct (Hdrop Q Q_arith default_config "AAPL" [] [] diluted_article)
    as (Hacc & _); [reflexivity | reflexivity |].
  destruct (Hhold default_config) as (Hs & _ & _ & Hn & _);
    [discriminate | discriminate |].
  split; [exact Hacc|]. split; [exact Hs | exact Hn].
Defined.

(** A neutral article above the dilution bar scores 0, between the buy
    threshold -0.5 and the sell threshold 0.5: the signal is BUY, not HOLD. *)
Lemma overlap_signal_is_buy :
  flt (F:=Q) (BUY_THRESHOLD overlapping_config) (SELL_THRESHOLD overlapping_config)
  = true
  /\ flt (F:=Q) (BUY_THRESHOLD overlapping_config) (avg_score_of [neutral_article])
     = true
  /\ flt (F:=Q) (avg_score_of [neutral_article]) (SELL_THRESHOLD overlapping_config)
     = true
  /\ signal (aggregate (F:=Q) overlapping_config "AAPL" [neutral_article]) = BUY
  /\ signal (aggregate (F:=Q) overlapping_config "AAPL" [neutral_article]) <> HOLD
  /\ (signal <$> generate_signals (F:=float) overlapping_config [neutral_article]
                  !! "AAPL") = Some BUY.
Proof.
  repeat split; try (vm_compute; reflexivity). vm_compute. discriminate.
Qed.

(** C6 (as the code has it): a score above the buy threshold and below the
    sell threshold gives BUY when the ticker has at least [MIN_ARTICLES]
    articles, because the BUY branch is tried first, and HOLD otherwise. *)
Theorem overlap_score_is_buy (F : Type) (A : Arith F)
    (config : ThresholdConfig F) (t : string) (arts : list (Article F)) :
  flt (BUY_THRESHOLD config) (avg_score_of arts) = true ->
  flt (avg_score_of arts) (SELL_THRESHOLD config) = true ->
  signal (aggregate config t arts)
  = if MIN_ARTICLES config <=? Z.of_nat (length arts) then BUY else HOLD.
Proof.
  intros Hb Hs. unfold aggregate. cbn [signal]. rewrite Hb, Hs.
  by destruct (MIN_ARTICLES config <=? Z.of_nat (length arts)).
Qed.

Lemma overlap_score_is_buy_witness :
  signal (aggregate (F:=Q) overlapping_config "AAPL" [neutral_article]) = BUY.
Proof.
  apply (overlap_score_is_buy Q Q_arith overlapping_config "AAPL" [neutral_article]);
    reflexivity.
Defined.

(** * Further properties *)

(** ** The evaluator on rearranged and concatenated tables *)

Section EvaluatorAlgebra.
Context `{Arith F}.
Implicit Types (table : list (EvaluationRow F)) (bt st : F) (m : Z).

Lemma count_rows_app p table1 table2 :
  count_rows p (table1 ++ table2) = (count_rows p table1 + count_rows p table2)%nat.
Proof. unfold count_rows. by rewrite List.filter_app, length_app. Qed.

Lemma count_rows_perm p table1 table2 :
  table1 ≡ₚ table2 -> count_rows p table1 = count_rows p table2.
Proof.
  induction 1 as [|row t1 t2 _ IH|r1 r2 t|t1 t2 t3 _ IH1 _ IH2].
  - done.
  - by rewrite !count_rows_cons, IH.
  - rewrite !count_rows_cons. lia.
  - by rewrite IH1.
Qed.

Lemma counters_eq (c1 c2 : Counters) :
  c_tp_buy c1 = c_tp_buy c2 -> c_fp_buy c1 = c_fp_buy c2 ->
  c_tp_sell c1 = c_tp_sell c2 -> c_fp_sell c1 = c_fp_sell c2 ->
  c_hold_count c1 = c_hold_count c2 -> c_total_signals c1 = c_total_signals c2 ->
  c1 = c2.
Proof. destruct c1, c2; simpl; intros; by subst. Qed.

(** X1: the result of an evaluation does not depend on the order of the
    rows of the table. *)
Theorem evaluate_thresholds_perm table1 table2 bt st m :
  table1 ≡ₚ table2 ->
  evaluate_thresholds table1 bt st m = evaluate_thresholds table2 bt st m.
Proof.
  intros Hperm. unfold evaluate_thresholds.
  assert (Hc : foldl (evaluate_row bt st m) counters0 table1
               = foldl (evaluate_row bt st m) counters0 table2).
  { destruct (evaluate_rows_counters bt st m table1 counters0)
      as (H1 & H2 & H3 & H4 & H5 & H6).
    destruct (evaluate_rows_counters bt st m table2 counters0)
      as (K1 & K2 & K3 & K4 & K5 & K6).
    apply counters_eq.
    - by rewrite H1, K1, (count_rows_perm _ _ _ Hperm).
    - by rewrite H2, K2, (count_rows_perm _ _ _ Hperm).
    - by rewrite H3, K3, (count_rows_perm _ _ _ Hperm).
    - by rewrite H4, K4, (count_rows_perm _ _ _ Hperm).
    - by rewrite H5, K5, (count_rows_perm _ _ _ Hperm).
    - by rewrite H6, K6, (count_rows_perm _ _ _ Hperm). }
  by rewrite Hc.
Qed.

(** Every counter of a result as a count of rows. *)
Lemma evaluate_thresholds_fields bt st m table :
  let r := evaluate_thresholds table bt st m in
  tp_buy r = count_rows (fun r => is_class BUY bt st m r && went_up r) table
  /\ fp_buy r = count_rows (fun r => is_class BUY bt st m r && negb (went_up r)) table
  /\ tp_sell r = count_rows (fun r => is_class SELL bt st m r && went_down r) table
  /\ fp_sell r
     = count_rows (fun r => is_class SELL bt st m r && negb (went_down r)) table
  /\ hold_count r = count_rows (is_class HOLD bt st m) table
  /\ total_signals r = count_rows (fun r => negb (is_class HOLD bt st m r)) table.
Proof.
  destruct (evaluate_rows_counters bt st m table counters0)
    as (H1 & H2 & H3 & H4 & H5 & H6).
  unfold evaluate_thresholds.
  cbn [tp_buy fp_buy tp_sell fp_sell hold_count total_signals].
  by rewrite H1, H2, H3, H4, H5, H6.
Qed.

(** X2: the counters of an evaluation of two tables put together are the sums
    of the counters of the two evaluations. *)
Theorem evaluate_thresholds_app table1 table2 bt st m :
  let r := evaluate_thresholds (table1 ++ table2) bt st m in
  let r1 := evaluate_thresholds table1 bt st m in
  let r2 := evaluate_thresholds table2 bt st m in
  tp_buy r = (tp_buy r1 + tp_buy r2)%nat
  /\ fp_buy r = (fp_buy r1 + fp_buy r2)%nat
  /\ tp_sell r = (tp_sell r1 + tp_sell r2)%nat
  /\ fp_sell r = (fp_sell r1 + fp_sell r2)%nat
  /\ hold_count r = (hold_count r1 + hold_count r2)%nat
  /\ total_signals r = (total_signals r1 + total_signals r2)%nat
  /\ correct r = (correct r1 + correct r2)%nat.
Proof.
  intros r r1 r2.
  destruct (evaluate_thresholds_fields bt st m (table1 ++ table2))
    as (H1 & H2 & H3 & H4 & H5 & H6).
  destruct (evaluate_thresholds_fields bt st m table1)
    as (K1 & K2 & K3 & K4 & K5 & K6).
  destruct (evaluate_thresholds_fields bt st m table2)
    as (L1 & L2 & L3 & L4 & L5 & L6).
  fold r in H1, H2, H3, H4, H5, H6. fold r1 in K1, K2, K3, K4, K5, K6.
  fold r2 in L1, L2, L3, L4, L5, L6.
  rewrite count_rows_app in H1, H2, H3, H4, H5, H6.
  assert (Hc : forall t, correct (evaluate_thresholds t bt st m)
                         = (tp_buy (evaluate_thresholds t bt st m)
                            + tp_sell (evaluate_thresholds t bt st m))%nat)
    by done.
  unfold r, r1, r2. rewrite !Hc. fold r r1 r2. lia.
Qed.
End EvaluatorAlgebra.

Lemma evaluate_thresholds_perm_witness :
  evaluate_thresholds example_table (2 # 10) (- 2 # 10) 1
  = evaluate_thresholds (rev example_table) (2 # 10) (- 2 # 10) 1.
Proof.
  apply (evaluate_thresholds_perm (F:=Q)). apply Permutation_rev.
Defined.

(** ** The two weighted scores *)

Section ScoreFacts.
Context `{Arith F}.
Implicit Types (art : Article F) (arts : list (Article F)).

Lemma polarity_values art :
  polarity art = of_Q 1 \/ polarity art = of_Q (- 1) \/ polarity art = of_Q 0.
Proof.
  unfold polarity, SENTIMENT_SCORES, dict_of_items. simpl.
  generalize (default "neutral" (sentiment art)). intros label.
  destruct (decide (label = "neutral")) as [->|H1].
  { rewrite lookup_insert_eq. auto. }
  rewrite lookup_insert_ne by done.
  destruct (decide (label = "negative")) as [->|H2].
  { rewrite lookup_insert_eq. auto. }
  rewrite lookup_insert_ne by done.
  destruct (decide (label = "positive")) as [->|H3].
  { rewrite lookup_insert_eq. auto. }
  rewrite lookup_insert_ne by done.
  rewrite lookup_empty. auto.
Qed.

Lemma compute_sentiment_score_sums arts :
  compute_sentiment_score arts
  = let sums := score_sums (of_Q 0, of_Q 0) arts in
    if flt (of_Q 0) sums.2 then fdiv sums.1 sums.2 else of_Q 0.
Proof.
  unfold compute_sentiment_score, score_sums.
  by destruct (foldl _ _ arts).
Qed.

(** Without a diluted article the two loops keep the same sums. *)
Lemma accumulate_score_sums arts (acc : Accumulator) :
  Forall (fun art => diluted art = false) arts ->
  let acc' := foldl accumulate acc arts in
  (weighted_sum acc', weight_total acc')
  = score_sums (weighted_sum acc, weight_total acc) arts.
Proof.
  intros Hall. revert acc.
  induction Hall as [|art arts Hart _ IH]; intros acc; cbv zeta; [done|].
  simpl. specialize (IH (accumulate acc art)). cbv zeta in IH. rewrite IH.
  unfold score_sums. simpl. f_equal.
  unfold accumulate. unfold diluted in Hart. by rewrite Hart.
Qed.
End ScoreFacts.

(** X3: on articles none of which the dilution filter drops, the score of the
    backtest is the score of the live aggregation; with a dropped article the
    two differ, here 9/13 against 1. *)
Theorem backtest_score_is_live_score_without_dilution :
  (forall (F : Type) (A : Arith F) (arts : list (Article F)),
      Forall (fun art => diluted art = false) arts ->
      compute_sentiment_score arts = avg_score_of arts)
  /\ (compute_sentiment_score (F:=Q) mixed_articles == 9 # 13)%Q
  /\ (avg_score_of (F:=Q) mixed_articles == 1)%Q.
Proof.
  split; [|split; vm_compute; reflexivity].
  intros F A arts Hall.
  rewrite compute_sentiment_score_sums. unfold avg_score_of. cbv zeta.
  pose proof (accumulate_score_sums arts accumulator0 Hall) as Hsums.
  cbv zeta in Hsums. cbn [accumulator0 weighted_sum weight_total] in Hsums.
  rewrite <- Hsums. done.
Qed.

Lemma backtest_score_is_live_score_witness :
  compute_sentiment_score (F:=Q) opposed_articles = avg_score_of opposed_articles.
Proof.
  destruct backtest_score_is_live_score_without_dilution as [Hsame _].
  apply Hsame. repeat constructor.
Defined.

(** *** Bounds over the rationals *)

Lemma polarity_bounds_Q (art : Article Q) (c : Q) :
  (0 <= c)%Q -> (- c <= polarity art * c <= c)%Q.
Proof.
  intros Hc. destruct (polarity_values art) as [-> | [-> | ->]];
    cbn [of_Q Q_arith]; split; lra.
Qed.

Lemma score_sums_bounds (arts : list (Article Q)) (ws wt : Q) :
  Forall (fun art => (0 <= weight art)%Q) arts ->
  (0 <= wt)%Q -> (- wt <= ws <= wt)%Q ->
  (0 <= (score_sums (ws, wt) arts).2)%Q
  /\ (- (score_sums (ws, wt) arts).2 <= (score_sums (ws, wt) arts).1
      <= (score_sums (ws, wt) arts).2)%Q.
Proof.
  intros Hall. revert ws wt.
  induction Hall as [|art arts Hart _ IH]; intros ws wt Hwt Hws; [done|].
  unfold score_sums in *. simpl. cbn [fadd fmul Q_arith].
  pose proof (polarity_bounds_Q art (weight art) Hart) as Hp.
  apply IH; [lra | split; lra].
Qed.

Lemma quotient_bounds_Q (ws wt : Q) :
  (0 < wt)%Q -> (- wt <= ws <= wt)%Q -> (- 1 <= ws / wt <= 1)%Q.
Proof.
  intros Hpos [Hlo Hhi]. split.
  - apply Qle_shift_div_l; [done | lra].
  - apply Qle_shift_div_r; [done | lra].
Qed.

(** X4: with confidences that are not negative, the score of the backtest
    lies between -1 and 1 (over the rationals); it is 0 for no article. *)
Theorem compute_sentiment_score_bounds (arts : list (Article Q)) :
  Forall (fun art => (0 <= weight art)%Q) arts ->
  (- 1 <= compute_sentiment_score arts <= 1)%Q
  /\ compute_sentiment_score (F:=Q) [] = 0%Q.
Proof.
  intros Hall. split; [|done].
  rewrite compute_sentiment_score_sums. cbv zeta.
  destruct (score_sums_bounds arts 0 0 Hall) as [Hwt Hws]; [lra | split; lra |].
  cbn [of_Q flt fdiv Q_arith] in *.
  destruct (Qltb _ _) eqn:Hlt.
  - apply Qltb_lt in Hlt. by apply quotient_bounds_Q.
  - split; lra.
Qed.

Lemma compute_sentiment_score_bounds_witness :
  (- 1 <= compute_sentiment_score (F:=Q) opposed_articles <= 1)%Q.
Proof.
  apply compute_sentiment_score_bounds.
  repeat constructor; discriminate.
Defined.

(** Rounding to an integer stays within integer bounds. *)
Lemma Qround_half_even_bounds (x : Q) (lo hi : Z) :
  (inject_Z lo <= x <= inject_Z hi)%Q -> lo <= Qround_half_even x <= hi.
Proof.
  intros [Hlo Hhi]. unfold Qround_half_even.
  pose proof (Qfloor_le x) as Hfl. pose proof (Qlt_floor x) as Hfu.
  set (f := Qfloor x) in *.
  assert (Hlof : lo <= f).
  { assert (Hlt : (inject_Z lo < inject_Z (f + 1))%Q) by lra.
    rewrite <- Zlt_Qlt in Hlt. lia. }
  assert (Hfhi : f <= hi).
  { assert (Hle : (inject_Z f <= inject_Z hi)%Q) by lra.
    by rewrite <- Zle_Qle in Hle. }
  assert (Hup : (1 # 2 <= x - inject_Z f)%Q -> f + 1 <= hi).
  { intros Hhalf. assert (Hlt : (inject_Z f < inject_Z hi)%Q) by lra.
    rewrite <- Zlt_Qlt in Hlt. lia. }
  destruct (Qcompare (x - inject_Z f) (1 # 2)) eqn:Hc.
  - apply Qeq_alt in Hc. destruct (Z.even f); [lia|].
    split; [lia|]. apply Hup. lra.
  - lia.
  - apply Qgt_alt in Hc. split; [lia|]. apply Hup. lra.
Qed.

Lemma Qround_digits_bounds (x : Q) (n : nat) (lo hi : Z) :
  (inject_Z lo <= x * inject_Z (10 ^ Z.of_nat n) <= inject_Z hi)%Q ->
  (Qmake lo (Z.to_pos (10 ^ Z.of_nat n)) <= Qround_digits x n
   <= Qmake hi (Z.to_pos (10 ^ Z.of_nat n)))%Q.
Proof.
  intros Hx. apply Qround_half_even_bounds in Hx.
  unfold Qround_digits, Qle. cbn [Qnum Qden]. nia.
Qed.

Lemma accumulate_bounds (arts : list (Article Q)) (acc : Accumulator) (n : nat) :
  Forall (fun art => (0 <= weight art <= 1)%Q) arts ->
  (0 <= weight_total acc <= inject_Z (Z.of_nat n))%Q ->
  (- weight_total acc <= weighted_sum acc <= weight_total acc)%Q ->
  let acc' := foldl accumulate acc arts in
  (0 <= weight_total acc' <= inject_Z (Z.of_nat (n + length arts)))%Q
  /\ (- weight_total acc' <= weighted_sum acc' <= weight_total acc')%Q.
Proof.
  intros Hall. revert acc n.
  induction Hall as [|art arts Hart _ IH]; intros acc n Hwt Hws; cbv zeta.
  { simpl. by rewrite Nat.add_0_r. }
  simpl. replace (n + S (length arts))%nat with (S n + length arts)%nat by lia.
  assert (Hn : (inject_Z (Z.of_nat (S n)) == inject_Z (Z.of_nat n) + 1)%Q).
  { rewrite Nat2Z.inj_succ. unfold Z.succ. by rewrite inject_Z_plus. }
  apply IH; unfold accumulate.
  - destruct (_ && _); cbn [weight_total fadd Q_arith]; rewrite Hn; lra.
  - pose proof (polarity_bounds_Q art (weight art) (proj1 Hart)) as Hp.
    destruct (_ && _); cbn [weight_total weighted_sum fadd fmul Q_arith];
      [lra | split; lra].
Qed.

(** X5: with confidences between 0 and 1 the live aggregation reports a
    score between -1 and 1 and a confidence between 0 and 100 percent, also
    after rounding (over the rationals). *)
Theorem aggregate_bounds (config : ThresholdConfig Q) (t : string)
    (arts : list (Article Q)) :
  Forall (fun art => (0 <= weight art <= 1)%Q) arts ->
  (- 1 <= avg_score_of arts <= 1)%Q
  /\ (- 1 <= score (aggregate config t arts) <= 1)%Q
  /\ (0 <= signal_confidence (aggregate config t arts) <= 100)%Q.
Proof.
  intros Hall.
  destruct (accumulate_bounds arts accumulator0 0 Hall) as [Hwt Hws].
  { split; vm_compute; discriminate. }
  { split; vm_compute; discriminate. }
  simpl in Hwt.
  set (acc := foldl accumulate accumulator0 arts) in *.
  assert (Havg : (- 1 <= avg_score_of arts <= 1)%Q).
  { unfold avg_score_of. fold acc. cbn [of_Q flt fdiv Q_arith].
    destruct (Qltb _ _) eqn:Hlt.
    - apply Qltb_lt in Hlt. by apply quotient_bounds_Q.
    - lra. }
  split; [done|]. unfold aggregate. cbn [score signal_confidence]. fold acc. split.
  - pose proof (Qround_digits_bounds (avg_score_of arts) 3 (- 1000) 1000) as Hr.
    cbn [fround Q_arith].
    assert (H1 : (- 1000 # Z.to_pos (10 ^ Z.of_nat 3) == - 1)%Q) by reflexivity.
    assert (H2 : (1000 # Z.to_pos (10 ^ Z.of_nat 3) == 1)%Q) by reflexivity.
    destruct Hr as [Hr1 Hr2]; [|lra].
    change (inject_Z (10 ^ Z.of_nat 3)) with 1000%Q.
    change (inject_Z (- 1000)) with (- 1000)%Q.
    change (inject_Z 1000) with 1000%Q. lra.
  - set (n := length arts) in *.
    assert (Hconf : (0 <= (if (0 <? n)%nat
                           then fdiv (weight_total acc) (of_Q (inject_Z (Z.of_nat n)))
                           else of_Q 0) <= 1)%Q).
    { cbn [of_Q fdiv Q_arith]. destruct (Nat.ltb_spec 0 n) as [Hpos|Hz]; [|lra].
      assert (Hn : (0 < inject_Z (Z.of_nat n))%Q).
      { change 0%Q with (inject_Z 0). rewrite <- Zlt_Qlt. lia. }
      split.
      - apply Qle_shift_div_l; [done | lra].
      - apply Qle_shift_div_r; [done | lra]. }
    pose proof (Qround_digits_bounds
                  ((if (0 <? n)%nat
                    then fdiv (weight_total acc) (of_Q (inject_Z (Z.of_nat n)))
                    else of_Q 0) * 100) 1 0 1000) as Hr.
    cbn [fround fmul of_Q Q_arith] in *.
    assert (H1 : (0 # Z.to_pos (10 ^ Z.of_nat 1) == 0)%Q) by reflexivity.
    assert (H2 : (1000 # Z.to_pos (10 ^ Z.of_nat 1) == 100)%Q) by reflexivity.
    destruct Hr as [Hr1 Hr2]; [|lra].
    change (inject_Z (10 ^ Z.of_nat 1)) with 10%Q.
    change (inject_Z 0) with 0%Q. change (inject_Z 1000) with 1000%Q.
    split; lra.
Qed.

Lemma aggregate_bounds_witness :
  (- 1 <= score (aggregate (F:=Q) default_config "AAPL" opposed_articles) <= 1)%Q.
Proof.
  apply (aggregate_bounds default_config "AAPL" opposed_articles).
  repeat constructor; discriminate.
Defined.

(** ** Counts and headlines of the live aggregation *)

Lemma length_filter_disjoint {A} (p q r : A -> bool) (l : list A) :
  (forall a, p a = q a || r a) -> (forall a, q a && r a = false) ->
  length (List.filter p l) = (length (List.filter q l) + length (List.filter r l))%nat.
Proof.
  intros Hp Hqr. induction l as [|a l IH]; [done|].
  simpl. rewrite Hp. specialize (Hqr a).
  destruct (q a), (r a); simpl in *; try done; lia.
Qed.

(** Grouping by a key splits a list: over distinct keys the sizes of the
    groups add up to the number of elements with one of the keys. *)
Lemma sum_group_sizes {A} `{EqDecision K} (key : A -> K) (keys : list K) (l : list A) :
  NoDup keys ->
  sum_list (map (fun k => length (List.filter (fun a => bool_decide (key a = k)) l)) keys)
  = length (List.filter (fun a => bool_decide (key a ∈ keys)) l).
Proof.
  induction 1 as [|k keys Hk _ IH]; simpl.
  { induction l as [|a l IHl]; [done|]. simpl. done. }
  rewrite IH. symmetry. apply length_filter_disjoint.
  - intros a. destruct (decide (key a = k)) as [Heq|Hne].
    + rewrite (bool_decide_eq_true_2 (key a = k)) by done.
      rewrite bool_decide_eq_true_2; [done|]. rewrite Heq. by left.
    + rewrite (bool_decide_eq_false_2 (key a = k)) by done. simpl.
      apply bool_decide_ext. rewrite elem_of_cons.
      split; [by intros [?|?] | by right].
  - intros a. destruct (decide (key a = k)) as [Heq|Hne].
    + rewrite (bool_decide_eq_false_2 (key a ∈ keys)); [apply andb_false_r|].
      by rewrite Heq.
    + by rewrite (bool_decide_eq_false_2 (key a = k)).
Qed.

Lemma ALL_TICKERS_NoDup : NoDup ALL_TICKERS.
Proof. apply (bool_decide_unpack _). vm_compute. exact I. Qed.

Section AggregatorCounts.
Context `{Arith F}.
Implicit Types (config : ThresholdConfig F) (articles : list (Article F)).

Lemma signal_for_article_count config t articles :
  signal_article_count (signal_for config t articles)
  = length (articles_of t articles).
Proof.
  unfold signal_for. by destruct (articles_of t articles).
Qed.

(** X6: the article count reported for a watched ticker is the number of
    input articles with that ticker, and the counts of all entries add up to
    the number of input articles whose ticker is on the watchlist. *)
Theorem generate_signals_article_counts config articles :
  (forall t : string,
      signal_article_count <$> generate_signals config articles !! t
      = if bool_decide (t ∈ ALL_TICKERS)
        then Some (length (articles_of t articles)) else None)
  /\ sum_list (map (fun t => default 0%nat
                               (signal_article_count
                                  <$> generate_signals config articles !! t))
                   ALL_TICKERS)
     = length (watched articles).
Proof.
  assert (Hone : forall t : string,
             signal_article_count <$> generate_signals config articles !! t
             = if bool_decide (t ∈ ALL_TICKERS)
               then Some (length (articles_of t articles)) else None).
  { intros t. rewrite generate_signals_lookup. case_bool_decide; [|done].
    simpl. by rewrite signal_for_article_count. }
  split; [done|].
  unfold watched. rewrite <- (sum_group_sizes ticker) by apply ALL_TICKERS_NoDup.
  f_equal. apply map_ext_in. intros t Ht. apply list_elem_of_In in Ht.
  by rewrite Hone, bool_decide_eq_true_2.
Qed.

(** The article kept as best comes from the list and passed the filter. *)
Lemma best_article_provenance (arts : list (Article F)) (acc : Accumulator) :
  match best_article (foldl accumulate acc arts) with
  | None => best_article acc = None
  | Some art => best_article acc = Some art \/ (art ∈ arts /\ diluted art = false)
  end.
Proof.
  revert acc. induction arts as [|a arts IH]; intros acc; simpl.
  { destruct (best_article acc); auto. }
  specialize (IH (accumulate acc a)).
  destruct (best_article (foldl accumulate (accumulate acc a) arts)) as [art|].
  - destruct IH as [IH|[Hin Hd]]; [|right; split; [by right | done]].
    unfold accumulate in IH. fold (diluted a) in IH.
    destruct (diluted a) eqn:Hd; [by left|].
    cbn [best_article] in IH. destruct (flt _ _); [|by left].
    injection IH as <-. right. split; [by left | done].
  - unfold accumulate in IH. fold (diluted a) in IH.
    destruct (diluted a); [done|].
    cbn [best_article] in IH. by destruct (flt _ _).
Qed.

Lemma signal_for_top_headline config t articles :
  match articles_of t articles with
  | [] => top_headline (signal_for config t articles) = "No recent news"
  | _ :: _ =>
      top_headline (signal_for config t articles) = EmptyString
      \/ exists art, art ∈ articles /\ ticker art = t /\ diluted art = false
                     /\ top_headline (signal_for config t articles) = title art
  end.
Proof.
  unfold signal_for.
  destruct (articles_of t articles) as [|a arts] eqn:Harts; [done|].
  unfold aggregate. cbn [top_headline].
  pose proof (best_article_provenance (a :: arts) accumulator0) as Hbest.
  destruct (best_article (foldl accumulate accumulator0 (a :: arts))) as [art|];
    [|by left].
  destruct Hbest as [Hbest|[Hin Hd]]; [done|]. right. exists art.
  rewrite <- Harts in Hin. unfold articles_of in Hin.
  apply elem_of_list_filter_bool in Hin as [Hin Ht].
  apply bool_decide_eq_true in Ht. done.
Qed.

(** X7: the headline reported for a ticker is the placeholder when the
    ticker has no article, and otherwise empty or the title of one of the
    articles of that ticker that the dilution filter kept. *)
Theorem top_headline_provenance config articles (t : string) (s : Signal F) :
  generate_signals config articles !! t = Some s ->
  (articles_of t articles = [] /\ top_headline s = "No recent news")
  \/ (articles_of t articles <> []
      /\ (top_headline s = EmptyString
          \/ exists art, art ∈ articles /\ ticker art = t /\ diluted art = false
                         /\ top_headline s = title art)).
Proof.
  rewrite generate_signals_lookup. case_bool_decide; [|done].
  intros [= <-]. pose proof (signal_for_top_headline config t articles) as Hh.
  destruct (articles_of t articles); [by left | by right].
Qed.
End AggregatorCounts.

Lemma top_headline_provenance_witness :
  exists s, generate_signals (F:=Q) default_config mixed_articles !! "AAPL" = Some s
            /\ top_headline s = "headline".
Proof.
  eexists. split; [vm_compute; reflexivity|].
  destruct (top_headline_provenance (F:=Q) default_config mixed_articles "AAPL" _
              eq_refl) as [[Hnil _]|[_ [He|(art & _ & _ & _ & Ht)]]].
  - discriminate Hnil.
  - discriminate He.
  - reflexivity.
Defined.

(** *** The best article over the rationals *)

Lemma best_article_is_max (arts : list (Article Q)) :
  let acc := foldl accumulate accumulator0 arts in
  match best_article acc with
  | None =>
      (best_confidence acc == 0)%Q
      /\ Forall (fun a => diluted a = false -> (weight a <= 0)%Q) arts
  | Some b =>
      best_confidence acc = weight b /\ b ∈ arts /\ diluted b = false
      /\ (0 < weight b)%Q
      /\ Forall (fun a => diluted a = false -> (weight a <= weight b)%Q) arts
  end.
Proof.
  induction arts as [|a arts IH] using rev_ind; cbv zeta.
  { simpl. split; [reflexivity | constructor]. }
  rewrite foldl_app. simpl. cbv zeta in IH.
  set (acc := foldl accumulate accumulator0 arts) in *.
  unfold accumulate. fold (diluted a).
  destruct (diluted a) eqn:Hd.
  - destruct (best_article acc) as [b|].
    + destruct IH as (Hc & Hin & Hb & Hpos & Hall).
      repeat split; try done; [apply elem_of_app; by left|].
      apply Forall_app. split; [done|]. constructor; [|constructor]. congruence.
    + destruct IH as [Hc Hall]. split; [done|].
      apply Forall_app. split; [done|]. constructor; [|constructor]. congruence.
  - cbn [best_article best_confidence flt Q_arith].
    destruct (Qltb (best_confidence acc) (weight a)) eqn:Hlt.
    + apply Qltb_lt in Hlt. repeat split; try done.
      * apply elem_of_app. right. by left.
      * destruct (best_article acc) as [b|].
        -- destruct IH as (Hc & _ & _ & Hpos & _). rewrite Hc in Hlt. lra.
        -- destruct IH as [Hc _]. lra.
      * apply Forall_app. split; [|constructor; [intros _; lra | constructor]].
        destruct (best_article acc) as [b|].
        -- destruct IH as (Hc & _ & _ & _ & Hall). rewrite Hc in Hlt.
           eapply Forall_impl; [exact Hall|]. intros x Hx Hdx. simpl in Hx.
           specialize (Hx Hdx). lra.
        -- destruct IH as [Hc Hall].
           eapply Forall_impl; [exact Hall|]. intros x Hx Hdx. simpl in Hx.
           specialize (Hx Hdx). lra.
    + apply not_true_iff_false in Hlt. rewrite Qltb_lt in Hlt.
      apply Qnot_lt_le in Hlt.
      destruct (best_article acc) as [b|].
      * destruct IH as (Hc & Hin & Hb & Hpos & Hall).
        repeat split; try done; [apply elem_of_app; by left|].
        apply Forall_app. split; [done|].
        constructor; [|constructor]. intros _. rewrite Hc in Hlt. done.
      * destruct IH as [Hc Hall]. split; [done|].
        apply Forall_app. split; [done|].
        constructor; [|constructor]. intros _. lra.
Qed.

(** X8: over the rationals the reported headline is the title of a kept
    article whose confidence is positive and not below that of any other kept
    article; it is empty exactly when no kept article has a positive
    confidence. *)
Theorem top_headline_is_most_confident (config : ThresholdConfig Q) (t : string)
    (arts : list (Article Q)) :
  (exists b, top_headline (aggregate config t arts) = title b
             /\ b ∈ arts /\ diluted b = false /\ (0 < weight b)%Q
             /\ Forall (fun a => diluted a = false -> (weight a <= weight b)%Q) arts)
  \/ (top_headline (aggregate config t arts) = EmptyString
      /\ Forall (fun a => diluted a = false -> (weight a <= 0)%Q) arts).
Proof.
  pose proof (best_article_is_max arts) as Hbest. cbv zeta in Hbest.
  unfold aggregate. cbn [top_headline].
  destruct (best_article (foldl accumulate accumulator0 arts)) as [b|].
  - left. exists b. destruct Hbest as (_ & Hin & Hd & Hpos & Hall). done.
  - right. by destruct Hbest as [_ Hall].
Qed.

(** ** The backtest table *)

(** Grouping into a [defaultdict(list)]: the group of a key holds the
    elements with that key, in order. *)
Lemma group_fold_lookup `{Countable K} {A} (key : A -> K) (l : list A)
    (m : gmap K (list A)) (k : K) :
  foldl (fun m a => <[key a := default [] (m !! key a) ++ [a]]> m) m l !! k
  = match List.filter (fun a => bool_decide (key a = k)) l with
    | [] => m !! k
    | group => Some (default [] (m !! k) ++ group)
    end.
Proof.
  revert m. induction l as [|a l IH]; intros m; simpl; [done|].
  rewrite IH. case_bool_decide as Hk.
  - rewrite Hk, lookup_insert_eq. simpl.
    destruct (List.filter _ l); [done|]. by rewrite <- app_assoc.
  - by rewrite lookup_insert_ne.
Qed.

(** *** The order on pairs of strings *)

Lemma pair_str_lt_asym a b : pair_str_lt a b = true -> pair_str_lt b a = false.
Proof.
  unfold pair_str_lt. destruct (decide (a.1 = b.1)) as [Heq|Hne].
  - rewrite decide_True by done. apply str_lt_asym.
  - rewrite decide_False by done. apply str_lt_asym.
Qed.

Lemma pair_str_lt_negtrans a b c :
  pair_str_lt a b = false -> pair_str_lt b c = false -> pair_str_lt a c = false.
Proof.
  unfold pair_str_lt.
  destruct (decide (a.1 = b.1)) as [Hab|Hab], (decide (b.1 = c.1)) as [Hbc|Hbc].
  - rewrite decide_True by congruence. apply str_lt_negtrans.
  - rewrite decide_False by congruence. intros _. by rewrite Hab.
  - rewrite decide_False by congruence. intros H1 _. by rewrite <- Hbc.
  - intros H1 H2. destruct (decide (a.1 = c.1)) as [Hac|Hac].
    + exfalso. destruct (str_lt_total _ _ Hab) as [Hlt|Hlt]; [congruence|].
      destruct (str_lt_total _ _ Hbc) as [Hlt'|Hlt']; [congruence|].
      pose proof (str_lt_trans _ _ _ Hlt' Hlt) as Hcc.
      rewrite Hac, str_lt_irrefl in Hcc. done.
    + by apply (str_lt_negtrans _ b.1).
Qed.

Lemma pair_str_lt_total (a b : string * string) :
  a <> b -> pair_str_lt a b = true \/ pair_str_lt b a = true.
Proof.
  intros Hne. unfold pair_str_lt. destruct (decide (a.1 = b.1)) as [Heq|Hne1].
  - rewrite (decide_True (P:=b.1 = a.1)) by done. apply str_lt_total.
    intros Heq2. apply Hne. destruct a, b; simpl in *; congruence.
  - rewrite (decide_False (P:=b.1 = a.1)) by done. by apply str_lt_total.
Qed.

Lemma StronglySorted_omap {A B} (R : A -> A -> Prop) (R' : B -> B -> Prop)
    (f : A -> option B) (l : list A) :
  (forall x y x' y', R x y -> f x = Some x' -> f y = Some y' -> R' x' y') ->
  StronglySorted R l -> StronglySorted R' (omap f l).
Proof.
  intros Hf. induction 1 as [|x l Hl IH Hx]; simpl; [constructor|].
  destruct (f x) as [x'|] eqn:Hfx; [|done].
  constructor; [done|]. rewrite Forall_forall in Hx. apply Forall_forall.
  intros y' Hy. apply list_elem_of_omap in Hy as (y & Hy & Hfy).
  apply (Hf x y x' y'); [by apply Hx | done | done].
Qed.

Section TableFacts.
Context `{Arith F}.
Implicit Types (articles : list (Article F)) (prices : gmap string (gmap string F)).

Lemma group_articles_lookup articles (t d : string) :
  group_articles articles !! (t, d)
  = match group_of t d articles with
    | [] => None
    | group => Some group
    end.
Proof.
  unfold group_articles, group_of.
  rewrite (group_fold_lookup (fun a => (ticker a, published a))), lookup_empty.
  by destruct (List.filter _ articles).
Qed.

(** The sorted items: the groups, each once, by ascending key. *)
Lemma sorted_items_facts articles :
  let items := sorted_items (group_articles articles) in
  (forall t d arts, ((t, d), arts) ∈ items
                    <-> arts = group_of t d articles /\ arts <> [])
  /\ StronglySorted (fun a b => pair_str_lt a.1 b.1 = true) items.
Proof.
  intros items.
  assert (Hperm : items ≡ₚ map_to_list (group_articles articles))
    by apply sorted_perm.
  assert (Hin : forall t d arts, ((t, d), arts) ∈ items
                  <-> arts = group_of t d articles /\ arts <> []).
  { intros t d arts. rewrite Hperm, elem_of_map_to_list, group_articles_lookup.
    destruct (group_of t d articles) as [|a g]; split.
    - done.
    - by intros [-> ?].
    - by intros [= <-].
    - by intros [-> _]. }
  split; [done|].
  assert (Hasc : ascending (fun a b => pair_str_lt a.1 b.1) items).
  { apply sorted_ascending.
    - intros a b. apply pair_str_lt_asym.
    - intros a b c. apply pair_str_lt_negtrans. }
  assert (Hnd : NoDup items.*1).
  { rewrite Hperm. apply NoDup_fst_map_to_list. }
  clearbody items. clear Hperm Hin. unfold ascending in Hasc.
  induction Hasc as [|x l Hl IH Hx]; [constructor|].
  simpl in Hnd. apply NoDup_cons in Hnd as [Hx1 Hnd].
  constructor; [by apply IH|].
  rewrite Forall_forall in Hx. apply Forall_forall. intros y Hy.
  destruct (pair_str_lt_total x.1 y.1) as [Hlt|Hlt]; [|done|].
  - intros Heq. apply Hx1. rewrite Heq. apply list_elem_of_fmap. by exists y.
  - by rewrite (Hx y Hy) in Hlt.
Qed.

(** The table is the rows of the sorted groups that have one. *)
Lemma build_backtest_table_rows articles prices :
  build_backtest_table articles prices
  = Ok (omap (row_of prices) (sorted_items (group_articles articles))).
Proof.
  unfold build_backtest_table.
  generalize (sorted_items (group_articles articles)). intros items.
  enough (Hgen : forall (acc : py (list (EvaluationRow F))) table,
             acc = Ok table ->
             foldl (fun acc '((ticker, date_str), arts) =>
                      let* table := acc in
                      match prices !! ticker with
                      | None => Ok table
                      | Some series =>
                          let* change := compute_next_day_change series date_str in
                          match change with
                          | None => Ok table
                          | Some change =>
                              Ok (table ++
                                  [{| row_ticker := ticker;
                                      row_date := date_str;
                                      sentiment_score := compute_sentiment_score arts;
                                      actual_change_pct := change;
                                      article_count := Z.of_nat (length arts) |}])
                          end
                      end) acc items
             = Ok (table ++ omap (row_of prices) items)).
  { by apply (Hgen (Ok []) []). }
  induction items as [|[[t d] arts] items IH]; intros acc table ->; simpl.
  { by rewrite app_nil_r. }
  unfold row_of at 1. cbn [fst snd].
  destruct (prices !! t) as [series|]; [|by apply IH].
  destruct (compute_next_day_change_spec series d) as (o & -> & _).
  cbn [py_bind]. destruct o as [change|]; [|by apply IH].
  erewrite IH; [|done]. by rewrite <- app_assoc.
Qed.

Lemma pair_str_lt_irrefl (a : string * string) : pair_str_lt a a = false.
Proof.
  destruct (pair_str_lt a a) eqn:Hlt; [|done].
  by rewrite (pair_str_lt_asym a a Hlt) in Hlt.
Qed.

(** X9: [build_backtest_table] never raises, and its rows are exactly the
    (ticker, date) groups of the articles whose ticker has a price series in
    which the next-day change of the date resolves; the row carries the
    group's sentiment score, that change and the number of articles of the
    group.  Groups without prices or without a change are skipped
    silently. *)
Theorem build_backtest_table_content articles prices :
  exists table,
    build_backtest_table articles prices = Ok table
    /\ forall row,
         row ∈ table
         <-> exists series change,
               let arts := group_of (row_ticker row) (row_date row) articles in
               arts <> []
               /\ prices !! row_ticker row = Some series
               /\ compute_next_day_change series (row_date row) = Ok (Some change)
               /\ sentiment_score row = compute_sentiment_score arts
               /\ actual_change_pct row = change
               /\ article_count row = Z.of_nat (length arts).
Proof.
  exists (omap (row_of prices) (sorted_items (group_articles articles))).
  split; [apply build_backtest_table_rows|].
  destruct (sorted_items_facts articles) as [Hin _]. cbv zeta in Hin.
  intros row. rewrite list_elem_of_omap. split.
  - intros ([[t d] arts] & Hitem & Hrow).
    apply Hin in Hitem as [-> Hne].
    unfold row_of in Hrow. cbn [fst snd] in Hrow.
    destruct (prices !! t) as [series|] eqn:Hp; [|done].
    destruct (compute_next_day_change series d) as [[change|]|] eqn:Hc;
      try done.
    injection Hrow as <-. cbn. exists series, change.
    by rewrite Hp, Hc.
  - intros (series & change & Hne & Hp & Hc & Hs & Ha & Hn).
    exists ((row_ticker row, row_date row),
            group_of (row_ticker row) (row_date row) articles).
    split; [by apply Hin|].
    unfold row_of. cbn [fst snd]. rewrite Hp, Hc.
    destruct row; cbn in *. by subst.
Qed.

(** X10: the rows of the backtest table are in strictly ascending order of
    (ticker, date), compared as Python compares tuples of strings; so no two
    rows share a ticker and a date. *)
Theorem build_backtest_table_sorted articles prices :
  exists table,
    build_backtest_table articles prices = Ok table
    /\ StronglySorted
         (fun r1 r2 => pair_str_lt (row_key r1) (row_key r2) = true) table
    /\ NoDup (map row_key table).
Proof.
  exists (omap (row_of prices) (sorted_items (group_articles articles))).
  split; [apply build_backtest_table_rows|].
  destruct (sorted_items_facts articles) as [_ Hsorted]. cbv zeta in Hsorted.
  assert (Hrows : StronglySorted
            (fun r1 r2 => pair_str_lt (row_key r1) (row_key r2) = true)
            (omap (row_of prices) (sorted_items (group_articles articles)))).
  { revert Hsorted. apply StronglySorted_omap.
    intros [[t1 d1] a1] [[t2 d2] a2] r1 r2 Hlt H1 H2.
    unfold row_of in H1, H2. cbn [fst snd] in *.
    destruct (prices !! t1); [|done].
    destruct (compute_next_day_change _ d1) as [[?|]|]; try done.
    destruct (prices !! t2); [|done].
    destruct (compute_next_day_change _ d2) as [[?|]|]; try done.
    by injection H1 as <-; injection H2 as <-. }
  split; [done|].
  generalize Hrows.
  generalize (omap (row_of prices) (sorted_items (group_articles articles))).
  intros table. induction 1 as [|r l Hl IH Hr]; simpl; constructor.
  - intros Hin. apply list_elem_of_fmap in Hin as (r' & Heq & Hin).
    rewrite Forall_forall in Hr. specialize (Hr r' Hin).
    rewrite <- Heq, pair_str_lt_irrefl in Hr. done.
  - done.
Qed.
End TableFacts.

(** ** The per-ticker report *)

Lemma foldl_insert_items `{Countable K} {V W} (f : K -> V -> W)
    (items : list (K * V)) (m0 : gmap K W) (k : K) :
  NoDup items.*1 ->
  foldl (fun m kv => <[kv.1 := f kv.1 kv.2]> m) m0 items !! k
  = match (list_to_map items : gmap K V) !! k with
    | Some v => Some (f k v)
    | None => m0 !! k
    end.
Proof.
  revert m0. induction items as [|[k1 v1] items IH]; intros m0 Hnd; simpl; [done|].
  apply NoDup_cons in Hnd as [Hk1 Hnd]. rewrite IH by done.
  destruct (decide (k1 = k)) as [->|Hne].
  - rewrite !lookup_insert_eq.
    by rewrite (not_elem_of_list_to_map_1 items k) by done.
  - by rewrite !lookup_insert_ne by done.
Qed.

Lemma sum_list_map_add {A} (f g : A -> nat) (l : list A) :
  sum_list (map (fun a => (f a + g a)%nat) l)
  = (sum_list (map f l) + sum_list (map g l))%nat.
Proof. induction l as [|a l IH]; simpl; lia. Qed.

Section ReportFacts.
Context `{Arith F}.
Implicit Types (table : list (EvaluationRow F)).

Lemma per_ticker_accuracy_lookup table bt st m (t : string) :
  per_ticker_accuracy table bt st m !! t
  = match rows_of t table with
    | [] => None
    | rows => Some {| stats := evaluate_thresholds rows bt st m; stats_ticker := t |}
    end.
Proof.
  unfold per_ticker_accuracy. cbv zeta.
  set (by_ticker := foldl _ ∅ table).
  rewrite (foldl_ext_eq _
             (fun ts kv => <[kv.1 := {| stats := evaluate_thresholds kv.2 bt st m;
                                        stats_ticker := kv.1 |}]> ts))
    by (by intros ts [k v]).
  rewrite (foldl_insert_items
             (fun k v => {| stats := evaluate_thresholds v bt st m; stats_ticker := k |})).
  2:{ rewrite sorted_perm. apply NoDup_fst_map_to_list. }
  rewrite (list_to_map_proper _ (map_to_list by_ticker)).
  2:{ rewrite sorted_perm. apply NoDup_fst_map_to_list. }
  2:{ apply sorted_perm. }
  rewrite list_to_map_to_list, lookup_empty.
  unfold by_ticker, rows_of.
  rewrite (group_fold_lookup row_ticker), lookup_empty.
  by destruct (List.filter _ table).
Qed.

(** A count over the entries of the report is the count over the table. *)
Lemma per_ticker_count table bt st m (p : EvaluationRow F -> bool)
    (g : EvaluationResult F -> nat) :
  (forall rows, g (evaluate_thresholds rows bt st m) = count_rows p rows) ->
  sum_list (map g (ticker_entries (per_ticker_accuracy table bt st m)))
  = count_rows p table.
Proof.
  intros Hg. unfold ticker_entries.
  set (M := per_ticker_accuracy table bt st m).
  assert (Hentries : map g (map stats (map_to_list M).*2)
                     = map (fun t => length (List.filter
                                                (fun row => bool_decide (row_ticker row = t))
                                                (List.filter p table)))
                           (map_to_list M).*1).
  { rewrite !map_map. apply map_ext_in. intros [t s] Hin.
    apply list_elem_of_In, elem_of_map_to_list in Hin.
    unfold M in Hin. rewrite per_ticker_accuracy_lookup in Hin. simpl.
    assert (Hs : stats s = evaluate_thresholds (rows_of t table) bt st m).
    { destruct (rows_of t table); [done|]. by injection Hin as <-. }
    rewrite Hs, Hg. unfold count_rows, rows_of.
    clear. induction table as [|row table IH]; [done|]. simpl.
    destruct (bool_decide (row_ticker row = t)) eqn:Ht, (p row) eqn:Hp; simpl;
      rewrite ?Ht, ?Hp; simpl; by rewrite IH. }
  rewrite Hentries, (sum_group_sizes row_ticker) by apply NoDup_fst_map_to_list.
  unfold count_rows. f_equal.
  assert (Hall : forall row, row ∈ table -> row_ticker row ∈ (map_to_list M).*1).
  { intros row Hrow. apply list_elem_of_fmap.
    pose proof (per_ticker_accuracy_lookup table bt st m (row_ticker row)) as Hl.
    assert (Hne : rows_of (row_ticker row) table <> []).
    { intros Hnil. unfold rows_of in Hnil. rewrite filter_nil_iff in Hnil.
      specialize (Hnil row Hrow). by rewrite bool_decide_eq_true_2 in Hnil. }
    destruct (rows_of (row_ticker row) table) as [|r rs]; [done|].
    eexists (row_ticker row, _). split; [done|]. by apply elem_of_map_to_list. }
  clear Hentries. set (keys := (map_to_list M).*1) in *. clearbody keys. clear M.
  induction table as [|row table IH]; [done|]. simpl.
  destruct (p row); simpl.
  - rewrite bool_decide_eq_true_2 by (apply Hall; left). f_equal.
    apply IH. intros r Hr. apply Hall. by right.
  - apply IH. intros r Hr. apply Hall. by right.
Qed.

Lemma ticker_entries_elem table bt st m (r : EvaluationResult F) :
  r ∈ ticker_entries (per_ticker_accuracy table bt st m) ->
  exists rows, r = evaluate_thresholds rows bt st m.
Proof.
  unfold ticker_entries. intros Hr.
  apply list_elem_of_fmap in Hr as (s & -> & Hs).
  apply list_elem_of_fmap in Hs as ([t s'] & -> & Hs).
  apply elem_of_map_to_list in Hs. rewrite per_ticker_accuracy_lookup in Hs.
  destruct (rows_of t table) as [|row rows]; [done|].
  injection Hs as <-. by eexists.
Qed.

(** X11: the per-ticker report has an entry exactly for the tickers that have
    a row in the table; the entry of a ticker is the evaluation of its rows,
    in the order of the table and with the same thresholds, and it carries
    the ticker. *)
Theorem per_ticker_accuracy_entries table bt st m :
  (forall t : string,
      per_ticker_accuracy table bt st m !! t
      = match rows_of t table with
        | [] => None
        | rows =>
            Some {| stats := evaluate_thresholds rows bt st m; stats_ticker := t |}
        end)
  /\ (forall t : string,
        is_Some (per_ticker_accuracy table bt st m !! t)
        <-> exists row, row ∈ table /\ row_ticker row = t).
Proof.
  split; [apply per_ticker_accuracy_lookup|].
  intros t. rewrite per_ticker_accuracy_lookup. unfold rows_of.
  destruct (List.filter _ table) as [|row rows] eqn:Hf; split.
  - by intros [? ?].
  - intros (row & Hrow & Ht). rewrite filter_nil_iff in Hf.
    specialize (Hf row Hrow). by rewrite bool_decide_eq_true_2 in Hf.
  - intros _. assert (Hin : row ∈ List.filter
                               (fun row => bool_decide (row_ticker row = t)) table)
      by (rewrite Hf; left).
    apply elem_of_list_filter_bool in Hin as [Hin Ht].
    exists row. split; [done|]. by apply bool_decide_eq_true_1 in Ht.
  - eauto.
Qed.

(** X12: the per-ticker report splits the evaluation of the whole table:
    every counter of the whole-table evaluation is the sum of that counter
    over the entries of the report. *)
Theorem per_ticker_accuracy_sums table bt st m :
  let whole := evaluate_thresholds table bt st m in
  let entries := ticker_entries (per_ticker_accuracy table bt st m) in
  sum_list (map total_signals entries) = total_signals whole
  /\ sum_list (map correct entries) = correct whole
  /\ sum_list (map tp_buy entries) = tp_buy whole
  /\ sum_list (map fp_buy entries) = fp_buy whole
  /\ sum_list (map tp_sell entries) = tp_sell whole
  /\ sum_list (map fp_sell entries) = fp_sell whole
  /\ sum_list (map hold_count entries) = hold_count whole
  /\ sum_list (map (fun r => (total_signals r + hold_count r)%nat) entries)
     = length table.
Proof.
  intros whole entries.
  destruct (evaluate_thresholds_fields bt st m table) as (H1 & H2 & H3 & H4 & H5 & H6).
  cbv zeta in H1, H2, H3, H4, H5, H6. fold whole in H1, H2, H3, H4, H5, H6.
  assert (Htp : sum_list (map tp_buy entries) = tp_buy whole).
  { rewrite H1. apply per_ticker_count. intros rows.
    by destruct (evaluate_thresholds_fields bt st m rows) as (-> & _). }
  assert (Hts : sum_list (map tp_sell entries) = tp_sell whole).
  { rewrite H3. apply per_ticker_count. intros rows.
    by destruct (evaluate_thresholds_fields bt st m rows) as (_ & _ & -> & _). }
  assert (Htot : sum_list (map total_signals entries) = total_signals whole).
  { rewrite H6. apply per_ticker_count. intros rows.
    by destruct (evaluate_thresholds_fields bt st m rows) as (_ & _ & _ & _ & _ & ->). }
  assert (Hhold : sum_list (map hold_count entries) = hold_count whole).
  { rewrite H5. apply per_ticker_count. intros rows.
    by destruct (evaluate_thresholds_fields bt st m rows) as (_ & _ & _ & _ & -> & _). }
  split; [done|]. split.
  { rewrite (map_ext_in correct (fun r => (tp_buy r + tp_sell r)%nat)).
    - rewrite sum_list_map_add, Htp, Hts. reflexivity.
    - intros r Hr. apply list_elem_of_In, ticker_entries_elem in Hr as [rows ->].
      reflexivity. }
  split; [done|]. split.
  { rewrite H2. apply per_ticker_count. intros rows.
    by destruct (evaluate_thresholds_fields bt st m rows) as (_ & -> & _). }
  split; [done|]. split.
  { rewrite H4. apply per_ticker_count. intros rows.
    by destruct (evaluate_thresholds_fields bt st m rows) as (_ & _ & _ & -> & _). }
  split; [done|].
  rewrite sum_list_map_add, Htot, Hhold, H5, H6.
  destruct (count_rows_classes bt st m table) as [Hlen Hneg]. lia.
Qed.
End ReportFacts.

(** ** Reference dates between two known dates *)

Section SnapFacts.
Context `{Arith F}.
Implicit Types (prices : gmap string F).

Lemma is_snap_unique prices ref cur cur' :
  is_snap prices ref cur -> is_snap prices ref cur' -> cur = cur'.
Proof.
  intros (Hk & Hle & Hmin) (Hk' & Hle' & Hmin').
  apply str_le_antisym; [by apply Hmin | by apply Hmin'].
Qed.

(** The date at which the resolver reads the price. *)
Lemma snapped_date prices ref cur :
  is_snap prices ref cur ->
  (if bool_decide (ref ∈ sorted str_lt (dict_keys prices)) then Some ref
   else head (List.filter (fun d => str_le ref d) (sorted str_lt (dict_keys prices))))
  = Some cur.
Proof.
  intros Hsnap. destruct (sorted_keys_facts prices) as (_ & _ & Hin).
  cbv zeta in Hin. case_bool_decide as Hmem.
  - f_equal. symmetry. apply (is_snap_known prices); [by apply Hin | done].
  - pose proof (snap_forward prices ref) as Hfw.
    destruct (head _) as [cur'|].
    + f_equal. by apply (is_snap_unique prices ref).
    + destruct Hsnap as (Hk & Hle & _). by rewrite (Hfw cur Hk) in Hle.
Qed.
End SnapFacts.

(** X13: a reference date without a price resolves as the earliest known date
    on or after it does: an article published on a day without trading is
    compared with the same price change as one published on the next trading
    day. *)
Theorem compute_next_day_change_snaps_forward (F : Type) (A : Arith F)
    (prices : gmap string F) (ref cur : string) :
  is_snap prices ref cur ->
  compute_next_day_change prices ref = compute_next_day_change prices cur.
Proof.
  intros Hsnap. unfold compute_next_day_change. cbv zeta.
  rewrite (snapped_date prices ref cur Hsnap).
  rewrite (snapped_date prices cur cur); [done|].
  apply snap_present. by destruct Hsnap.
Qed.

Lemma compute_next_day_change_snaps_forward_witness :
  compute_next_day_change (F:=Q) two_day_series "2024-01-01"
  = compute_next_day_change two_day_series "2024-01-02"
  /\ compute_next_day_change (F:=float) two_day_series "2024-01-01"
     = Ok (Some 2%float).
Proof.
  assert (Hsnap : forall (F : Type) (A : Arith F),
             is_snap (F:=F) two_day_series "2024-01-01" "2024-01-02").
  { intros F A. split; [|split].
    - unfold two_day_series. rewrite lookup_insert_ne by done.
      rewrite lookup_insert_eq. eauto.
    - reflexivity.
    - intros d [p Hd] _. unfold two_day_series in Hd.
      apply lookup_insert_Some in Hd as [[<- _]|[_ Hd]]; [reflexivity|].
      apply lookup_insert_Some in Hd as [[<- _]|[_ Hd]]; [reflexivity|].
      by rewrite lookup_empty in Hd. }
  split.
  - apply (compute_next_day_change_snaps_forward Q Q_arith), Hsnap.
  - rewrite (compute_next_day_change_snaps_forward float binary64_arith
               two_day_series "2024-01-01" "2024-01-02" (Hsnap _ _)).
    vm_compute. reflexivity.
Defined.

(** ** What the auto-tuner installs *)

Section AutoTuneGrid.
Context `{Arith F}.
Implicit Types (w : @Collaborators F) (config : ThresholdConfig F).

Lemma sweep_thresholds_grid (table : list (EvaluationRow F)) (r : EvaluationResult F) :
  r ∈ sweep_thresholds table ->
  buy_threshold r ∈ buy_range (F:=F)
  /\ sell_threshold r ∈ sell_range (F:=F)
  /\ min_articles r ∈ min_articles_options.
Proof.
  unfold sweep_thresholds. intros Hr.
  apply list_elem_of_bind in Hr as (m & Hr & Hm).
  apply list_elem_of_bind in Hr as (bt & Hr & Hbt).
  apply list_elem_of_bind in Hr as (st & Hr & Hst).
  apply elem_of_cons in Hr as [->|Hr]; [done | by apply elem_of_nil in Hr].
Qed.

(** A run that returns True, by what it selected. *)
Lemma auto_tune_true w config config' :
  auto_tune w config = Ok (true, config') ->
  exists table optimal,
    backtest_table_of w = Ok table
    /\ select_optimal (sweep_thresholds table) = Ok (Some optimal)
    /\ flt (accuracy (evaluate_thresholds table (BUY_THRESHOLD config)
                        (SELL_THRESHOLD config) (MIN_ARTICLES config)))
           (accuracy optimal) = true
    /\ config' = thresholds_of optimal.
Proof.
  intros Hrun.
  destruct (auto_tune_spec w config) as (b & c & Hrun' & Hstage).
  rewrite Hrun in Hrun'. injection Hrun' as <- <-.
  destruct (collect_historical_news w); [by destruct Hstage|].
  destruct Hstage as (table & Htable & Hstage). exists table.
  destruct table as [|row table]; [by destruct Hstage|].
  destruct Hstage as (o & Ho & Hstage).
  destruct o as [optimal|]; [|by destruct Hstage].
  cbv zeta in Hstage. destruct Hstage as [Hb ->].
  exists optimal. by rewrite <- Hb.
Qed.

(** With an irreflexive [<], a second run on the same data changes nothing. *)
Lemma auto_tune_settles_irrefl w config (b : bool) config' :
  (forall x : F, flt x x = false) ->
  auto_tune w config = Ok (b, config') ->
  auto_tune w config' = Ok (false, config').
Proof.
  intros Hirr Hrun. destruct b.
  - apply auto_tune_true in Hrun as (table & optimal & Htable & Ho & _ & ->).
    destruct (auto_tune_spec w (thresholds_of optimal)) as (b & c & Hrun' & Hstage).
    rewrite Hrun'. destruct (collect_historical_news w); [by destruct Hstage as [-> ->]|].
    destruct Hstage as (table' & Htable' & Hstage).
    rewrite Htable in Htable'. injection Htable' as <-.
    destruct table as [|row table]; [by destruct Hstage as [-> ->]|].
    destruct Hstage as (o & Ho' & Hstage). rewrite Ho in Ho'. injection Ho' as <-.
    cbv zeta in Hstage. destruct Hstage as [Hb ->].
    apply select_optimal_Some, viable_results_elem in Ho as [Ho _].
    apply sweep_thresholds_elem in Ho.
    cbn [thresholds_of BUY_THRESHOLD SELL_THRESHOLD MIN_ARTICLES] in Hb.
    rewrite <- Ho, Hirr in Hb. by rewrite Hb.
  - destruct (auto_tune_spec w config) as (b & c & Hrun' & Hstage).
    rewrite Hrun in Hrun'. injection Hrun' as <- <-.
    assert (Hsame : config' = config).
    { destruct (collect_historical_news w); [by destruct Hstage|].
      destruct Hstage as (table & _ & Hstage).
      destruct table; [by destruct Hstage|].
      destruct Hstage as (o & _ & Hstage).
      destruct o; by destruct Hstage. }
    rewrite Hsame in Hrun |- *. exact Hrun.
Qed.
End AutoTuneGrid.

Lemma Qltb_irrefl (x : Q) : Qltb x x = false.
Proof.
  destruct (Qltb x x) eqn:Hlt; [|done].
  apply Qltb_lt in Hlt. by apply Qlt_irrefl in Hlt.
Qed.

Lemma float_ltb_irrefl (x : float) : PrimFloat.ltb x x = false.
Proof.
  rewrite ltb_spec. unfold SFltb, SFcompare.
  destruct (Prim2SF x) as [s|s| |s m e]; try done.
  - by destruct s.
  - destruct s; rewrite Z.compare_refl, Pos.compare_cont_refl; done.
Qed.

(** X14: when [auto_tune] returns True the thresholds it installs are a point
    of the sweep grid. Every buy threshold of the grid is above 0 and every
    sell threshold below 0, over the rationals and in binary64, so the
    installed sell threshold is below the installed buy threshold, and the
    installed article minimum is at least 1. *)
Theorem auto_tune_installs_grid_point :
  (forall (F : Type) (A : Arith F) (w : @Collaborators F)
          (config config' : ThresholdConfig F),
      auto_tune w config = Ok (true, config') ->
      BUY_THRESHOLD config' ∈ buy_range (F:=F)
      /\ SELL_THRESHOLD config' ∈ sell_range (F:=F)
      /\ MIN_ARTICLES config' ∈ min_articles_options)
  /\ (forall x : Q, x ∈ buy_range (F:=Q) -> (0 < x)%Q)
  /\ (forall x : Q, x ∈ sell_range (F:=Q) -> (x < 0)%Q)
  /\ (forall x : float, x ∈ buy_range (F:=float) -> PrimFloat.ltb 0 x = true)
  /\ (forall x : float, x ∈ sell_range (F:=float) -> PrimFloat.ltb x 0 = true)
  /\ (forall m : Z, m ∈ min_articles_options -> 1 <= m).
Proof.
  split.
  { intros F A w config config' Hrun.
    apply auto_tune_true in Hrun as (table & optimal & _ & Ho & _ & ->).
    apply select_optimal_Some, viable_results_elem in Ho as [Ho _].
    by apply sweep_thresholds_grid in Ho. }
  split.
  { assert (Hall : forallb (fun x : Q => Qltb 0 x) (buy_range (F:=Q)) = true)
      by (vm_compute; reflexivity).
    intros x Hx. rewrite forallb_forall in Hall.
    by apply Qltb_lt, Hall, list_elem_of_In. }
  split.
  { assert (Hall : forallb (fun x : Q => Qltb x 0) (sell_range (F:=Q)) = true)
      by (vm_compute; reflexivity).
    intros x Hx. rewrite forallb_forall in Hall.
    by apply Qltb_lt, Hall, list_elem_of_In. }
  split.
  { assert (Hall : forallb (fun x => PrimFloat.ltb 0 x) (buy_range (F:=float)) = true)
      by (vm_compute; reflexivity).
    intros x Hx. rewrite forallb_forall in Hall. by apply Hall, list_elem_of_In. }
  split.
  { assert (Hall : forallb (fun x => PrimFloat.ltb x 0) (sell_range (F:=float)) = true)
      by (vm_compute; reflexivity).
    intros x Hx. rewrite forallb_forall in Hall. by apply Hall, list_elem_of_In. }
  intros m Hm. unfold min_articles_options in Hm.
  repeat (apply elem_of_cons in Hm as [->|Hm]; [lia|]). by apply elem_of_nil in Hm.
Qed.

Lemma auto_tune_installs_grid_point_witness :
  (30 # 100 : Q) ∈ buy_range (F:=Q) /\ (- 5 # 100 : Q) ∈ sell_range (F:=Q)
  /\ (1 : Z) ∈ min_articles_options.
Proof.
  destruct auto_tune_installs_grid_point as [Hgrid _].
  apply (Hgrid Q Q_arith example_run default_config
           {| BUY_THRESHOLD := 30 # 100; SELL_THRESHOLD := - 5 # 100;
              MIN_ARTICLES := 1 |}).
  vm_compute. reflexivity.
Defined.

(** X15: [auto_tune] settles in one step: a second run on the same news and
    prices, from the thresholds the first run left, returns False and leaves
    them as they are; over the rationals and in binary64. *)
Theorem auto_tune_settles :
  (forall (w : @Collaborators Q) (config config' : ThresholdConfig Q) (b : bool),
      auto_tune w config = Ok (b, config') ->
      auto_tune w config' = Ok (false, config'))
  /\ (forall (w : @Collaborators float) (config config' : ThresholdConfig float)
             (b : bool),
        auto_tune w config = Ok (b, config') ->
        auto_tune w config' = Ok (false, config')).
Proof.
  split.
  - intros w config config' b. apply auto_tune_settles_irrefl, Qltb_irrefl.
  - intros w config config' b. apply auto_tune_settles_irrefl, float_ltb_irrefl.
Qed.

Lemma auto_tune_settles_witness :
  auto_tune (F:=Q) example_run
    {| BUY_THRESHOLD := 30 # 100; SELL_THRESHOLD := - 5 # 100; MIN_ARTICLES := 1 |}
  = Ok (false, {| BUY_THRESHOLD := 30 # 100; SELL_THRESHOLD := - 5 # 100;
                  MIN_ARTICLES := 1 |}).
Proof.
  destruct auto_tune_settles as [Hq _].
  apply (Hq example_run default_config _ true).
  vm_compute. reflexivity.
Defined.

(** ** The news collector *)

Section DeduplicateFacts.
Context {F : Type}.
Variables strip lower : string -> string.
Abbreviation norm := (normalized strip lower).
Abbreviation dedup := (NewsCollector._deduplicate strip lower).
Implicit Types (articles : list (Article F)) (art : Article F).

(** The state of the loop of [_deduplicate]: the keys seen are the non-empty
    keys of the articles read. *)
Lemma deduplicate_state articles :
  let st := foldl (fun '(seen_titles, unique) art =>
                     let normalized := lower (strip (title art)) in
                     if bool_decide (normalized <> EmptyString)
                        && bool_decide (normalized ∉ seen_titles)
                     then ({[normalized]} ∪ seen_titles, unique ++ [art])
                     else (seen_titles, unique))
                  ((∅ : gset string), []) articles in
  st.2 = dedup articles
  /\ forall s : string, s ∈ st.1 <-> s <> EmptyString /\ s ∈ map norm articles.
Proof.
  cbv zeta. split; [done|].
  induction articles as [|art articles IH] using rev_ind.
  { intros s. simpl. rewrite elem_of_empty, elem_of_nil. tauto. }
  intros s. rewrite foldl_app. simpl.
  destruct (foldl _ _ articles) as [seen unique]. simpl in IH.
  rewrite map_app, elem_of_app. simpl. rewrite list_elem_of_singleton.
  fold (norm art).
  destruct (bool_decide (norm art <> EmptyString)) eqn:Hne; simpl.
  - apply bool_decide_eq_true_1 in Hne.
    destruct (bool_decide (norm art ∉ seen)) eqn:Hseen; simpl.
    + rewrite elem_of_union, elem_of_singleton, IH. split.
      * intros [->|[? ?]]; [by split; [|right] | by split; [|left]].
      * intros [? [?|?]]; [by right | by left].
    + apply bool_decide_eq_false_1 in Hseen.
      assert (Hin : norm art ∈ seen) by (by destruct (decide (norm art ∈ seen))).
      rewrite IH. split.
      * intros [? ?]. by split; [|left].
      * intros [? [? | ->]]; [done|]. by apply IH.
  - apply bool_decide_eq_false_1 in Hne.
    assert (Hempty : norm art = EmptyString)
      by (by destruct (decide (norm art = EmptyString))).
    rewrite IH. split.
    + intros [? ?]. by split; [|left].
    + intros [? [? | ->]]; [done|]. by rewrite Hempty in *.
Qed.

(** The loop, one article at a time. *)
Lemma deduplicate_snoc articles art :
  dedup (articles ++ [art])
  = dedup articles ++ (if fresh strip lower articles art then [art] else []).
Proof.
  destruct (deduplicate_state articles) as [Hu Hs]. cbv zeta in Hu, Hs.
  unfold NewsCollector._deduplicate at 1. rewrite foldl_app. simpl.
  destruct (foldl _ _ articles) as [seen unique]. simpl in Hu, Hs. subst unique.
  unfold fresh. fold (norm art).
  destruct (bool_decide (norm art <> EmptyString)) eqn:Hne; simpl;
    [|by rewrite app_nil_r].
  apply bool_decide_eq_true_1 in Hne.
  rewrite (bool_decide_ext (norm art ∉ seen) (norm art ∉ map norm articles)).
  2:{ rewrite Hs. tauto. }
  destruct (bool_decide (norm art ∉ map norm articles)); simpl; [done|].
  by rewrite app_nil_r.
Qed.

Lemma deduplicate_sublist articles : dedup articles `sublist_of` articles.
Proof.
  induction articles as [|art articles IH] using rev_ind; [done|].
  rewrite deduplicate_snoc. apply sublist_app; [done|].
  destruct (fresh _ _ _ _); [done|]. apply sublist_nil_l.
Qed.

Lemma deduplicate_keys articles (s : string) :
  s ∈ map norm (dedup articles) <-> s <> EmptyString /\ s ∈ map norm articles.
Proof.
  induction articles as [|art articles IH] using rev_ind.
  { simpl. rewrite elem_of_nil. tauto. }
  rewrite deduplicate_snoc, !map_app, !elem_of_app, IH. simpl.
  rewrite list_elem_of_singleton. unfold fresh.
  destruct (bool_decide (norm art <> EmptyString)) eqn:Hne; simpl.
  - apply bool_decide_eq_true_1 in Hne.
    destruct (bool_decide (norm art ∉ map norm articles)) eqn:Hnew; simpl.
    + rewrite list_elem_of_singleton. split.
      * intros [[? ?] | ->]; [by split; [|left] | by split; [|right]].
      * intros [? [?|?]]; [by left | by right].
    + apply bool_decide_eq_false_1 in Hnew.
      assert (Hin : norm art ∈ map norm articles)
        by (by destruct (decide (norm art ∈ map norm articles))).
      rewrite elem_of_nil. split.
      * intros [[? ?]|[]]. by split; [|left].
      * intros [? [? | ->]]; by left.
  - apply bool_decide_eq_false_1 in Hne.
    assert (Hempty : norm art = EmptyString)
      by (by destruct (decide (norm art = EmptyString))).
    rewrite elem_of_nil. split.
    + intros [[? ?]|[]]. by split; [|left].
    + intros [? [? | ->]]; [by left|]. by rewrite Hempty in *.
Qed.

Lemma deduplicate_NoDup articles : NoDup (map norm (dedup articles)).
Proof.
  induction articles as [|art articles IH] using rev_ind; [constructor|].
  rewrite deduplicate_snoc, map_app. unfold fresh.
  destruct (bool_decide (norm art <> EmptyString)); simpl;
    [|by rewrite app_nil_r].
  destruct (bool_decide (norm art ∉ map norm articles)) eqn:Hnew; simpl;
    [|by rewrite app_nil_r].
  apply bool_decide_eq_true_1 in Hnew.
  apply NoDup_app. split; [done|]. split; [|apply NoDup_singleton].
  intros s Hs ->%list_elem_of_singleton. apply Hnew.
  by apply deduplicate_keys in Hs as [_ Hs].
Qed.

(** Deduplicating two lists one after the other. *)
Lemma deduplicate_app articles1 articles2 :
  dedup (articles1 ++ articles2)
  = dedup articles1
    ++ dedup (List.filter (fun art => bool_decide (norm art ∉ map norm articles1))
                          articles2).
Proof.
  induction articles2 as [|art articles2 IH] using rev_ind.
  { simpl. by rewrite !app_nil_r. }
  rewrite app_assoc, deduplicate_snoc, IH, List.filter_app. simpl.
  rewrite <- app_assoc. f_equal.
  set (rest := List.filter _ articles2).
  assert (Hrest : forall s, s ∈ map norm rest
                    <-> s ∈ map norm articles2 /\ s ∉ map norm articles1).
  { intros s. unfold rest. split.
    - intros (a & -> & Ha)%list_elem_of_fmap.
      apply elem_of_list_filter_bool in Ha as [Ha Hn].
      apply bool_decide_eq_true_1 in Hn. split; [|done].
      apply list_elem_of_fmap. by exists a.
    - intros [(a & -> & Ha)%list_elem_of_fmap Hn].
      apply list_elem_of_fmap. exists a. split; [done|].
      apply elem_of_list_filter_bool. split; [done|]. by apply bool_decide_eq_true_2. }
  unfold fresh at 1.
  destruct (bool_decide (norm art ∉ map norm articles1)) eqn:Hn1.
  - rewrite deduplicate_snoc. f_equal. unfold fresh.
    destruct (bool_decide (norm art <> EmptyString)); simpl; [|done].
    apply bool_decide_eq_true_1 in Hn1.
    rewrite (bool_decide_ext (norm art ∉ map norm (articles1 ++ articles2))
                             (norm art ∉ map norm rest)); [done|].
    rewrite map_app, elem_of_app, Hrest. tauto.
  - rewrite app_nil_r.
    apply bool_decide_eq_false_1 in Hn1.
    rewrite (bool_decide_eq_false_2 (norm art ∉ map norm (articles1 ++ articles2))).
    + rewrite andb_false_r. by rewrite app_nil_r.
    + rewrite map_app, elem_of_app. tauto.
Qed.

Lemma deduplicate_fixed articles :
  NoDup (map norm articles) -> EmptyString ∉ map norm articles ->
  dedup articles = articles.
Proof.
  induction articles as [|art articles IH] using rev_ind; [done|].
  rewrite map_app, NoDup_app, elem_of_app. simpl. intros (Hnd & Hnew & _) Hne.
  rewrite deduplicate_snoc, IH by tauto. f_equal. unfold fresh.
  rewrite bool_decide_eq_true_2.
  - rewrite bool_decide_eq_true_2; [done|]. intros Hin.
    apply (Hnew _ Hin). by left.
  - intros Hempty. apply Hne. right. rewrite Hempty. by left.
Qed.
End DeduplicateFacts.

(** X16: [_deduplicate] keeps a sublist of its input, in the input's order;
    the normalised titles of the kept articles are pairwise distinct, and they
    are exactly the non-empty normalised titles of the input: no headline is
    lost, none is kept twice, and an article whose normalised title is empty
    is dropped. *)
Theorem deduplicate_keeps_one_per_title (F : Type) (strip lower : string -> string)
    (articles : list (Article F)) :
  let unique := NewsCollector._deduplicate strip lower articles in
  unique `sublist_of` articles
  /\ NoDup (map (normalized strip lower) unique)
  /\ (forall s : string,
        s ∈ map (normalized strip lower) unique
        <-> s <> EmptyString /\ s ∈ map (normalized strip lower) articles).
Proof.
  split; [apply deduplicate_sublist|].
  split; [apply deduplicate_NoDup | apply deduplicate_keys].
Qed.

(** X17: [_deduplicate] reads its input one article at a time and keeps an
    article exactly when its normalised title is non-empty and no earlier
    article has it, so of two articles with the same headline the earlier one
    is kept; deduplicating two lists put together is deduplicating the first
    and then what the second adds; and deduplicating twice changes nothing. *)
Theorem deduplicate_composes (F : Type) (strip lower : string -> string)
    (articles1 articles2 : list (Article F)) (art : Article F) :
  NewsCollector._deduplicate strip lower (articles1 ++ [art])
  = NewsCollector._deduplicate strip lower articles1
    ++ (if fresh strip lower articles1 art then [art] else [])
  /\ NewsCollector._deduplicate strip lower (articles1 ++ articles2)
     = NewsCollector._deduplicate strip lower articles1
       ++ NewsCollector._deduplicate strip lower
            (List.filter
               (fun art => bool_decide (normalized strip lower art
                                        ∉ map (normalized strip lower) articles1))
               articles2)
  /\ NewsCollector._deduplicate strip lower
       (NewsCollector._deduplicate strip lower articles1)
     = NewsCollector._deduplicate strip lower articles1.
Proof.
  split; [apply deduplicate_snoc|]. split; [apply deduplicate_app|].
  apply deduplicate_fixed; [apply deduplicate_NoDup|].
  intros Hin. by apply deduplicate_keys in Hin as [Hne _].
Qed.

Lemma foldl_extend {A B} (f : A -> list B) (init : list B) (l : list A) :
  foldl (fun acc a => acc ++ f a) init l = init ++ (l ≫= f).
Proof.
  revert init. induction l as [|a l IH]; intros init; simpl.
  { by rewrite app_nil_r. }
  by rewrite IH, <- app_assoc.
Qed.

Lemma List_filter_sublist {A} (p : A -> bool) (l : list A) :
  List.filter p l `sublist_of` l.
Proof.
  induction l as [|a l IH]; simpl; [done|].
  destruct (p a); [by apply sublist_skip | by apply sublist_cons].
Qed.

Section CollectFacts.
Context {F : Type}.
Variables strip lower : string -> string.
Implicit Types (w : NewsCollector.Sources (F:=F)).

Lemma collect_all_news_eq w :
  NewsCollector.collect_all_news strip lower w
  = NewsCollector._deduplicate strip lower
      (List.filter (titled strip) (source_articles w)).
Proof.
  unfold NewsCollector.collect_all_news, source_articles, yahoo_articles. cbv zeta.
  by rewrite foldl_extend, <- app_assoc.
Qed.
End CollectFacts.

(** X18: [collect_all_news] returns the articles of the three sources, Yahoo
    first, then Bloomberg, then NewsAPI, without those whose title is blank
    and deduplicated: the result is a sublist of the sources' articles, every
    article in it has a non-blank title, no two have the same normalised
    title, and a headline that Yahoo has is kept from Yahoo. *)
Theorem collect_all_news_collects (F : Type) (strip lower : string -> string)
    (w : NewsCollector.Sources (F:=F)) :
  let collected := NewsCollector.collect_all_news strip lower w in
  collected
  = NewsCollector._deduplicate strip lower
      (List.filter (titled strip) (source_articles w))
  /\ collected `sublist_of` source_articles w
  /\ (forall art, art ∈ collected ->
        strip (title art) <> EmptyString
        /\ normalized strip lower art <> EmptyString)
  /\ NoDup (map (normalized strip lower) collected)
  /\ (forall art y,
        art ∈ collected -> y ∈ yahoo_articles w ->
        strip (title y) <> EmptyString ->
        normalized strip lower y = normalized strip lower art ->
        art ∈ yahoo_articles w).
Proof.
  cbv zeta. rewrite collect_all_news_eq.
  assert (Hsub : NewsCollector._deduplicate strip lower
                   (List.filter (titled strip) (source_articles w))
                 `sublist_of` List.filter (titled strip) (source_articles w))
    by apply deduplicate_sublist.
  split; [done|]. split.
  { etrans; [exact Hsub|]. apply List_filter_sublist. }
  split.
  { intros art Hart. split.
    - pose proof (elem_of_sublist _ _ _ Hart Hsub) as Hin.
      apply elem_of_list_filter_bool in Hin as [_ Ht].
      by apply bool_decide_eq_true_1 in Ht.
    - assert (Hk : normalized strip lower art
                   ∈ map (normalized strip lower)
                       (NewsCollector._deduplicate strip lower
                          (List.filter (titled strip) (source_articles w)))).
      { apply list_elem_of_fmap. by exists art. }
      by apply deduplicate_keys in Hk as [Hne _]. }
  split; [apply deduplicate_NoDup|].
  intros art y Hart Hy Hty Hkey. revert Hart.
  unfold source_articles. rewrite List.filter_app, deduplicate_app, elem_of_app.
  intros [Hart|Hart].
  - pose proof (elem_of_sublist _ _ _ Hart (deduplicate_sublist strip lower _)) as Hin.
    by apply elem_of_list_filter_bool in Hin as [Hin _].
  - exfalso.
    pose proof (elem_of_sublist _ _ _ Hart (deduplicate_sublist strip lower _)) as Hin.
    apply elem_of_list_filter_bool in Hin as [_ Hnew].
    apply bool_decide_eq_true_1 in Hnew. apply Hnew.
    rewrite <- Hkey. apply list_elem_of_fmap. exists y. split; [done|].
    apply elem_of_list_filter_bool. split; [done|].
    by apply bool_decide_eq_true_2.
Qed.

(** ** Matching a headline to a ticker *)

Lemma append_cons (a : Ascii.ascii) (n p : string) :
  String.append (String a n) p = String a (String.append n p).
Proof. reflexivity. Qed.

Lemma prefix_append (n s : string) :
  String.prefix n s = true <-> exists post, s = String.append n post.
Proof.
  revert s. induction n as [|a n IH]; intros s.
  { destruct s; cbn [String.prefix]; (split; [by eexists | done]). }
  destruct s as [|b s]; cbn [String.prefix].
  { split; [done | by intros [post ?]]. }
  destruct (Ascii.ascii_dec a b) as [->|Hne].
  - rewrite IH. split; intros [post Hpost]; exists post;
      rewrite append_cons in *; congruence.
  - split; [done|]. intros [post Hpost]. rewrite append_cons in Hpost. congruence.
Qed.

Lemma contains_append (n s : string) :
  contains n s = true
  <-> exists pre post, s = String.append pre (String.append n post).
Proof.
  induction s as [|c s IH].
  - cbn [contains]. rewrite orb_false_r, prefix_append. split.
    + intros [post Hpost]. by exists EmptyString, post.
    + intros (pre & post & Hs). destruct pre; [by exists post|].
      by rewrite append_cons in Hs.
  - cbn [contains]. rewrite orb_true_iff, prefix_append, IH. split.
    + intros [[post Hpost]|(pre & post & Hs)].
      * by exists EmptyString, post.
      * exists (String c pre), post. by rewrite append_cons, Hs.
    + intros (pre & post & Hs). destruct pre as [|c' pre].
      * left. by exists post.
      * right. exists pre, post. rewrite append_cons in Hs. congruence.
Qed.

Lemma append_assoc (a b c : string) :
  String.append (String.append a b) c = String.append a (String.append b c).
Proof.
  induction a as [|x a IH]; [done|]. by rewrite !append_cons, IH.
Qed.

(** A text that contains a word contains every part of the word. *)
Lemma contains_part (a b c s : string) :
  contains (String.append a (String.append b c)) s = true -> contains b s = true.
Proof.
  rewrite !contains_append. intros (pre & post & ->).
  exists (String.append pre a), (String.append c post).
  by rewrite !append_assoc.
Qed.

Section MatchFacts.
Variable upper : string -> string.

Lemma match_ticker_stock (text t : string) :
  t ∈ STOCKS -> contains t (upper text) = true ->
  exists t', NewsCollector._match_ticker upper text = Some t' /\ t' ∈ STOCKS.
Proof.
  intros Ht Hc. unfold NewsCollector._match_ticker. cbv zeta.
  destruct (List.find _ STOCKS) as [t'|] eqn:Hfind.
  - exists t'. split; [done|]. apply find_some in Hfind as [Hin _].
    by apply list_elem_of_In.
  - apply list_elem_of_In in Ht.
    by rewrite (find_none _ _ Hfind t Ht) in Hc.
Qed.

Lemma match_ticker_cases (text t : string) :
  NewsCollector._match_ticker upper text = Some t ->
  (t ∈ STOCKS /\ contains t (upper text) = true)
  \/ ((forall s, s ∈ STOCKS -> contains s (upper text) = false)
      /\ exists keyword, (keyword, t) ∈ NewsCollector.keyword_map
                         /\ contains keyword (upper text) = true).
Proof.
  unfold NewsCollector._match_ticker. cbv zeta.
  destruct (List.find _ STOCKS) as [t'|] eqn:Hfind.
  - intros [= <-]. left. apply find_some in Hfind as [Hin Hc].
    split; [by apply list_elem_of_In | done].
  - destruct (List.find _ NewsCollector.keyword_map) as [[keyword t']|] eqn:Hkey;
      [|done].
    intros [= <-]. right. split.
    + intros s Hs. apply (find_none _ _ Hfind). by apply list_elem_of_In.
    + apply find_some in Hkey as [Hin Hc]. exists keyword.
      split; [by apply list_elem_of_In | done].
Qed.
End MatchFacts.

(** X19: [_match_ticker] answers only with tickers of the watchlist, a stock
    ticker whenever the upper-cased text contains one, and never with the
    silver future ["SI=F"]: a text that contains SILVER contains the stock
    ticker V, and the stock tickers are tried first. *)
Theorem match_ticker_range (upper : string -> string) (text t : string) :
  NewsCollector._match_ticker upper text = Some t ->
  t ∈ ALL_TICKERS
  /\ t <> "SI=F"
  /\ (t ∈ STOCKS \/ forall s, s ∈ STOCKS -> contains s (upper text) = false).
Proof.
  intros Hm. apply match_ticker_cases in Hm as [[Ht Hc]|[Hnone (keyword & Hk & Hc)]].
  - split; [|split; [|by left]].
    + unfold ALL_TICKERS. apply elem_of_app. by left.
    + intros ->. revert Ht. apply (bool_decide_unpack _). vm_compute. exact I.
  - assert (Hv : contains "V" (upper text) = false).
    { apply Hnone. apply (bool_decide_unpack _). vm_compute. exact I. }
    assert (Hcase : keyword = "SILVER"
                    \/ t ∈ ["GC=F"; "CL=F"; "BTC-USD"; "ETH-USD"]).
    { unfold NewsCollector.keyword_map in Hk.
      repeat (apply elem_of_cons in Hk as [Hk|Hk];
              [injection Hk as -> ->;
               first [ by left
                     | right; apply (bool_decide_unpack _); vm_compute; exact I ]|]).
      by apply elem_of_nil in Hk. }
    destruct Hcase as [->|Ht].
    { pose proof (contains_part "SIL" "V" "ER" (upper text) Hc) as Hc'.
      by rewrite Hv in Hc'. }
    split; [|split; [|by right]].
    + repeat (apply elem_of_cons in Ht as [->|Ht];
              [apply (bool_decide_unpack _); vm_compute; exact I|]).
      by apply elem_of_nil in Ht.
    + intros ->. revert Ht. apply (bool_decide_unpack _). vm_compute. exact I.
Qed.

Lemma match_ticker_range_witness :
  NewsCollector._match_ticker ascii_upper "Bitcoin falls as gold climbs" = Some "GC=F"
  /\ "GC=F" ∈ ALL_TICKERS.
Proof.
  assert (Hm : NewsCollector._match_ticker ascii_upper "Bitcoin falls as gold climbs"
               = Some "GC=F") by (vm_compute; reflexivity).
  split; [exact Hm|].
  by destruct (match_ticker_range ascii_upper _ _ Hm) as [Hin _].
Defined.

(** X20: a headline whose upper-cased text contains the letter V is matched
    to a stock ticker, whatever else it mentions; so is every headline about
    silver. *)
Theorem match_ticker_letter_v (upper : string -> string) (text : string) :
  contains "V" (upper text) = true \/ contains "SILVER" (upper text) = true ->
  exists t, NewsCollector._match_ticker upper text = Some t /\ t ∈ STOCKS.
Proof.
  intros Hc. apply (match_ticker_stock upper text "V").
  - apply (bool_decide_unpack _). vm_compute. exact I.
  - destruct Hc as [Hc|Hc]; [done|].
    by apply (contains_part "SIL" "V" "ER").
Qed.

Lemma match_ticker_letter_v_witness :
  NewsCollector._match_ticker ascii_upper "Silver rallies to a record" = Some "V"
  /\ exists t, NewsCollector._match_ticker ascii_upper "Oil investors retreat" = Some t
               /\ t ∈ STOCKS.
Proof.
  split; [vm_compute; reflexivity|].
  apply (match_ticker_letter_v ascii_upper "Oil investors retreat").
  left. vm_compute. reflexivity.
Defined.

(** ** The sentiment analyzer *)

(** A loop that rewrites a list slice by slice, when rewriting keeps the
    length of a slice. *)
Lemma inplace_slices {A} (rewrite_slice : list A -> list A) (b : nat) (l : list A) :
  (forall x, length (rewrite_slice x) = length x) -> (0 < b)%nat ->
  forall (m k0 : nat) (s : list A),
    length s = length l -> drop (k0 * b) s = drop (k0 * b) l ->
    foldl (fun s i => take i s ++ rewrite_slice (take b (drop i s)) ++ drop (i + b) s)
          s (map (fun k => (k * b)%nat) (seq k0 m))
    = take (k0 * b) s
      ++ concat (map (fun i => rewrite_slice (take b (drop i l)))
                     (map (fun k => (k * b)%nat) (seq k0 m)))
      ++ drop ((k0 + m) * b) l.
Proof.
  intros Hlen Hb m. induction m as [|m IH]; intros k0 s Hs Hdrop.
  { simpl. rewrite Nat.add_0_r, <- Hdrop. by rewrite take_drop. }
  cbn [seq map foldl concat].
  set (i := (k0 * b)%nat) in *.
  assert (Hrest : drop (i + b) s = drop (i + b) l).
  { by rewrite <- !drop_drop, Hdrop. }
  rewrite Hdrop, Hrest.
  set (s' := take i s ++ rewrite_slice (take b (drop i l)) ++ drop (i + b) l).
  assert (Hpre : length (take i s ++ rewrite_slice (take b (drop i l)))
                 = Nat.min (i + b) (length l)).
  { rewrite length_app, Hlen, !length_take, length_drop, Hs. lia. }
  assert (Hs' : length s' = length l).
  { unfold s'. rewrite app_assoc, length_app, Hpre, length_drop. lia. }
  assert (Hsplit : take (S k0 * b) s' = take i s ++ rewrite_slice (take b (drop i l))
                   /\ drop (S k0 * b) s' = drop (S k0 * b) l).
  { replace (S k0 * b)%nat with (i + b)%nat by (unfold i; lia).
    unfold s'. rewrite app_assoc.
    destruct (decide (i + b <= length l)%nat) as [Hle|Hgt].
    - assert (Hpre' : length (take i s ++ rewrite_slice (take b (drop i l)))
                      = (i + b)%nat) by lia.
      rewrite <- Hpre' at 1 3.
      by rewrite take_app_length, drop_app_length.
    - rewrite (drop_ge l (i + b)) by lia. rewrite app_nil_r.
      split; [apply take_ge; lia | apply drop_ge; lia]. }
  destruct Hsplit as [Htake Hdrop'].
  rewrite (IH (S k0) s' Hs' Hdrop'), Htake.
  replace ((S k0 + m) * b)%nat with ((k0 + S m) * b)%nat by lia.
  by rewrite <- !app_assoc.
Qed.

Lemma range_step_bounds (n b : nat) :
  (0 < b)%nat ->
  (n <= (n + b - 1) / b * b)%nat
  /\ forall k, (k < (n + b - 1) / b)%nat -> (k * b < n)%nat.
Proof.
  intros Hb. pose proof (Nat.div_mod_eq (n + b - 1) b) as Hdiv.
  pose proof (Nat.mod_upper_bound (n + b - 1) b ltac:(lia)) as Hmod.
  set (m := ((n + b - 1) / b)%nat) in *. split; [nia|].
  intros k Hk. nia.
Qed.

Lemma Forall2_concat_map {A} (P : A -> A -> Prop) (f : list A -> list A)
    (ls : list (list A)) :
  (forall x, Forall2 P x (f x)) -> Forall2 P (concat ls) (concat (map f ls)).
Proof.
  intros Hf. induction ls as [|x ls IH]; simpl; [constructor|].
  by apply Forall2_app.
Qed.

Section AnalyzerFacts.
Context `{Arith F}.
Variable classify : list (Article F) -> py (list (Z * F)).
Implicit Types (articles batch : list (Article F)).

Lemma label_map_labels (z : Z) (label : string) :
  SentimentAnalyzer.label_map !! z = Some label ->
  label ∈ ["positive"; "negative"; "neutral"].
Proof.
  unfold SentimentAnalyzer.label_map. intros Hl.
  apply lookup_insert_Some in Hl as [[_ <-]|[_ Hl]].
  { by right; right; left. }
  apply lookup_insert_Some in Hl as [[_ <-]|[_ Hl]].
  { by right; left. }
  apply lookup_insert_Some in Hl as [[_ <-]|[_ Hl]].
  { by left. }
  by rewrite lookup_empty in Hl.
Qed.

Lemma assign_analysed batch (j : nat) (predictions : list (Z * F)) out :
  SentimentAnalyzer.assign batch j predictions = Ok out -> Forall2 analysed batch out.
Proof.
  revert j out. induction batch as [|art batch IH]; intros j out; simpl.
  { intros [= <-]. constructor. }
  unfold list_getitem, getitem.
  destruct (nth_error predictions j) as [[z conf]|]; [|done]. cbn [py_bind fst snd].
  destruct (SentimentAnalyzer.label_map !! z) as [label|] eqn:Hlabel; [|done].
  cbn [py_bind].
  destruct (SentimentAnalyzer.assign batch (S j) predictions) as [rest|] eqn:Hrest;
    [|done].
  cbn [py_bind]. intros [= <-]. constructor; [|by apply (IH (S j))].
  exists label, conf. split; [done|]. by apply (label_map_labels z).
Qed.

Lemma analyze_batch_analysed batch :
  Forall2 analysed batch (SentimentAnalyzer.analyze_batch classify batch).
Proof.
  unfold SentimentAnalyzer.analyze_batch.
  destruct (let* predictions := classify batch in _) as [out|e] eqn:Htry.
  - destruct (classify batch) as [predictions|]; [|done].
    by apply (assign_analysed batch 0%nat predictions).
  - clear Htry. induction batch as [|art batch IH]; simpl; constructor; [|done].
    exists "neutral", (of_Q 0). split; [done|]. by right; right; left.
Qed.

Lemma analyze_batch_length batch :
  length (SentimentAnalyzer.analyze_batch classify batch) = length batch.
Proof. symmetry. apply (Forall2_length _ _ _ (analyze_batch_analysed batch)). Qed.

Lemma slices_concat articles : concat (slices articles) = articles.
Proof.
  unfold slices, SentimentAnalyzer.range_step.
  destruct (range_step_bounds (length articles) SentimentAnalyzer.batch_size)
    as [Hcover _]; [unfold SentimentAnalyzer.batch_size; lia|].
  pose proof (inplace_slices (fun x => x) SentimentAnalyzer.batch_size articles
                (fun x => eq_refl) ltac:(unfold SentimentAnalyzer.batch_size; lia)
                ((length articles + SentimentAnalyzer.batch_size - 1)
                 / SentimentAnalyzer.batch_size) 0 articles eq_refl eq_refl) as Hfold.
  rewrite (drop_ge articles) in Hfold by (by rewrite Nat.add_0_l).
  rewrite Nat.mul_0_l, take_0, app_nil_r, app_nil_l in Hfold. cbv beta in Hfold.
  rewrite <- Hfold.
  generalize (map (fun k => (k * SentimentAnalyzer.batch_size)%nat)
                  (seq 0 ((length articles + SentimentAnalyzer.batch_size - 1)
                          / SentimentAnalyzer.batch_size))).
  intros starts. clear. generalize articles.
  induction starts as [|i starts IH]; intros s; simpl; [done|].
  by rewrite <- drop_drop, !take_drop.
Qed.

Lemma analyze_sentiment_concat articles :
  SentimentAnalyzer.analyze_sentiment classify articles
  = concat (map (SentimentAnalyzer.analyze_batch classify) (slices articles)).
Proof.
  unfold SentimentAnalyzer.analyze_sentiment. case_bool_decide as Hnil.
  { by rewrite Hnil. }
  unfold slices, SentimentAnalyzer.range_step.
  destruct (range_step_bounds (length articles) SentimentAnalyzer.batch_size)
    as [Hcover _]; [unfold SentimentAnalyzer.batch_size; lia|].
  rewrite (inplace_slices (SentimentAnalyzer.analyze_batch classify)
             SentimentAnalyzer.batch_size articles analyze_batch_length
             ltac:(unfold SentimentAnalyzer.batch_size; lia) _ 0 articles
             eq_refl eq_refl).
  rewrite (drop_ge articles) by (by rewrite Nat.add_0_l).
  rewrite Nat.mul_0_l, take_0, app_nil_r, app_nil_l. f_equal.
  symmetry. apply map_map.
Qed.
Lemma slices_lengths articles :
  Forall (fun slice => (0 < length slice <= SentimentAnalyzer.batch_size)%nat)
         (slices articles).
Proof.
  unfold slices, SentimentAnalyzer.range_step.
  destruct (range_step_bounds (length articles) SentimentAnalyzer.batch_size)
    as [_ Hstart]; [unfold SentimentAnalyzer.batch_size; lia|].
  apply Forall_forall. intros slice Hslice.
  apply list_elem_of_fmap in Hslice as (i & -> & Hi).
  apply list_elem_of_fmap in Hi as (k & -> & Hk).
  apply elem_of_seq in Hk. rewrite length_take, length_drop.
  specialize (Hstart k ltac:(lia)). unfold SentimentAnalyzer.batch_size in *. lia.
Qed.

Lemma analyze_sentiment_analysed articles :
  Forall2 analysed articles (SentimentAnalyzer.analyze_sentiment classify articles).
Proof.
  rewrite analyze_sentiment_concat. rewrite <- (slices_concat articles) at 1.
  apply Forall2_concat_map, analyze_batch_analysed.
Qed.

Lemma analysed_fields (l out : list (Article F)) :
  Forall2 analysed l out ->
  map title out = map title l /\ map ticker out = map ticker l
  /\ map published out = map published l
  /\ Forall (fun art => is_Some (sentiment art) /\ is_Some (confidence art)) out.
Proof.
  induction 1 as [|art o l out (label & conf & -> & _) _ (IH1 & IH2 & IH3 & IH4)];
    simpl; [by repeat split|].
  rewrite IH1, IH2, IH3. repeat split; try done.
  constructor; [|done]. simpl. eauto.
Qed.

Lemma analyze_sentiment_raise articles :
  (forall batch, exists e, classify batch = Raise e) ->
  SentimentAnalyzer.analyze_sentiment classify articles
  = map (fun art => SentimentAnalyzer.labelled art "neutral" (of_Q 0)) articles.
Proof.
  intros Hraise. rewrite analyze_sentiment_concat.
  rewrite <- (slices_concat articles) at 2. rewrite concat_map. f_equal.
  apply map_ext. intros batch. unfold SentimentAnalyzer.analyze_batch.
  destruct (Hraise batch) as [e ->]. done.
Qed.
End AnalyzerFacts.

(** X21: the loop of [analyze_sentiment], which rewrites the list slice by
    slice, returns the batches' results one after the other: the slices are
    consecutive, non-empty, of at most 16 articles, they cover the input, and
    every slice is analysed on its own, from the articles as they came in. *)
Theorem analyze_sentiment_by_slices (F : Type) (A : Arith F)
    (classify : list (Article F) -> py (list (Z * F))) (articles : list (Article F)) :
  SentimentAnalyzer.analyze_sentiment classify articles
  = concat (map (SentimentAnalyzer.analyze_batch classify) (slices articles))
  /\ concat (slices articles) = articles
  /\ Forall (fun slice => (0 < length slice <= 16)%nat) (slices articles).
Proof.
  split; [apply analyze_sentiment_concat|].
  split; [apply slices_concat | apply slices_lengths].
Qed.

(** X22: [analyze_sentiment] returns as many articles as it is given, in the
    same order and with the same titles, tickers and dates, and every one of
    them carries one of the labels positive, negative and neutral and a
    confidence, whatever the classifier returns or raises. *)
Theorem analyze_sentiment_labels_every_article (F : Type) (A : Arith F)
    (classify : list (Article F) -> py (list (Z * F))) (articles : list (Article F)) :
  let out := SentimentAnalyzer.analyze_sentiment classify articles in
  Forall2 analysed articles out
  /\ length out = length articles
  /\ map title out = map title articles
  /\ map ticker out = map ticker articles
  /\ map published out = map published articles
  /\ Forall (fun art => is_Some (sentiment art) /\ is_Some (confidence art)) out.
Proof.
  cbv zeta. pose proof (analyze_sentiment_analysed classify articles) as Hall.
  split; [done|]. split; [symmetry; by apply (Forall2_length _ _ _ Hall)|].
  by apply analysed_fields.
Qed.

Lemma neutral_zero_diluted `{Arith F} (articles : list (Article F)) :
  feq (F:=F) (of_Q 0) (of_Q 0) = true -> flt (F:=F) (of_Q 0) (of_Q (7 # 10)) = true ->
  foldl accumulate accumulator0
        (map (fun art => SentimentAnalyzer.labelled art "neutral" (of_Q 0)) articles)
  = accumulator0.
Proof.
  intros Heq Hlt. generalize (accumulator0 (F:=F)).
  induction articles as [|art articles IH]; intros acc; simpl; [done|].
  rewrite accumulate_diluted; [apply IH| |]; done.
Qed.

(** X23: when the classifier raises on every batch, every article comes out
    labelled neutral with confidence 0; such articles are skipped by the
    weighted average of the signal aggregator, over the rationals and in
    binary64, so the sums of the aggregator stay at their start values. *)
Theorem analyze_sentiment_failure :
  (forall (F : Type) (A : Arith F) (classify : list (Article F) -> py (list (Z * F)))
          (articles : list (Article F)),
      (forall batch, exists e, classify batch = Raise e) ->
      SentimentAnalyzer.analyze_sentiment classify articles
      = map (fun art => SentimentAnalyzer.labelled art "neutral" (of_Q 0)) articles)
  /\ (forall articles : list (Article Q),
        foldl accumulate accumulator0
              (map (fun art => SentimentAnalyzer.labelled art "neutral" (of_Q 0))
                   articles)
        = accumulator0)
  /\ (forall articles : list (Article float),
        foldl accumulate accumulator0
              (map (fun art => SentimentAnalyzer.labelled art "neutral" (of_Q 0))
                   articles)
        = accumulator0).
Proof.
  split; [intros F A; apply analyze_sentiment_raise|].
  split; intros articles; apply neutral_zero_diluted; vm_compute; reflexivity.
Qed.

Lemma analyze_sentiment_failure_witness :
  SentimentAnalyzer.analyze_sentiment (F:=Q) failing_classifier
    [unlabelled "AAPL" "Apple beats estimates"; unlabelled "MSFT" "Cloud growth slows"]
  = [SentimentAnalyzer.labelled (unlabelled "AAPL" "Apple beats estimates")
       "neutral" (0 : Q);
     SentimentAnalyzer.labelled (unlabelled "MSFT" "Cloud growth slows")
       "neutral" (0 : Q)].
Proof.
  destruct analyze_sentiment_failure as [Hfail _].
  apply (Hfail Q Q_arith failing_classifier
           [unlabelled "AAPL" "Apple beats estimates";
            unlabelled "MSFT" "Cloud growth slows"]).
  intros batch. by exists ValueError.
Defined.

(** ** The pipeline *)

Section PipelineFacts.
Context `{Arith F}.

Lemma count_signals_total (signals : gmap string (Signal F)) :
  (count_signals BUY signals + count_signals SELL signals
   + count_signals HOLD signals = size signals)%nat.
Proof.
  unfold count_signals.
  rewrite <- (length_map_to_list signals), <- (length_fmap snd (map_to_list signals)).
  generalize ((map_to_list signals).*2). intros l.
  induction l as [|s l IH]; simpl; [done|].
  destruct (signal s); simpl; lia.
Qed.

Lemma generate_signals_size (config : ThresholdConfig F) (articles : list (Article F)) :
  size (generate_signals config articles) = 15%nat.
Proof.
  rewrite <- length_map_to_list, <- (length_fmap fst).
  change 15%nat with (length ALL_TICKERS). apply Permutation_length.
  apply NoDup_Permutation; [apply NoDup_fst_map_to_list | apply ALL_TICKERS_NoDup|].
  intros t. rewrite list_elem_of_fmap. split.
  - intros ([t' s] & -> & Hs). apply elem_of_map_to_list in Hs.
    rewrite generate_signals_lookup in Hs. simpl.
    by case_bool_decide.
  - intros Ht. exists (t, signal_for config t articles). split; [done|].
    apply elem_of_map_to_list. rewrite generate_signals_lookup.
    by rewrite bool_decide_eq_true_2.
Qed.
End PipelineFacts.

(** X24: one run of the pipeline. The thresholds it leaves are those
    [auto_tune] leaves, which never raises; without news it stops before the
    analysis; with news it generates the signals from the analysed news under
    the tuned thresholds, and the three counts of its summary line add up to
    the 15 assets of the watchlist. *)
Theorem run_pipeline_summary (F : Type) (A : Arith F) (w : @Collaborators F)
    (news : list (Article F)) (config : ThresholdConfig F) :
  let run := run_pipeline w news config in
  (exists b : bool, auto_tune w config = Ok (b, run.1))
  /\ (run.2 = None <-> news = [])
  /\ (forall signals buy_count sell_count hold_count,
        run.2 = Some (signals, (buy_count, sell_count, hold_count)) ->
        signals = generate_signals run.1 (analyze_sentiment w news)
        /\ buy_count = count_signals BUY signals
        /\ sell_count = count_signals SELL signals
        /\ hold_count = count_signals HOLD signals
        /\ (buy_count + sell_count + hold_count = 15)%nat).
Proof.
  cbv zeta. unfold run_pipeline.
  destruct (auto_tune_spec w config) as (b & config' & -> & _).
  case_bool_decide as Hnews; cbn [fst snd].
  - split; [by exists b|]. split; [done|]. done.
  - split; [by exists b|]. split; [done|].
    intros signals bc sc hc [= <- <- <- <-].
    repeat split. by rewrite count_signals_total, generate_signals_size.
Qed.

(** ** Stricter thresholds *)

Lemma Qltb_ge (x y : Q) : Qltb x y = false -> (y <= x)%Q.
Proof.
  intros Hlt. destruct (Qlt_le_dec x y) as [Hxy|Hyx]; [|done].
  apply Qltb_lt in Hxy. congruence.
Qed.

Lemma row_class_stricter (bt1 bt2 st1 st2 : Q) (m : Z) (row : EvaluationRow Q) :
  (bt1 <= bt2)%Q -> (st2 <= st1)%Q ->
  (row_class bt1 st1 m row = HOLD -> row_class bt2 st2 m row = HOLD)
  /\ (row_class bt2 st2 m row = BUY -> row_class bt1 st1 m row = BUY).
Proof.
  intros Hbt Hst. unfold row_class.
  destruct (article_count row <? m); [done|].
  destruct (flt bt1 (sentiment_score row)) eqn:H1,
           (flt bt2 (sentiment_score row)) eqn:H2,
           (flt (sentiment_score row) st1) eqn:H3,
           (flt (sentiment_score row) st2) eqn:H4; split; try done; exfalso;
    repeat match goal with
           | H : flt _ _ = true |- _ => apply Qltb_lt in H
           | H : flt _ _ = false |- _ => apply Qltb_ge in H
           end; lra.
Qed.

(** X25: over the rationals, raising the buy threshold and lowering the sell
    threshold never turns a HOLD into a signal: the number of holds does not
    fall, the number of signals does not rise, and neither do the BUY signals
    that were right nor those that were wrong. *)
Theorem evaluate_thresholds_stricter (table : list (EvaluationRow Q))
    (bt1 bt2 st1 st2 : Q) (m : Z) :
  (bt1 <= bt2)%Q -> (st2 <= st1)%Q ->
  let r1 := evaluate_thresholds table bt1 st1 m in
  let r2 := evaluate_thresholds table bt2 st2 m in
  (hold_count r1 <= hold_count r2)%nat
  /\ (total_signals r2 <= total_signals r1)%nat
  /\ (tp_buy r2 <= tp_buy r1)%nat
  /\ (fp_buy r2 <= fp_buy r1)%nat.
Proof.
  intros Hbt Hst r1 r2.
  destruct (evaluate_thresholds_fields bt1 st1 m table) as (Ha1 & Hb1 & _ & _ & Hh1 & Ht1).
  destruct (evaluate_thresholds_fields bt2 st2 m table) as (Ha2 & Hb2 & _ & _ & Hh2 & Ht2).
  cbv zeta in Ha1, Hb1, Hh1, Ht1, Ha2, Hb2, Hh2, Ht2.
  fold r1 in Ha1, Hb1, Hh1, Ht1. fold r2 in Ha2, Hb2, Hh2, Ht2.
  rewrite Ha1, Hb1, Hh1, Ht1, Ha2, Hb2, Hh2, Ht2.
  assert (Hhold : forall row, is_class HOLD bt1 st1 m row = true ->
                              is_class HOLD bt2 st2 m row = true).
  { intros row. unfold is_class.
    destruct (row_class_stricter bt1 bt2 st1 st2 m row Hbt Hst) as [Hh _].
    destruct (row_class bt1 st1 m row); try done. by rewrite Hh. }
  assert (Hbuy : forall row, is_class BUY bt2 st2 m row = true ->
                             is_class BUY bt1 st1 m row = true).
  { intros row. unfold is_class.
    destruct (row_class_stricter bt1 bt2 st1 st2 m row Hbt Hst) as [_ Hb].
    destruct (row_class bt2 st2 m row); try done. by rewrite Hb. }
  split; [by apply count_rows_mono|]. split.
  { apply count_rows_mono. intros row Hrow.
    destruct (is_class HOLD bt1 st1 m row) eqn:H1; [|done].
    by rewrite (Hhold row H1) in Hrow. }
  split; apply count_rows_mono; intros row [Hc Hup]%andb_true_iff;
    by rewrite (Hbuy row Hc), Hup.
Qed.

Lemma evaluate_thresholds_stricter_witness :
  (hold_count (evaluate_thresholds example_table (1 # 10) (- 1 # 10) 1)
   <= hold_count (evaluate_thresholds example_table (3 # 10) (- 3 # 10) 1))%nat.
Proof.
  apply (evaluate_thresholds_stricter example_table
           (1 # 10) (3 # 10) (- 1 # 10) (- 3 # 10) 1).
  - vm_compute. discriminate.
  - vm_compute. discriminate.
Defined.
